(** * Void-Gallery asset pipeline: [process_assets.py]

    A shallow embedding of the conversion worker ([convert_and_resize]), the
    renumbering pass ([standardize_names_and_fill_gaps], [perform_rename_set])
    and the coordinator ([process_directory]) over an explicit model of the
    three directory trees of one asset root.

    Modelling decisions, stated once:
    - File names are ASCII strings without a path separator; a path is a pair
      of the tree it lives in ([full] is the root, [half] is [halfres],
      [quarter] is [quarterres]) and the entry name, so [os.path.join] of the
      tree and a name is the pair. Names are compared case-sensitively, as on
      a POSIX file system.
    - The three directories exist ([ensure_dirs] has run) and hold files only;
      [ensure_dirs] itself is modelled over the set of paths that exist.
    - The file system, a write counter and a trace of the system calls issued
      are threaded through a state-and-exception monad. A successful write
      stamps the file with the clock value of the current write counter.
    - What the program cannot decide is in a [world]: the clock, which writes
      and renames fail, the order in which [os.listdir] enumerates a
      directory and the order in which the pool hands back results. The
      worker pool is run one task after the other in that order. *)

From Stdlib Require Import ZArith Lia Ascii String List.
From Stdlib Require Import Decimal DecimalString DecimalZ DecimalPos.
From stdpp Require Import base tactics option list sorting.
From stdpp Require Import countable gmap fin_maps fin_map_dom strings.

Local Open Scope string_scope.
Local Open Scope list_scope.
Local Open Scope Z_scope.

(** ** Strings: the [str] methods and [os.path] functions the program calls *)

Module Str.

Definition lower_ascii (c : ascii) : ascii :=
  let n := nat_of_ascii c in
  if (65 <=? n)%nat && (n <=? 90)%nat then ascii_of_nat (n + 32) else c.

(** [s.lower()] *)
Fixpoint lower (s : string) : string :=
  match s with
  | EmptyString => EmptyString
  | String c s' => String (lower_ascii c) (lower s')
  end.

Definition upper_ascii (c : ascii) : ascii :=
  let n := nat_of_ascii c in
  if (97 <=? n)%nat && (n <=? 122)%nat then ascii_of_nat (n - 32) else c.

(** [s.upper()] *)
Fixpoint upper (s : string) : string :=
  match s with
  | EmptyString => EmptyString
  | String c s' => String (upper_ascii c) (upper s')
  end.

(** [s.endswith(suf)] *)
Fixpoint endswith (s suf : string) : bool :=
  String.eqb s suf ||
  match s with
  | EmptyString => false
  | String _ s' => endswith s' suf
  end.

(** [s.startswith(pre)] *)
Definition startswith (s pre : string) : bool := String.prefix pre s.

Definition is_digit (c : ascii) : bool :=
  let n := nat_of_ascii c in (48 <=? n)%nat && (n <=? 57)%nat.

Fixpoint all_chars (p : ascii → bool) (s : string) : bool :=
  match s with
  | EmptyString => true
  | String c s' => p c && all_chars p s'
  end.

(** [s.isdigit()]: at least one character, and every character a digit. *)
Definition isdigit (s : string) : bool :=
  match s with
  | EmptyString => false
  | _ => all_chars is_digit s
  end.

(** [int(s)] on a string of decimal digits; [None] stands for [ValueError]. *)
Definition int (s : string) : option Z :=
  Z.of_uint <$> NilZero.uint_of_string s.

(** [str(n)], the decimal form used by the f-strings. *)
Definition str (n : Z) : string := NilZero.string_of_int (Z.to_int n).

(** [s.rfind(c)] *)
Fixpoint rfind (c : ascii) (s : string) : option nat :=
  match s with
  | EmptyString => None
  | String a s' =>
      match rfind c s' with
      | Some i => Some (S i)
      | None => if Ascii.eqb a c then Some 0%nat else None
      end
  end.

Definition is_dot (c : ascii) : bool := Ascii.eqb c ".".

(** [os.path.splitext] on a name without a separator: split at the last dot,
    unless that dot only has dots in front of it. *)
Definition splitext (p : string) : string * string :=
  match rfind "." p with
  | Some d =>
      if all_chars is_dot (String.substring 0 d p) then (p, "")
      else (String.substring 0 d p,
            String.substring d (String.length p - d) p)
  | None => (p, "")
  end.

End Str.

(** ** Configuration *)

Definition TARGET_EXT : string := ".webp".
Definition CONFIG_FILENAME : string := "config.json".
Definition MANIFEST_FILENAME : string := "manifest.json".
Definition DRY_RUN : bool := false.

(** ** Images and files *)

(** A decoded image: the pixels of some original, or the result of
    [img.resize((w, h), LANCZOS)] on another image. *)
Inductive image :=
| Picture (tag : positive) (w h : Z)
| Resampled (src : image) (w h : Z).

(** [img.size] *)
Definition img_size (i : image) : Z * Z :=
  match i with
  | Picture _ w h => (w, h)
  | Resampled _ w h => (w, h)
  end.

Inductive codec :=
| Foreign                       (* the encoding of a source as it arrived *)
| WebpLossless                  (* save(..., "webp", lossless=True) *)
| WebpLossy (quality : Z).      (* save(..., "webp", quality=q) *)

Inductive payload :=
| Encoded (c : codec) (i : image)
| Manifest (m : gmap string string)
| Config (totalImages : Z) (lastUpdated : Z)
| Noise.

Record file := File { mtime : Z; body : payload }.

Inductive tier := full | half | quarter.

Global Instance tier_eq_dec : EqDecision tier.
Proof. solve_decision. Defined.

Global Instance tier_countable : Countable tier.
Proof.
  refine (inj_countable'
    (λ t, match t with full => 0%nat | half => 1%nat | quarter => 2%nat end)
    (λ n, match n with 0%nat => full | 1%nat => half | _ => quarter end) _).
  by intros [].
Defined.

Abbreviation path := (tier * string)%type.

Definition path_eqb (p q : path) : bool := bool_decide (p = q).

(** ** Effects *)

Inductive event :=
| EvStat (p : path)             (* os.path.exists, os.path.getmtime *)
| EvList (t : tier)             (* os.listdir, glob.glob *)
| EvOpen (p : path)             (* Image.open, open(..., 'r') *)
| EvSave (p : path)             (* Image.save *)
| EvRename (s t : path)         (* os.rename *)
| EvDump (p : path).            (* json.dump *)

Inductive exn :=
| FileNotFoundError (p : path)
| UnidentifiedImageError (p : path)
| OSError (p : path)
| IndexError
| ValueError.

Record state := State {
  files : gmap path file;
  ticks : nat;
  trace : list event
}.

Definition M (A : Type) : Type := state → state * (exn + A).

Definition ret {A} (a : A) : M A := λ st, (st, inr a).

Definition bind {A B} (c : M A) (k : A → M B) : M B :=
  λ st, match c st with
        | (st', inl e) => (st', inl e)
        | (st', inr a) => k a st'
        end.

Definition raise {A} (e : exn) : M A := λ st, (st, inl e).

(** [try: c  except ...: h] *)
Definition try_with {A} (c : M A) (h : exn → M A) : M A :=
  λ st, match c st with
        | (st', inl e) => h e st'
        | r => r
        end.

Definition log (e : event) : M unit :=
  λ st, (State (files st) (ticks st) (trace st ++ [e]), inr tt).

Declare Scope io_scope.
Delimit Scope io_scope with io.
Notation "x <- c ;; k" := (bind c (λ x, k))
  (at level 20, c at level 99, k at level 200) : io_scope.
Notation "' pat <- c ;; k" := (bind c (λ pat, k))
  (at level 20, pat pattern, c at level 99, k at level 200) : io_scope.
Notation "c ;;; k" := (bind c (λ _, k))
  (at level 100, k at level 200, right associativity) : io_scope.
Local Open Scope io_scope.

(** [task_info]; the [paths] dictionary is the fixed layout of the three trees. *)
Record task := Task {
  src_full_path : path;
  filename : string;
  is_dry_run : bool
}.

Record world := World {
  clock : nat → Z;
  save_fails : path → bool;
  rename_fails : path → path → bool;
  listdir_order : gmap path file → list string;
  pool_order : list task → list task
}.

(** The names held by the root directory. *)
Definition root_name (p : path) : option string :=
  match p with
  | (full, n) => Some n
  | _ => None
  end.

Definition root_names (fs : gmap path file) : list string :=
  omap root_name (elements (dom fs)).

Section Primitives.
Context (w : world).

(** [os.path.exists(p)] *)
Definition path_exists (p : path) : M bool :=
  log (EvStat p);;;
  λ st, (st, inr (bool_decide (is_Some (files st !! p)))).

(** [os.path.getmtime(p)] *)
Definition getmtime (p : path) : M Z :=
  log (EvStat p);;;
  λ st, match files st !! p with
        | Some f => (st, inr (mtime f))
        | None => (st, inl (FileNotFoundError p))
        end.

(** [Image.open(p)] *)
Definition image_open (p : path) : M image :=
  log (EvOpen p);;;
  λ st, match files st !! p with
        | Some (File _ (Encoded _ i)) => (st, inr i)
        | Some _ => (st, inl (UnidentifiedImageError p))
        | None => (st, inl (FileNotFoundError p))
        end.

(** Creating or replacing the file at [p]. *)
Definition write_file (ev : event) (p : path) (b : payload) : M unit :=
  λ st, if save_fails w p then (st, inl (OSError p))
        else (State (<[p := File (clock w (ticks st)) b]> (files st))
                    (S (ticks st)) (trace st ++ [ev]), inr tt).

(** [img.save(p, "webp", ...)] *)
Definition image_save (i : image) (p : path) (c : codec) : M unit :=
  write_file (EvSave p) p (Encoded c i).

(** [os.rename(s, t)]: replaces [t] when it is there, keeps the timestamp. *)
Definition os_rename (s t : path) : M unit :=
  λ st, match files st !! s with
        | None => (st, inl (FileNotFoundError s))
        | Some f =>
            if rename_fails w s t then (st, inl (OSError s))
            else (State (<[t := f]> (delete s (files st)))
                        (ticks st) (trace st ++ [EvRename s t]), inr tt)
        end.

(** [os.listdir(base_dir)] *)
Definition listdir : M (list string) :=
  log (EvList full);;;
  λ st, (st, inr (listdir_order w (files st))).

End Primitives.

(** An enumeration order is any arrangement of the names in the root. *)
Definition listing_ok (w : world) : Prop :=
  ∀ fs, listdir_order w fs ≡ₚ root_names fs.

Definition pool_ok (w : world) : Prop :=
  ∀ ts, pool_order w ts ≡ₚ ts.

Definition clock_ok (w : world) : Prop :=
  ∀ n, (clock w n ≤ clock w (S n))%Z.

Definition no_faults (w : world) : Prop :=
  (∀ p, save_fails w p = false) ∧ (∀ s t, rename_fails w s t = false).

(** ** The program *)

(** [os.path.splitext(filename)[0] + ".webp"] *)
Definition final_name_of (filename : string) : string :=
  (Str.splitext filename).1 +:+ ".webp".

(** [f.lower().endswith(TARGET_EXT)] *)
Definition is_webp (f : string) : bool :=
  Str.endswith (Str.lower f) TARGET_EXT.

(** [f"{n}{TARGET_EXT}"] *)
Definition slot_name (n : Z) : string := Str.str n +:+ TARGET_EXT.

(** [if src in manifest: manifest[dst] = manifest.pop(src)] *)
Definition rekey (manifest : gmap string string) (src dst : string)
  : gmap string string :=
  match manifest !! src with
  | Some v => <[dst := v]> (delete src manifest)
  | None => manifest
  end.

(** [if result: ... if final_name not in manifest: manifest[final_name] = original_name] *)
Definition record (manifest : gmap string string)
    (result : option (string * string)) : gmap string string :=
  match result with
  | Some (final_name, original_name) =>
      match manifest !! final_name with
      | None => <[final_name := original_name]> manifest
      | Some _ => manifest
      end
  | None => manifest
  end.

(** [(max(1, w // 2), max(1, h // 2))] *)
Definition halved (wh : Z * Z) : Z * Z :=
  (Z.max 1 (wh.1 `div` 2), Z.max 1 (wh.2 `div` 2)).

(** [img.resize((max(1, w // 2), max(1, h // 2)), LANCZOS)] *)
Definition half_image (i : image) : image :=
  Resampled i (halved (img_size i)).1 (halved (img_size i)).2.

(** [set(manifest.values())] *)
Definition known (m : gmap string string) : gset string := map_img m.

Definition exts : list string := [".png"; ".jpg"; ".jpeg"; ".webp"].

(** A name matches the pattern ["*" + ext]: it ends in [ext] and does not
    start with a dot. *)
Definition glob_match (ext n : string) : bool :=
  Str.endswith n ext && negb (Str.startswith n ".").

Definition str_le (a b : string) : Prop := String.leb a b = true.

Global Instance str_le_dec : RelDecision str_le.
Proof. intros a b. unfold str_le. apply _. Defined.

Section Program.
Context (w : world).

(** The staleness test shared by steps 2 and 3: the target is missing, or
    the upstream timestamp is not [<=] the target's. *)
Definition needs_update (upstream target : path) : M bool :=
  e <- path_exists target;;
  if e then
    a <- getmtime upstream;;
    b <- getmtime target;;
    ret (negb (a <=? b))
  else ret true.

(** Lines 61-78, step 1: convert or copy into the main directory. *)
Definition write_full (src : path) (final_name : string) : M unit :=
  let full_res_target := (full, final_name) in
  src_mtime <- getmtime src;;
  e <- path_exists full_res_target;;
  needs_process <-
    (if e then
       dst_mtime <- getmtime full_res_target;;
       ret (negb (src_mtime <=? dst_mtime))
     else ret true);;
  if needs_process || negb (path_eqb src full_res_target) then
    img_src <- image_open src;;
    if negb (path_eqb src full_res_target)
    then image_save w img_src full_res_target WebpLossless
    else ret tt
  else ret tt.

(** Lines 80-90, step 2: the half tier, resized from the full tier. *)
Definition write_half (final_name : string) : M unit :=
  let full_res_target := (full, final_name) in
  let half_res_target := (half, final_name) in
  half_needs_update <- needs_update full_res_target half_res_target;;
  if half_needs_update then
    img <- image_open full_res_target;;
    image_save w (half_image img) half_res_target (WebpLossy 85)
  else ret tt.

(** Lines 92-104, step 3: the quarter tier, resized from the half tier. *)
Definition write_quarter (final_name : string) : M unit :=
  let half_res_target := (half, final_name) in
  let quat_res_target := (quarter, final_name) in
  quat_needs_update <- needs_update half_res_target quat_res_target;;
  if quat_needs_update then
    e <- path_exists half_res_target;;
    if e then
      img_half_src <- image_open half_res_target;;
      image_save w (half_image img_half_src) quat_res_target (WebpLossy 80)
    else ret tt
  else ret tt.

(** Lines 61-104: the body of the [try] after the dry-run return. *)
Definition convert_steps (src : path) (final_name : string) : M unit :=
  write_full src final_name;;;
  write_half final_name;;;
  write_quarter final_name.

(** The [try] block of [convert_and_resize]. *)
Definition convert_body (t : task) : M (string * string) :=
  let final_name := final_name_of (filename t) in
  if is_dry_run t then ret (final_name, filename t)
  else
    convert_steps (src_full_path t) final_name;;;
    ret (final_name, filename t).

(** [convert_and_resize(task_info)]: [None] when the [except] branch ran. *)
Definition convert_and_resize (t : task) : M (option (string * string)) :=
  try_with (r <- convert_body t;; ret (Some r)) (λ _, ret None).

(** The loop over the three directories in [perform_rename_set]. *)
Fixpoint rename_in_dirs (dirs : list tier) (src_name dst_name : string)
    (success : bool) : M bool :=
  match dirs with
  | [] => ret success
  | d :: dirs' =>
      let s := (d, src_name) in
      let t := (d, dst_name) in
      e <- path_exists s;;
      success' <-
        (if e then
           if negb DRY_RUN then
             try_with (os_rename w s t;;; ret success) (λ _, ret false)
           else ret success
         else ret success);;
      rename_in_dirs dirs' src_name dst_name success'
  end.

Definition perform_rename_set (src_name dst_name : string) : M bool :=
  e <- path_exists (full, dst_name);;
  if e then ret false
  else rename_in_dirs [full; half; quarter] src_name dst_name true.

(** Lines 122-127: split the listing into [numbered_map] and [others]. *)
Fixpoint classify (fs : list string) (numbered_map : gmap Z string)
    (others : list string) : M (gmap Z string * list string) :=
  match fs with
  | [] => ret (numbered_map, others)
  | f :: fs' =>
      let name := (Str.splitext f).1 in
      if Str.isdigit name then
        match Str.int name with
        | Some n => classify fs' (<[n := f]> numbered_map) others
        | None => raise ValueError
        end
      else classify fs' numbered_map (others ++ [f])
  end.

(** [sorted(d.keys())], [sorted(list(set(l)))] *)
Definition sorted_keys (numbered_map : gmap Z string) : list Z :=
  merge_sort Z.le (elements (dom numbered_map)).

Definition sorted_set (l : list Z) : list Z :=
  merge_sort Z.le (elements (list_to_set l : gset Z)).

(** Lines 132-138 *)
Definition gaps_of (existing_nums : list Z) : list Z :=
  match last existing_nums with
  | Some max_val =>
      let existing_set : gset Z := list_to_set existing_nums in
      filter (λ i, i ∉ existing_set) (seqZ 1 (max_val - 1))
  | None => []
  end.

(** Lines 146-161: the loop over [gaps]; the result is the mutated
    [existing_nums] and manifest. *)
Fixpoint fill_gaps (gaps : list Z) (existing_nums : list Z) (curr_high : Z)
    (manifest : gmap string string) : M (list Z * gmap string string) :=
  match gaps with
  | [] => ret (existing_nums, manifest)
  | gap :: gaps' =>
      if curr_high <? 0 then ret (existing_nums, manifest)
      else
        match existing_nums !! Z.to_nat curr_high with
        | None => raise IndexError
        | Some source_num =>
            if source_num <? gap then ret (existing_nums, manifest)
            else
              let src_name := slot_name source_num in
              let dst_name := slot_name gap in
              ok <- perform_rename_set src_name dst_name;;
              let manifest' :=
                if ok then rekey manifest src_name dst_name else manifest in
              fill_gaps gaps' (<[Z.to_nat curr_high := gap]> existing_nums)
                        (curr_high - 1) manifest'
        end
  end.

(** Lines 167-173: the loop over [others]; the result is [next_num] and
    the manifest. *)
Fixpoint rename_others (others : list string) (next_num : Z)
    (manifest : gmap string string) : M (Z * gmap string string) :=
  match others with
  | [] => ret (next_num, manifest)
  | f :: others' =>
      let new_name := slot_name next_num in
      ok <- perform_rename_set f new_name;;
      let manifest' := if ok then rekey manifest f new_name else manifest in
      rename_others others' (next_num + 1) manifest'
  end.

(** [standardize_names_and_fill_gaps(base_dir, manifest)]; the manifest is
    mutated in place, so it is returned next to the count. *)
Definition standardize_names_and_fill_gaps (manifest : gmap string string)
  : M (Z * gmap string string) :=
  listing <- listdir w;;
  let fs := filter (λ f, is_webp f = true) listing in
  '(numbered_map, others) <- classify fs ∅ [];;
  let existing_nums := sorted_keys numbered_map in
  let gaps := gaps_of existing_nums in
  '(existing_nums, manifest) <-
    (match existing_nums, gaps with
     | _ :: _, _ :: _ =>
         fill_gaps gaps existing_nums (Z.of_nat (length existing_nums) - 1)
                   manifest
     | _, _ => ret (existing_nums, manifest)
     end);;
  let existing_nums := sorted_set existing_nums in
  let next_num :=
    match last existing_nums with Some m => m + 1 | None => 1 end in
  '(next_num, manifest) <- rename_others others next_num manifest;;
  ret (next_num - 1, manifest).

(** [time.time()] *)
Definition time_now : M Z := λ st, (st, inr (clock w (ticks st))).

Definition update_config_and_manifest (total_count : Z)
    (manifest : gmap string string) : M unit :=
  if DRY_RUN then ret tt
  else
    now <- time_now;;
    write_file w (EvDump (full, CONFIG_FILENAME)) (full, CONFIG_FILENAME)
               (Config total_count now);;;
    write_file w (EvDump (full, MANIFEST_FILENAME)) (full, MANIFEST_FILENAME)
               (Manifest manifest).

(** Lines 226-233 *)
Definition load_manifest : M (gmap string string) :=
  e <- path_exists (full, MANIFEST_FILENAME);;
  if e then
    try_with
      (log (EvOpen (full, MANIFEST_FILENAME));;;
       λ st, match files st !! (full, MANIFEST_FILENAME) with
             | Some (File _ (Manifest m)) => (st, inr m)
             | _ => (st, inl ValueError)
             end)
      (λ _, ret ∅)
  else ret ∅.

(** [glob.glob(os.path.join(dir_name, "*" + ext))] *)
Definition glob (ext : string) : M (list string) :=
  log (EvList full);;;
  λ st, (st, inr (filter (λ n, glob_match ext n = true)
                         (listdir_order w (files st)))).

Fixpoint glob_all (es : list string) (all_files : list string)
  : M (list string) :=
  match es with
  | [] => ret all_files
  | ext :: es' =>
      lo <- glob ext;;
      up <- glob (Str.upper ext);;
      glob_all es' (all_files ++ lo ++ up)
  end.

(** Lines 236-261: the pending sources, as tasks. Every path that [glob]
    returns lies directly in the root, so [root_files] is [all_files]. *)
Definition gather_tasks (manifest : gmap string string) : M (list task) :=
  all_files <- glob_all exts [];;
  let root_files := merge_sort str_le (remove_dups all_files) in
  let known_sources := known manifest in
  let pending_files := filter (λ f, f ∉ known_sources) root_files in
  ret ((λ f, Task (full, f) f DRY_RUN) <$> pending_files).

(** Lines 266-270: the results of the pool folded into the manifest. *)
Fixpoint run_pool (ts : list task) (manifest : gmap string string)
  : M (gmap string string) :=
  match ts with
  | [] => ret manifest
  | t :: ts' =>
      result <- convert_and_resize t;;
      run_pool ts' (record manifest result)
  end.

(** Lines 225-270: everything before the renaming step. *)
Definition conversion_phase : M (gmap string string) :=
  manifest <- load_manifest;;
  tasks <- gather_tasks manifest;;
  run_pool (pool_order w tasks) manifest.

Definition process_directory : M unit :=
  manifest <- conversion_phase;;
  '(total_images, manifest) <- standardize_names_and_fill_gaps manifest;;
  update_config_and_manifest total_images manifest.

End Program.

(** ** Directories *)

(** The loop of [ensure_dirs] over [half] and [quarter]: [dirs] are the
    paths among [base_dir], [base_dir/halfres] and [base_dir/quarterres]
    that exist, a tier standing for its directory; [mkdir_fails] tells where
    [os.makedirs] raises. *)
Fixpoint make_missing (mkdir_fails : tier → bool) (keys : list tier)
    (dirs : gset tier) : gset tier * (exn + unit) :=
  match keys with
  | [] => (dirs, inr tt)
  | key :: keys' =>
      if bool_decide (key ∈ dirs) then make_missing mkdir_fails keys' dirs
      else if mkdir_fails key then (dirs, inl (OSError (key, "")))
      else make_missing mkdir_fails keys' ({[ key ]} ∪ dirs)
  end.

(** [ensure_dirs(base_dir)]; the [paths] dictionary is the fixed layout of
    the three trees, so the result is the flag. *)
Definition ensure_dirs (mkdir_fails : tier → bool) (dirs : gset tier)
  : gset tier * (exn + bool) :=
  if bool_decide (full ∈ dirs) then
    match make_missing mkdir_fails [half; quarter] dirs with
    | (dirs', inl e) => (dirs', inl e)
    | (dirs', inr _) => (dirs', inr true)
    end
  else (dirs, inr false).

(** A world for the examples: the clock is the write counter, nothing
    fails, directories are listed in the order of the map and the pool
    returns results in task order. *)
Definition plain_world : world :=
  World Z.of_nat (λ _, false) (λ _ _, false) root_names (λ ts, ts).

(** A world for the examples in which some writes and renames fail. *)
Definition faulty_world (bad_save : path → bool)
    (bad_rename : path → path → bool) : world :=
  World Z.of_nat bad_save bad_rename root_names (λ ts, ts).

(** Two sources with the same stem. *)
Definition same_stem_root : gmap path file :=
  list_to_map
    [((full, "a.jpg"), File 1 (Encoded Foreign (Picture 1 8 6)));
     ((full, "a.png"), File 2 (Encoded Foreign (Picture 2 4 4)))].

(** A file that is not an image under an image name, and a manifest that
    does not parse. *)
Definition broken_root : gmap path file :=
  list_to_map
    [((full, "notes.png"), File 1 Noise);
     ((full, "manifest.json"), File 2 Noise)].

(** ** Predicates on names and roots *)

(** The stem of the name is a number, so the renumbering pass takes the file
    for an occupied slot. *)
Definition numeric (f : string) : bool := Str.isdigit (Str.splitext f).1.

(** ** Example states *)

(** A task whose source is missing. *)
Definition missing_task : task := Task (full, "gone.png") "gone.png" false.

(** A source next to a full tier that is newer than it, with the half and
    quarter tiers newer still. *)
Definition cached_root : gmap path file :=
  list_to_map
    [((full, "photo.png"), File 1 (Encoded Foreign (Picture 1 8 6)));
     ((full, "photo.webp"), File 5 (Encoded WebpLossless (Picture 1 8 6)));
     ((half, "photo.webp"),
      File 6 (Encoded (WebpLossy 85) (half_image (Picture 1 8 6))));
     ((quarter, "photo.webp"),
      File 7 (Encoded (WebpLossy 80) (half_image (half_image (Picture 1 8 6)))))].

Definition photo_task : task := Task (full, "photo.png") "photo.png" false.

(** ** What a rename set does to the three trees *)

(** [os.rename] of [src] to [dst] inside the tree [d], when [src] is there. *)
Definition move (d : tier) (src dst : string) (fs : gmap path file)
  : gmap path file :=
  match fs !! (d, src) with
  | Some f => <[(d, dst) := f]> (delete (d, src) fs)
  | None => fs
  end.

Definition renamed (fs : gmap path file) (src dst : string)
  : gmap path file :=
  move quarter src dst (move half src dst (move full src dst fs)).

(** A root with [2.webp] only, and a manifest that still has an entry for
    [1.webp], whose files were deleted by hand. *)
Definition stale_key_root : gmap path file :=
  list_to_map
    [((full, "2.webp"), File 1 (Encoded WebpLossless (Picture 2 8 6)));
     ((half, "2.webp"),
      File 2 (Encoded (WebpLossy 85) (half_image (Picture 2 8 6))));
     ((quarter, "2.webp"),
      File 3 (Encoded (WebpLossy 80) (half_image (half_image (Picture 2 8 6)))))].

Definition stale_key_manifest : gmap string string :=
  list_to_map [("1.webp", "a.png"); ("2.webp", "b.png")].

(** Slots 3 and 9 with their three tiers, and the manifest for them. *)
Definition gap_root : gmap path file :=
  list_to_map
    [((full, "3.webp"), File 1 (Encoded WebpLossless (Picture 3 8 6)));
     ((half, "3.webp"),
      File 2 (Encoded (WebpLossy 85) (half_image (Picture 3 8 6))));
     ((quarter, "3.webp"),
      File 3 (Encoded (WebpLossy 80) (half_image (half_image (Picture 3 8 6)))));
     ((full, "9.webp"), File 4 (Encoded WebpLossless (Picture 9 8 6)));
     ((half, "9.webp"),
      File 5 (Encoded (WebpLossy 85) (half_image (Picture 9 8 6))));
     ((quarter, "9.webp"),
      File 6 (Encoded (WebpLossy 80) (half_image (half_image (Picture 9 8 6)))))].

Definition gap_manifest : gmap string string :=
  list_to_map [("3.webp", "a.png"); ("9.webp", "b.png")].

(** ** Kinds of events *)

(** The calls that only look at the file system. *)
Definition read_event (e : event) : Prop :=
  match e with
  | EvStat _ | EvList _ | EvOpen _ => True
  | _ => False
  end.

(** A write to one of the three trees: a saved image or a rename. *)
Definition tier_write (e : event) : bool :=
  match e with
  | EvSave _ | EvRename _ _ => true
  | _ => false
  end.

(** A read, or a rename between two names that end in [.webp]. *)
Definition webp_only_event (e : event) : Prop :=
  match e with
  | EvRename s t => is_webp s.2 = true ∧ is_webp t.2 = true
  | EvSave _ | EvDump _ => False
  | _ => True
  end.

(** From [st] to [st'] only reads and renames between [.webp] names were
    issued, and every file whose name does not end in [.webp] is where and
    what it was, in each of the three trees. *)
Definition untouched (st st' : state) : Prop :=
  (∃ tr', trace st' = trace st ++ tr' ∧ Forall webp_only_event tr')
  ∧ ∀ d n, is_webp n = false → files st' !! (d, n) = files st !! (d, n).

(** What the classification loop may hold: names of the listing that end in
    [.webp]; a slot number only for a name whose stem reads as that number. *)
Definition classified_from (listing : list string)
    (r : gmap Z string * list string) : Prop :=
  (∀ k f, r.1 !! k = Some f →
          f ∈ listing ∧ is_webp f = true
          ∧ Str.int (Str.splitext f).1 = Some k)
  ∧ Forall (λ f, f ∈ listing ∧ is_webp f = true) r.2.

(** A root with sources, the two JSON files and one converted image. *)
Definition mixed_root : gmap path file :=
  list_to_map
    [((full, "5.png"), File 1 (Encoded Foreign (Picture 5 8 6)));
     ((full, "config.json"), File 2 (Config 0 2));
     ((full, "manifest.json"), File 3 (Manifest ∅));
     ((full, "a.webp"), File 4 (Encoded WebpLossless (Picture 1 8 6)))].

(** ** Roots on which a run is analysed *)

(** Some pattern of the discovery step matches the name. *)
Definition glob_hit (n : string) : bool :=
  existsb (λ e, glob_match e n || glob_match (Str.upper e) n) exts.

(** The manifest that [load_manifest] finds. *)
Definition stored_manifest (fs : gmap path file) : gmap string string :=
  match fs !! (full, MANIFEST_FILENAME) with
  | Some (File _ (Manifest m)) => m
  | _ => ∅
  end.

(** The count that [update_config_and_manifest] left in [config.json]. *)
Definition stored_total (fs : gmap path file) : option Z :=
  match fs !! (full, CONFIG_FILENAME) with
  | Some (File _ (Config n _)) => Some n
  | _ => None
  end.

(** The asset [n] has its three files. *)
Definition present3 (fs : gmap path file) (n : string) : bool :=
  match fs !! (full, n), fs !! (half, n), fs !! (quarter, n) with
  | Some _, Some _, Some _ => true
  | _, _, _ => false
  end.

(** The asset [n] has its three files and no tier is older than its
    upstream: the worker finds nothing to do for it. *)
Definition settled_at (fs : gmap path file) (n : string) : bool :=
  match fs !! (full, n), fs !! (half, n), fs !! (quarter, n) with
  | Some f, Some h, Some q => (mtime f <=? mtime h) && (mtime h <=? mtime q)
  | _, _, _ => false
  end.

Definition slot_names (K : Z) : list string := slot_name <$> seqZ 1 K.

Definition decodable (f : file) : bool :=
  match body f with
  | Encoded _ _ => true
  | _ => false
  end.

(** A root entry that neither phase looks at: its name does not end in
    [.webp], and if discovery matches it, it is a source that the manifest
    already knows. *)
Definition passive (m : gmap string string) (n : string) : bool :=
  negb (is_webp n)
  && (negb (glob_hit n) || bool_decide (n ∈ known m)).

(** A new source: discovered, not yet a manifest value, decodable, its
    target name not numeric and without half or quarter file; if its own
    name ends in [.webp] in whatever case, it is its own target. *)
Definition new_ok (fs : gmap path file) (m : gmap string string)
    (n : string) : bool :=
  match fs !! (full, n) with
  | Some f =>
      decodable f && glob_hit n
      && bool_decide (n ∉ known m)
      && negb (numeric (final_name_of n))
      && (negb (is_webp n) || bool_decide (final_name_of n = n))
      && bool_decide (fs !! (half, final_name_of n) = None)
      && bool_decide (fs !! (quarter, final_name_of n) = None)
  | None => false
  end.

(** A source that already is its own full tier is not dated after [now]. *)
Definition timely (now : Z) (fs : gmap path file) (n : string) : bool :=
  match fs !! (full, n) with
  | Some f => negb (is_webp n) || (mtime f <=? now)
  | None => true
  end.

(** A root made of [K] settled slots [1..K], the new sources [news] with
    pairwise distinct targets, and passive entries; every key of the stored
    manifest is one of the [K] slots. *)
Record ready (fs : gmap path file) (K : Z) (news : list string) : Prop := {
  ready_K : 0 ≤ K;
  ready_slots : Forall (λ k, settled_at fs (slot_name k) = true) (seqZ 1 K);
  ready_news : Forall (λ n, new_ok fs (stored_manifest fs) n = true) news;
  ready_targets : NoDup (final_name_of <$> news);
  ready_root :
    Forall (λ n, n ∈ news ∨ n ∈ slot_names K
                 ∨ passive (stored_manifest fs) n = true) (root_names fs);
  ready_keys :
    map_Forall (λ key _, key ∈ slot_names K) (stored_manifest fs)
}.

(** Every slot is a key of the manifest or one of its values, so a run
    records nothing for it. *)
Definition tracked (m : gmap string string) (K : Z) : Prop :=
  Forall (λ k, is_Some (m !! slot_name k) ∨ slot_name k ∈ known m)
         (seqZ 1 K).

(** The events of [st'] that [st] does not have yet. *)
Definition new_events (st st' : state) : list event :=
  drop (length (trace st)) (trace st').

(** ** The phases of a run, as states *)

(** No event of the list writes to one of the three trees. *)
Definition quiet (evs : list event) : Prop :=
  Forall (λ e, tier_write e = false) evs.

(** The write counter and the trees after the worker has run on a new
    source that decodes to [i]: the full tier is written unless the source
    is the full tier, then the half and the quarter tier. *)
Definition converted_ticks (tk : nat) (src : path) (final : string) : nat :=
  if decide (src = (full, final)) then tk else S tk.

Definition converted (w : world) (fs : gmap path file) (tk : nat)
    (src : path) (final : string) (i : image) : gmap path file :=
  <[(quarter, final) :=
      File (clock w (S (converted_ticks tk src final)))
           (Encoded (WebpLossy 80) (half_image (half_image i)))]>
    (<[(half, final) :=
         File (clock w (converted_ticks tk src final))
              (Encoded (WebpLossy 85) (half_image i))]>
       (if decide (src = (full, final)) then fs
        else <[(full, final) := File (clock w tk) (Encoded WebpLossless i)]> fs)).

(** The three files of [n] are there; with [timed] set, their timestamps
    are in order as well. *)
Definition good (timed : bool) (fs : gmap path file) (n : string) : bool :=
  if timed then settled_at fs n else present3 fs n.

(** The task that [process_directory] builds for the root entry [n]. *)
Definition task_of (n : string) : task := Task (full, n) n false.

(** What holds between two tasks of the pool, for a run that started on the
    ready root [fs0] at write counter [tk0]; [rest] are the names of the
    tasks still to run. *)
Record pool_inv (timed : bool) (fs0 : gmap path file) (tk0 : nat) (K : Z)
    (news rest : list string) (fs : gmap path file) (tk : nat)
    (m : gmap string string) : Prop := {
  pi_ticks : (tk0 ≤ tk)%nat;
  pi_slots : ∀ k d, 1 ≤ k ≤ K → fs !! (d, slot_name k) = fs0 !! (d, slot_name k);
  pi_pending : ∀ n, n ∈ news → n ∈ rest →
    fs !! (full, n) = fs0 !! (full, n)
    ∧ fs !! (half, final_name_of n) = None
    ∧ fs !! (quarter, final_name_of n) = None;
  pi_done : ∀ n, n ∈ news → n ∉ rest →
    good timed fs (final_name_of n) = true ∧ m !! final_name_of n = Some n;
  pi_root : ∀ x, is_Some (fs !! (full, x)) ↔
    is_Some (fs0 !! (full, x))
    ∨ ∃ n, n ∈ news ∧ (n ∉ rest) ∧ x = final_name_of n;
  pi_sub : stored_manifest fs0 ⊆ m;
  pi_keys : ∀ key, is_Some (m !! key) →
    key ∈ slot_names K
    ∨ ∃ n, n ∈ news ∧ (n ∉ rest) ∧ key = final_name_of n;
  pi_tracked : ∀ k, 1 ≤ k ≤ K → slot_name k ∉ rest →
    is_Some (m !! slot_name k) ∨ slot_name k ∈ known (stored_manifest fs0)
}.

(** What the renaming step leaves behind, before the two JSON files are
    written: the [.webp] names of the root are the slots [1..T], each with
    its three files; the manifest [m2] has slot keys only, tracks every
    slot and has lost no value of the manifest [m0] the run started with;
    every other root entry is passive. *)
Record run_post (timed : bool) (fs2 : gmap path file)
    (m0 m2 : gmap string string) (news : list string) (T : Z) : Prop := {
  rp_names : ∀ x, is_Some (fs2 !! (full, x)) ∧ is_webp x = true
                  ↔ x ∈ slot_names T;
  rp_good : ∀ k, 1 ≤ k ≤ T → good timed fs2 (slot_name k) = true;
  rp_keys : ∀ key, is_Some (m2 !! key) → key ∈ slot_names T;
  rp_tracked : tracked m2 T;
  rp_known : ∀ v, v ∈ known m0 → v ∈ known m2;
  rp_root : ∀ x, is_Some (fs2 !! (full, x)) →
                 x ∈ slot_names T ∨ passive m2 x = true
}.

(** The root after [update_config_and_manifest]. *)
Definition wrote_json (w : world) (tk : nat) (total : Z)
    (m : gmap string string) (fs : gmap path file) : gmap path file :=
  <[(full, MANIFEST_FILENAME) := File (clock w (S tk)) (Manifest m)]>
    (<[(full, CONFIG_FILENAME) :=
         File (clock w tk) (Config total (clock w tk))]> fs).

(** One source whose extension is [.WEBP], in upper case. *)
Definition upper_root : gmap path file :=
  {[ (full, "x.WEBP") := File 1 (Encoded Foreign (Picture 1 8 6)) ]}.

(** Two new sources, one of them already a [.webp] file, and a text file. *)
Definition two_sources : gmap path file :=
  list_to_map
    [((full, "a.png"), File 1 (Encoded Foreign (Picture 1 8 6)));
     ((full, "b.webp"), File 0 (Encoded Foreign (Picture 2 9 5)));
     ((full, "notes.txt"), File 2 Noise)].

(** ** Relations between the state before and after a computation *)

(** Every run of [c] takes a state to one that is [R]-related to it. *)
Definition respects (R : relation state) {A} (c : M A) : Prop :=
  ∀ st, R st (c st).1.

(** What a computation guarantees about the value it returns. *)
Definition ensures {A} (Q : A → Prop) (c : M A) : Prop :=
  ∀ st, match (c st).2 with inr a => Q a | inl _ => True end.

(** The trace only grows, and the file at [q] stays as it is. *)
Definition keeps (q : path) (st st' : state) : Prop :=
  trace st `prefix_of` trace st' ∧ files st' !! q = files st !! q.

(** ** What the worker may do *)

(** What the worker may do for the target [final]: look at files, and save
    one of the three files named [final]. *)
Definition worker_event (final : string) (e : event) : Prop :=
  match e with
  | EvSave p => p.2 = final
  | EvRename _ _ | EvDump _ => False
  | _ => True
  end.

(** From [st] to [st'] only such events were issued, every file with another
    name is what it was, and no file has gone. *)
Definition worker_effect (final : string) (st st' : state) : Prop :=
  (∃ tr', trace st' = trace st ++ tr' ∧ Forall (worker_event final) tr')
  ∧ (∀ d n, n ≠ final → files st' !! (d, n) = files st !! (d, n))
  ∧ (∀ p, is_Some (files st !! p) → is_Some (files st' !! p)).

(** ** Discovery patterns *)

(** The patterns of the discovery step: the four extensions and their
    upper-case forms. *)
Definition patterns : list string :=
  flat_map (λ e, [e; Str.upper e]) exts.

(** ** Filling gaps, as a rearrangement of numbers *)

(** The state of the gap-filling loop, for slots that lie in [1..M]:
    [lo] are the slots not yet looked at, in ascending order, [dn] the gaps
    already filled, [gs] the gaps still open, in ascending order, and [rm]
    the slots that were moved away. *)
Record compacting (M : Z) (lo dn gs rm : list Z) : Prop := {
  cp_cover : ∀ y, 1 ≤ y ≤ M → y ∈ lo ∨ y ∈ dn ∨ y ∈ gs ∨ y ∈ rm;
  cp_range : ∀ y, y ∈ lo ++ dn ++ gs → 1 ≤ y ≤ M;
  cp_nodup : NoDup (lo ++ dn ++ gs);
  cp_lo : StronglySorted Z.le lo;
  cp_gs : StronglySorted Z.le gs;
  cp_lo_rm : ∀ x y, x ∈ lo → y ∈ rm → x ≤ y;
  cp_dn_rm : ∀ x y, x ∈ dn → y ∈ rm → x ≤ y;
  cp_dn_gs : ∀ x y, x ∈ dn → y ∈ gs → x ≤ y
}.

(** The names of the root that end in [.webp] are those that satisfy [P];
    with [tiers] set, each of them has its half and quarter file as well. *)
Definition webp_names (tiers : bool) (fs : gmap path file)
    (P : string → Prop) : Prop :=
  (∀ x, is_Some (fs !! (full, x)) ∧ is_webp x = true ↔ P x)
  ∧ (tiers = true → ∀ x, P x → present3 fs x = true).

(** The slot names of the numbers in [X], and the names in [others]. *)
Definition slots_and (X : list Z) (others : list string) (x : string) : Prop :=
  (∃ k, k ∈ X ∧ x = slot_name k) ∨ x ∈ others.

(** The manifest [m] over the root [fs] is the manifest [m0] over the root
    [fs0], carried along with the files: every key names a [.webp] file of
    the root, every [.webp] file of the root is a file of [fs0] and has the
    entry that file had, and the entries are as many and have the same
    values. *)
Record carried (fs0 : gmap path file) (m0 : gmap string string)
    (fs : gmap path file) (m : gmap string string) : Prop := {
  ca_keys : ∀ key, is_Some (m !! key) →
                   is_Some (fs !! (full, key)) ∧ is_webp key = true;
  ca_from : ∀ y, is_Some (fs !! (full, y)) → is_webp y = true →
                 ∃ x, fs !! (full, y) = fs0 !! (full, x) ∧ m !! y = m0 !! x;
  ca_size : size m = size m0;
  ca_known : known m = known m0
}.

(** ** The content of [manifest.json] *)

(** Content that is not JSON: [json.load] raises on it. *)
Definition unparsable (b : payload) : bool :=
  match b with
  | Noise | Encoded _ _ => true
  | Manifest _ | Config _ _ => false
  end.

(** [manifest.json] is missing, or holds a manifest, or is not JSON. *)
Definition manifest_file_ok (fs : gmap path file) : Prop :=
  ∀ f, fs !! (full, MANIFEST_FILENAME) = Some f →
       unparsable (body f) = true ∨ ∃ m, body f = Manifest m.

(** * Properties *)

(** ** Running the primitives symbolically *)

Section Exec.
Context (w : world).
Implicit Types (st : state) (p : path) (fs : gmap path file).

Lemma bind_assoc {A B C} (c : M A) (f : A → M B) (k : B → M C) st :
  bind (bind c f) k st = bind c (λ x, bind (f x) k) st.
Proof. unfold bind. destruct (c st) as [st' [e|a]]; reflexivity. Qed.

Lemma bind_ret {A B} (a : A) (k : A → M B) st : bind (ret a) k st = k a st.
Proof. reflexivity. Qed.

Lemma bind_exists_true {B} p (k : bool → M B) fs tk tr :
  is_Some (fs !! p) →
  bind (path_exists p) k (State fs tk tr)
  = k true (State fs tk (tr ++ [EvStat p])).
Proof.
  intros H. unfold path_exists, bind, log; simpl.
  by rewrite bool_decide_eq_true_2.
Qed.

Lemma bind_exists_false {B} p (k : bool → M B) fs tk tr :
  fs !! p = None →
  bind (path_exists p) k (State fs tk tr)
  = k false (State fs tk (tr ++ [EvStat p])).
Proof.
  intros H. unfold path_exists, bind, log; simpl.
  rewrite bool_decide_eq_false_2; [done|]. rewrite H. by intros [? ?].
Qed.

Lemma bind_getmtime {B} p (k : Z → M B) fs tk tr f :
  fs !! p = Some f →
  bind (getmtime p) k (State fs tk tr)
  = k (mtime f) (State fs tk (tr ++ [EvStat p])).
Proof. intros H. unfold getmtime, bind, log; simpl. by rewrite H. Qed.

Lemma bind_getmtime_missing {B} p (k : Z → M B) fs tk tr :
  fs !! p = None →
  bind (getmtime p) k (State fs tk tr)
  = (State fs tk (tr ++ [EvStat p]), inl (FileNotFoundError p)).
Proof. intros H. unfold getmtime, bind, log; simpl. by rewrite H. Qed.

Lemma bind_image_open {B} p (k : image → M B) fs tk tr t c i :
  fs !! p = Some (File t (Encoded c i)) →
  bind (image_open p) k (State fs tk tr)
  = k i (State fs tk (tr ++ [EvOpen p])).
Proof. intros H. unfold image_open, bind, log; simpl. by rewrite H. Qed.

Lemma bind_image_save {B} i p c (k : unit → M B) fs tk tr :
  save_fails w p = false →
  bind (image_save w i p c) k (State fs tk tr)
  = k tt (State (<[p := File (clock w tk) (Encoded c i)]> fs) (S tk)
                (tr ++ [EvSave p])).
Proof. intros H. unfold image_save, write_file, bind; simpl. by rewrite H. Qed.

Lemma run_image_save i p c fs tk tr :
  save_fails w p = false →
  image_save w i p c (State fs tk tr)
  = (State (<[p := File (clock w tk) (Encoded c i)]> fs) (S tk)
           (tr ++ [EvSave p]), inr tt).
Proof. intros H. unfold image_save, write_file; simpl. by rewrite H. Qed.

Lemma bind_rename {B} s t (k : unit → M B) fs tk tr f :
  fs !! s = Some f → rename_fails w s t = false →
  bind (os_rename w s t) k (State fs tk tr)
  = k tt (State (<[t := f]> (delete s fs)) tk (tr ++ [EvRename s t])).
Proof. intros H1 H2. unfold os_rename, bind; simpl. by rewrite H1, H2. Qed.

End Exec.

Ltac lookup_tac :=
  first [ eassumption | by simplify_map_eq | by (simplify_map_eq; eauto) ].

Ltac map_lookup :=
  repeat first
    [ rewrite lookup_insert_eq
    | rewrite lookup_insert_ne by congruence
    | rewrite lookup_delete_eq
    | rewrite lookup_delete_ne by congruence ].

Ltac io_step :=
  first
    [ rewrite bind_assoc
    | rewrite bind_ret
    | rewrite bind_exists_true by lookup_tac
    | rewrite bind_exists_false by lookup_tac
    | erewrite bind_getmtime by lookup_tac
    | erewrite bind_image_open by lookup_tac
    | rewrite bind_image_save by done
    | rewrite run_image_save by done
    | erewrite bind_rename by (first [lookup_tac | done]) ];
  cbn [mtime body negb orb andb].

(** ** Arithmetic of the two halvings *)

Lemma halved_twice W H :
  1 ≤ W → 1 ≤ H →
  halved (halved (W, H)) = (Z.max 1 (W `div` 4), Z.max 1 (H `div` 4)).
Proof.
  intros HW HH. unfold halved; simpl.
  assert (E : ∀ x, 1 ≤ x →
            Z.max 1 (Z.max 1 (x `div` 2) `div` 2) = Z.max 1 (x `div` 4)).
  { intros x Hx. replace 4 with (2 * 2) by lia.
    rewrite <- Z.div_div by lia.
    assert (0 ≤ x `div` 2) by (apply Z.div_pos; lia).
    destruct (Z.max_spec 1 (x `div` 2)) as [[? ->]|[? ->]]; [done|].
    rewrite (Z.div_small (x `div` 2) 2) by lia. reflexivity. }
  by rewrite !E.
Qed.

(** ** The conversion worker *)

Section Worker.
Context (w : world).
Implicit Types (fs : gmap path file).

(** The verdict of the staleness test, for an upstream that exists:
    regenerate unless the target is there and [upstream <= target]. *)
Lemma needs_update_spec up tg fs tk tr f :
  fs !! up = Some f →
  ∃ tr', needs_update up tg (State fs tk tr)
         = (State fs tk (tr ++ tr'),
            inr (match fs !! tg with
                 | Some g => negb (mtime f <=? mtime g)
                 | None => true
                 end)).
Proof.
  intros Hup. unfold needs_update.
  destruct (fs !! tg) as [g|] eqn:Htg.
  - repeat io_step. rewrite <- !app_assoc. eexists. reflexivity.
  - repeat io_step. eexists. reflexivity.
Qed.

(** Both derived tiers missing: the worker writes the full tier unless the
    source already is the full tier, then the half tier from the full one
    and the quarter tier from the half one. *)
Lemma convert_steps_new fs tk tr src final t0 c i :
  fs !! src = Some (File t0 (Encoded c i)) →
  fs !! (half, final) = None →
  fs !! (quarter, final) = None →
  (∀ p, save_fails w p = false) →
  let fs1 := if decide (src = (full, final)) then fs
             else <[(full, final) := File (clock w tk) (Encoded WebpLossless i)]> fs in
  let tk1 := if decide (src = (full, final)) then tk else S tk in
  ∃ tr', convert_steps w src final (State fs tk tr) =
    (State (<[(quarter, final) :=
                File (clock w (S tk1))
                     (Encoded (WebpLossy 80) (half_image (half_image i)))]>
             (<[(half, final) :=
                  File (clock w tk1) (Encoded (WebpLossy 85) (half_image i))]>
                fs1))
           (S (S tk1)) tr', inr tt).
Proof.
  intros Hs Hh Hq Hsave fs1 tk1. subst fs1 tk1.
  unfold convert_steps, write_full, write_half, write_quarter, needs_update,
    path_eqb.
  destruct (decide (src = (full, final))) as [->|Hne].
  - rewrite (bool_decide_eq_true_2 _ eq_refl).
    repeat io_step. rewrite Z.leb_refl. cbn [negb orb]. repeat io_step.
    eexists. reflexivity.
  - rewrite (bool_decide_eq_false_2 _ Hne).
    assert (src ≠ (half, final)) by congruence.
    assert (src ≠ (quarter, final)) by congruence.
    destruct (fs !! (full, final)) as [f|] eqn:Hf.
    + repeat io_step. rewrite orb_true_r. repeat io_step.
      eexists. reflexivity.
    + repeat io_step. eexists. reflexivity.
Qed.

End Worker.

(** ** Claims about the worker *)

(** C10. With the dry-run flag set the worker returns
    [(final_name, filename)] for every task and every state, and leaves the
    state, trace included, as it was: no file is read or written. In
    particular it reports success for a source that does not exist, where the
    same task without the flag ends in the failure result. *)
Theorem dry_run_reports_success (w : world) (src : path) (fn : string) :
  (∀ st, convert_and_resize w (Task src fn true) st
         = (st, inr (Some (final_name_of fn, fn))))
  ∧ (∀ fs tk tr,
       (convert_and_resize w (Task src fn true)
          (State (delete src fs) tk tr)).2 = inr (Some (final_name_of fn, fn))
       ∧ (convert_and_resize w (Task src fn false)
            (State (delete src fs) tk tr)).2 = inr None).
Proof.
  split; [reflexivity|]. intros fs tk tr. split; [reflexivity|].
  unfold convert_and_resize, try_with, convert_body, convert_steps, write_full.
  cbn [is_dry_run src_full_path filename].
  rewrite !bind_assoc, bind_getmtime_missing by apply lookup_delete_eq.
  reflexivity.
Qed.

(** C8. The worker is total and never ends in an exception; when the body of
    its [try] raises, the result is the failure value [None], folding that
    result leaves the manifest as it was, and the pool goes on with the
    remaining tasks and the same manifest. *)
Theorem worker_failure_is_contained (w : world) (t : task) (st : state) :
  (∃ st' r, convert_and_resize w t st = (st', inr r))
  ∧ (∀ st' e, convert_body w t st = (st', inl e) →
       convert_and_resize w t st = (st', inr None)
       ∧ ∀ manifest ts,
           record manifest None = manifest
           ∧ run_pool w (t :: ts) manifest st = run_pool w ts manifest st').
Proof.
  split.
  - unfold convert_and_resize, try_with, bind.
    destruct (convert_body w t st) as [st' [e|r]]; eauto.
  - intros st' e He.
    assert (Hc : convert_and_resize w t st = (st', inr None)).
    { unfold convert_and_resize, try_with, bind. by rewrite He. }
    split; [done|]. intros manifest ts. split; [done|].
    cbn [run_pool]. unfold bind at 1. by rewrite Hc.
Qed.

Lemma worker_failure_is_contained_witness :
  convert_body plain_world missing_task (State ∅ 0 [])
    = (State ∅ 0 [EvStat (full, "gone.png")],
       inl (FileNotFoundError (full, "gone.png")))
  ∧ convert_and_resize plain_world missing_task (State ∅ 0 [])
    = (State ∅ 0 [EvStat (full, "gone.png")], inr None).
Proof.
  split; [reflexivity|].
  exact (proj1 (proj2 (worker_failure_is_contained plain_world missing_task
                         (State ∅ 0 [])) _ _ eq_refl)).
Defined.

(** C6. A source that decodes to a [W]x[H] image, with the half and quarter
    tiers missing: the worker succeeds, the full tier holds that image, the
    half tier is its resampling to [(max(1,W//2), max(1,H//2))], and the
    quarter tier is the resampling of the half-tier image (not of the full
    one) and measures [(max(1,W//4), max(1,H//4))]. *)
Theorem chained_tier_dimensions (w : world) fs tk tr src fn t0 c i W H :
  let final := final_name_of fn in
  img_size i = (W, H) → 1 ≤ W → 1 ≤ H →
  fs !! src = Some (File t0 (Encoded c i)) →
  fs !! (half, final) = None →
  fs !! (quarter, final) = None →
  (∀ p, save_fails w p = false) →
  ∃ st' tf th tq cf,
    convert_and_resize w (Task src fn false) (State fs tk tr)
      = (st', inr (Some (final, fn)))
    ∧ files st' !! (full, final) = Some (File tf (Encoded cf i))
    ∧ files st' !! (half, final)
      = Some (File th (Encoded (WebpLossy 85) (half_image i)))
    ∧ files st' !! (quarter, final)
      = Some (File tq (Encoded (WebpLossy 80) (half_image (half_image i))))
    ∧ img_size (half_image i) = (Z.max 1 (W `div` 2), Z.max 1 (H `div` 2))
    ∧ img_size (half_image (half_image i))
      = (Z.max 1 (W `div` 4), Z.max 1 (H `div` 4)).
Proof.
  intros final Hsz HW HH Hs Hh Hq Hsave.
  destruct (convert_steps_new w fs tk tr src final t0 c i Hs Hh Hq Hsave)
    as [tr' Hrun].
  unfold convert_and_resize, try_with, convert_body.
  cbn [is_dry_run src_full_path filename]. fold final.
  rewrite !bind_assoc. unfold bind at 1. rewrite Hrun.
  destruct (decide (src = (full, final))) as [->|Hne].
  - do 5 eexists. split; [reflexivity|]. cbn [files].
    split; [by simplify_map_eq|]. split; [by simplify_map_eq|].
    split; [by simplify_map_eq|]. split.
    + unfold half_image; cbn [img_size]. by rewrite Hsz.
    + unfold half_image at 1; cbn [img_size]. unfold half_image; cbn [img_size].
      rewrite Hsz. by apply halved_twice.
  - do 5 eexists. split; [reflexivity|]. cbn [files].
    split; [by simplify_map_eq|]. split; [by simplify_map_eq|].
    split; [by simplify_map_eq|]. split.
    + unfold half_image; cbn [img_size]. by rewrite Hsz.
    + unfold half_image at 1; cbn [img_size]. unfold half_image; cbn [img_size].
      rewrite Hsz. by apply halved_twice.
Qed.

Lemma chained_tier_dimensions_witness :
  ∃ st' tf th tq cf,
    convert_and_resize plain_world (Task (full, "photo.png") "photo.png" false)
      (State {[ (full, "photo.png") := File 3 (Encoded Foreign (Picture 1 9 5)) ]} 0 [])
      = (st', inr (Some ("photo.webp", "photo.png")))
    ∧ files st' !! (full, "photo.webp")
      = Some (File tf (Encoded cf (Picture 1 9 5)))
    ∧ files st' !! (half, "photo.webp")
      = Some (File th (Encoded (WebpLossy 85) (half_image (Picture 1 9 5))))
    ∧ files st' !! (quarter, "photo.webp")
      = Some (File tq (Encoded (WebpLossy 80)
                         (half_image (half_image (Picture 1 9 5)))))
    ∧ img_size (half_image (Picture 1 9 5)) = (4, 2)
    ∧ img_size (half_image (half_image (Picture 1 9 5))) = (2, 1).
Proof.
  apply (chained_tier_dimensions plain_world _ 0%nat [] (full, "photo.png")
           "photo.png" 3 Foreign (Picture 1 9 5) 9 5);
    [reflexivity | lia | lia | reflexivity | reflexivity | reflexivity
    | reflexivity].
Defined.

(** ** Relations that every step of a computation keeps *)

Section Respects.
Context (w : world) (R : relation state) `{!PreOrder R}.
Hypothesis R_log :
  ∀ st e, read_event e → R st (State (files st) (ticks st) (trace st ++ [e])).

Lemma respects_ret {A} (a : A) : respects R (ret a).
Proof. intros st. reflexivity. Qed.

Lemma respects_raise {A} e : respects R (@raise A e).
Proof. intros st. reflexivity. Qed.

Lemma respects_bind {A B} (c : M A) (k : A → M B) :
  respects R c → (∀ a, respects R (k a)) → respects R (bind c k).
Proof.
  intros Hc Hk st. unfold bind. specialize (Hc st).
  destruct (c st) as [st' [e|a]]; [done|].
  etrans; [exact Hc|]. apply Hk.
Qed.

Lemma respects_bind_ensures {A B} (Q : A → Prop) (c : M A) (k : A → M B) :
  respects R c → ensures Q c → (∀ a, Q a → respects R (k a)) →
  respects R (bind c k).
Proof.
  intros Hc HQ Hk st. unfold bind. specialize (Hc st). specialize (HQ st).
  destruct (c st) as [st' [e|a]]; [done|].
  etrans; [exact Hc|]. by apply Hk.
Qed.

Lemma respects_try_with {A} (c : M A) (h : exn → M A) :
  respects R c → (∀ e, respects R (h e)) → respects R (try_with c h).
Proof.
  intros Hc Hh st. unfold try_with. specialize (Hc st).
  destruct (c st) as [st' [e|a]]; [|done].
  etrans; [exact Hc|]. apply Hh.
Qed.

Lemma respects_log e : read_event e → respects R (log e).
Proof. intros He st. by apply R_log. Qed.

Lemma respects_pure {A} (f : state → exn + A) : respects R (λ st, (st, f st)).
Proof. intros st. reflexivity. Qed.

Lemma respects_path_exists p : respects R (path_exists p).
Proof.
  apply respects_bind; [by apply respects_log|]. intros _.
  apply (respects_pure (λ st, inr (bool_decide (is_Some (files st !! p))))).
Qed.

Lemma respects_getmtime p : respects R (getmtime p).
Proof.
  apply respects_bind; [by apply respects_log|]. intros _ st.
  destruct (files st !! p); reflexivity.
Qed.

Lemma respects_image_open p : respects R (image_open p).
Proof.
  apply respects_bind; [by apply respects_log|]. intros _ st.
  destruct (files st !! p) as [[? []]|]; reflexivity.
Qed.

Lemma respects_listdir : respects R (listdir w).
Proof.
  apply respects_bind; [by apply respects_log|]. intros _.
  apply (respects_pure (λ st, inr (listdir_order w (files st)))).
Qed.

Lemma respects_needs_update up tg : respects R (needs_update up tg).
Proof.
  apply respects_bind; [apply respects_path_exists|]. intros [].
  - apply respects_bind; [apply respects_getmtime|]. intros a.
    apply respects_bind; [apply respects_getmtime|]. intros b.
    apply respects_ret.
  - apply respects_ret.
Qed.

Lemma respects_write_file ev p b :
  (∀ st f, R st (State (<[p := f]> (files st)) (S (ticks st))
                       (trace st ++ [ev]))) →
  respects R (write_file w ev p b).
Proof.
  intros H st. unfold write_file. destruct (save_fails w p); [reflexivity|].
  apply H.
Qed.

Lemma respects_os_rename s t :
  (∀ st f, R st (State (<[t := f]> (delete s (files st))) (ticks st)
                       (trace st ++ [EvRename s t]))) →
  respects R (os_rename w s t).
Proof.
  intros H st. unfold os_rename. destruct (files st !! s); [|reflexivity].
  destruct (rename_fails w s t); [reflexivity|]. apply H.
Qed.

(** Steps 2 and 3 write to the half and quarter trees only. *)
Lemma respects_write_half final :
  (∀ st f, R st (State (<[(half, final) := f]> (files st)) (S (ticks st))
                       (trace st ++ [EvSave (half, final)]))) →
  respects R (write_half w final).
Proof.
  intros H. apply respects_bind; [apply respects_needs_update|].
  intros []; [|apply respects_ret].
  apply respects_bind; [apply respects_image_open|]. intros img.
  by apply respects_write_file.
Qed.

Lemma respects_write_quarter final :
  (∀ st f, R st (State (<[(quarter, final) := f]> (files st))
                       (S (ticks st)) (trace st ++ [EvSave (quarter, final)]))) →
  respects R (write_quarter w final).
Proof.
  intros H. apply respects_bind; [apply respects_needs_update|].
  intros []; [|apply respects_ret].
  apply respects_bind; [apply respects_path_exists|].
  intros []; [|apply respects_ret].
  apply respects_bind; [apply respects_image_open|]. intros img.
  by apply respects_write_file.
Qed.

(** A rename set touches the two names it is given, in the three trees. *)
Lemma respects_perform_rename_set src dst :
  (∀ d st f, R st (State (<[(d, dst) := f]> (delete (d, src) (files st)))
                         (ticks st)
                         (trace st ++ [EvRename (d, src) (d, dst)]))) →
  respects R (perform_rename_set w src dst).
Proof.
  intros H. apply respects_bind; [apply respects_path_exists|].
  intros []; [apply respects_ret|].
  generalize true. induction [full; half; quarter] as [|d dirs IH];
    intros b; cbn [rename_in_dirs]; [apply respects_ret|].
  apply respects_bind; [apply respects_path_exists|]. intros e.
  apply respects_bind; [|intros b'; apply IH].
  destruct e; [|apply respects_ret]. cbn [DRY_RUN negb].
  apply respects_try_with; [|intros _; apply respects_ret].
  apply respects_bind; [|intros _; apply respects_ret].
  apply respects_os_rename. apply H.
Qed.

End Respects.

Global Instance keeps_preorder q : PreOrder (keeps q).
Proof.
  split.
  - intros st. by split.
  - intros a b c [H1 H2] [H3 H4]. split; [by etrans|congruence].
Qed.

Lemma keeps_log q st e :
  read_event e → keeps q st (State (files st) (ticks st) (trace st ++ [e])).
Proof. intros _. split; [by apply prefix_app_r|done]. Qed.

Lemma keeps_insert q p st f e tk :
  p ≠ q → keeps q st (State (<[p := f]> (files st)) tk (trace st ++ [e])).
Proof.
  intros Hne. split; [by apply prefix_app_r|]. cbn. by rewrite lookup_insert_ne.
Qed.

(** The worker, in terms of its steps. *)
Lemma convert_and_resize_eq (w : world) src fn st :
  convert_and_resize w (Task src fn false) st
  = match convert_steps w src (final_name_of fn) st with
    | (st', inl _) => (st', inr None)
    | (st', inr _) => (st', inr (Some (final_name_of fn, fn)))
    end.
Proof.
  unfold convert_and_resize, try_with, convert_body, bind.
  cbn [is_dry_run src_full_path filename].
  destruct (convert_steps w src (final_name_of fn) st) as [st' [e|[]]];
    reflexivity.
Qed.

(** C5, at the boundary between the source and the full tier: whenever the
    source path differs from the full-tier target and the source decodes,
    step 1 opens the source and writes the full tier, whatever the two
    timestamps are; an existing target that is as new as the source, or
    newer, is regenerated all the same. *)
Theorem full_tier_rewritten_when_paths_differ (w : world)
    fs tk tr src fn t0 c i :
  let final := final_name_of fn in
  src ≠ (full, final) →
  fs !! src = Some (File t0 (Encoded c i)) →
  save_fails w (full, final) = false →
  ∃ st' r (tr' : list event),
    convert_and_resize w (Task src fn false) (State fs tk tr) = (st', inr r)
    ∧ trace st' = (tr ++ tr')%list
    ∧ EvOpen src ∈ tr' ∧ EvSave (full, final) ∈ tr'
    ∧ files st' !! (full, final)
      = Some (File (clock w tk) (Encoded WebpLossless i)).
Proof.
  intros final Hne Hs Hsave.
  pose (rest := (write_half w final;;; write_quarter w final)%io).
  assert (Hrest : respects (keeps (full, final)) rest).
  { subst rest. apply respects_bind; [apply _| |intros _].
    - apply (respects_write_half w _ (keeps_log _)).
      intros. by apply keeps_insert.
    - apply (respects_write_quarter w _ (keeps_log _)).
      intros. by apply keeps_insert. }
  assert (Hfull : ∃ ev, write_full w src final (State fs tk tr)
     = (State (<[(full, final) := File (clock w tk) (Encoded WebpLossless i)]> fs)
              (S tk) (tr ++ ev ++ [EvOpen src; EvSave (full, final)]), inr tt)).
  { unfold write_full, path_eqb. rewrite (bool_decide_eq_false_2 _ Hne).
    destruct (fs !! (full, final)) as [f|] eqn:Hf.
    - repeat io_step. rewrite orb_true_r. repeat io_step.
      exists [EvStat src; EvStat (full, final); EvStat (full, final)].
      by rewrite <- !app_assoc.
    - repeat io_step. exists [EvStat src; EvStat (full, final)].
      by rewrite <- !app_assoc. }
  destruct Hfull as [ev Hfull].
  rewrite convert_and_resize_eq. fold final.
  unfold convert_steps. unfold bind at 1. rewrite Hfull. fold rest.
  match goal with |- context [rest ?s] =>
    pose proof (Hrest s) as [Hpre Hkeep] end.
  destruct (rest _) as [st' [e|[]]] eqn:Hr; cbn [fst] in Hpre, Hkeep.
  - destruct Hpre as [tr' Htr]. cbn [trace files] in *.
    exists st', None, ((ev ++ [EvOpen src; EvSave (full, final)]) ++ tr').
    split; [reflexivity|]. split; [by rewrite Htr, <- !app_assoc|].
    split; [set_solver|]. split; [set_solver|].
    etrans; [exact Hkeep | apply lookup_insert_eq].
  - destruct Hpre as [tr' Htr]. cbn [trace files] in *.
    exists st', (Some (final, fn)),
      ((ev ++ [EvOpen src; EvSave (full, final)]) ++ tr').
    split; [reflexivity|]. split; [by rewrite Htr, <- !app_assoc|].
    split; [set_solver|]. split; [set_solver|].
    etrans; [exact Hkeep | apply lookup_insert_eq].
Qed.

Lemma full_tier_rewritten_when_paths_differ_witness :
  ∃ st' r (tr' : list event),
    convert_and_resize plain_world photo_task (State cached_root 10 [])
      = (st', inr r)
    ∧ trace st' = [] ++ tr'
    ∧ EvOpen (full, "photo.png") ∈ tr' ∧ EvSave (full, "photo.webp") ∈ tr'
    ∧ files st' !! (full, "photo.webp")
      = Some (File 10 (Encoded WebpLossless (Picture 1 8 6))).
Proof.
  apply (full_tier_rewritten_when_paths_differ plain_world cached_root 10%nat
           [] (full, "photo.png") "photo.png" 1 Foreign (Picture 1 8 6));
    [discriminate | reflexivity | reflexivity].
Defined.

(** C2, evaluated: the full tier [photo.webp] exists and is newer (5) than
    the source [photo.png] (1), the two paths differ, and step 1 still opens
    the source and saves the full tier; the new timestamp then makes the half
    and quarter tiers stale, so they are written again as well. *)
Theorem fresh_full_tier_is_rewritten :
  (∃ fsrc fdst,
     cached_root !! (full, "photo.png") = Some fsrc
     ∧ cached_root !! (full, "photo.webp") = Some fdst
     ∧ mtime fsrc ≤ mtime fdst)
  ∧ trace (convert_and_resize plain_world photo_task
             (State cached_root 10 [])).1
    = [EvStat (full, "photo.png"); EvStat (full, "photo.webp");
       EvStat (full, "photo.webp");
       EvOpen (full, "photo.png"); EvSave (full, "photo.webp");
       EvStat (half, "photo.webp"); EvStat (full, "photo.webp");
       EvStat (half, "photo.webp");
       EvOpen (full, "photo.webp"); EvSave (half, "photo.webp");
       EvStat (quarter, "photo.webp"); EvStat (half, "photo.webp");
       EvStat (quarter, "photo.webp"); EvStat (half, "photo.webp");
       EvOpen (half, "photo.webp"); EvSave (quarter, "photo.webp")].
Proof.
  split.
  - do 2 eexists. split; [reflexivity|]. split; [reflexivity|]. cbn. lia.
  - vm_compute. reflexivity.
Qed.

(** ** Directory listings *)

Lemma NoDup_omap {A B} (f : A → option B) (l : list A) :
  (∀ x x' y, f x = Some y → f x' = Some y → x = x') →
  NoDup l → NoDup (omap f l).
Proof.
  intros Hinj. induction 1 as [|x l Hx Hl IH]; cbn; [constructor|].
  destruct (f x) as [y|] eqn:Hfx; [|done].
  constructor; [|done].
  rewrite list_elem_of_omap. intros (x' & Hx' & Hfx').
  by rewrite (Hinj _ _ _ Hfx Hfx') in Hx.
Qed.

Lemma elem_of_root_names fs n :
  n ∈ root_names fs ↔ is_Some (fs !! (full, n)).
Proof.
  unfold root_names. rewrite list_elem_of_omap, <- elem_of_dom. split.
  - intros ([[] x] & Hx & [= ->]). by apply elem_of_elements in Hx.
  - intros H. exists (full, n). by rewrite elem_of_elements.
Qed.

Lemma NoDup_root_names fs : NoDup (root_names fs).
Proof.
  apply NoDup_omap; [|apply NoDup_elements].
  intros [[] x] [[] x'] y; cbn; congruence.
Qed.

(** ** Renaming across the three trees *)

Lemma move_lookup d d' src dst n fs :
  src ≠ dst →
  move d src dst fs !! (d', n)
  = if decide (d' = d) then
      if decide (n = src) then None
      else if decide (n = dst) then
             match fs !! (d, src) with
             | Some f => Some f
             | None => fs !! (d, dst)
             end
           else fs !! (d', n)
    else fs !! (d', n).
Proof.
  intros Hne. unfold move.
  destruct (fs !! (d, src)) as [f|] eqn:Hs;
    repeat case_decide; simplify_eq; map_lookup; done.
Qed.

Lemma renamed_lookup d src dst n fs :
  src ≠ dst →
  renamed fs src dst !! (d, n)
  = if decide (n = src) then None
    else if decide (n = dst) then
           match fs !! (d, src) with
           | Some f => Some f
           | None => fs !! (d, dst)
           end
         else fs !! (d, n).
Proof.
  intros Hne. unfold renamed. rewrite !move_lookup by done.
  destruct d; repeat case_decide; try congruence;
    rewrite ?move_lookup by done; repeat case_decide; congruence.
Qed.

Section Rename.
Context (w : world).
Implicit Types (fs : gmap path file).

Lemma rename_in_dirs_cons d dirs src dst b fs tk tr :
  (∀ s t, rename_fails w s t = false) →
  ∃ tr', rename_in_dirs w (d :: dirs) src dst b (State fs tk tr)
         = rename_in_dirs w dirs src dst b
             (State (move d src dst fs) tk (tr ++ tr')).
Proof.
  intros Hok. cbn [rename_in_dirs]. unfold move.
  destruct (fs !! (d, src)) as [f|] eqn:Hs.
  - rewrite bind_exists_true by eauto. cbn [DRY_RUN negb].
    unfold bind at 1, try_with.
    erewrite bind_rename by eauto. cbn [ret].
    rewrite <- app_assoc. eexists. reflexivity.
  - rewrite bind_exists_false by done. rewrite bind_ret. eauto.
Qed.

(** With no rename failing and the destination free in the root, the set
    is renamed in all three trees and the result is [True]. *)
Lemma perform_rename_set_ok src dst fs tk tr :
  (∀ s t, rename_fails w s t = false) →
  fs !! (full, dst) = None →
  ∃ tr', perform_rename_set w src dst (State fs tk tr)
         = (State (renamed fs src dst) tk (tr ++ tr'), inr true).
Proof.
  intros Hok Hfree. unfold perform_rename_set.
  rewrite bind_exists_false by done.
  destruct (rename_in_dirs_cons full [half; quarter] src dst true fs tk
              (tr ++ [EvStat (full, dst)]) Hok) as [tr1 ->].
  destruct (rename_in_dirs_cons half [quarter] src dst true
              (move full src dst fs) tk
              ((tr ++ [EvStat (full, dst)]) ++ tr1) Hok) as [tr2 ->].
  destruct (rename_in_dirs_cons quarter [] src dst true
              (move half src dst (move full src dst fs)) tk
              (((tr ++ [EvStat (full, dst)]) ++ tr1) ++ tr2) Hok)
    as [tr3 ->].
  cbn [rename_in_dirs]. unfold ret, renamed.
  rewrite <- !app_assoc. eauto.
Qed.

(** An occupied destination blocks the set: nothing is renamed. *)
Lemma perform_rename_set_blocked src dst fs tk tr :
  is_Some (fs !! (full, dst)) →
  perform_rename_set w src dst (State fs tk tr)
  = (State fs tk (tr ++ [EvStat (full, dst)]), inr false).
Proof.
  intros H. unfold perform_rename_set. by rewrite bind_exists_true.
Qed.

(** A reported success means the destination was free in the root. *)
Lemma perform_rename_set_true src dst st st' :
  perform_rename_set w src dst st = (st', inr true) →
  files st !! (full, dst) = None.
Proof.
  unfold perform_rename_set, bind at 1, path_exists, bind, log; cbn.
  destruct (files st !! (full, dst)) eqn:H; [|done].
  rewrite bool_decide_eq_true_2 by eauto. unfold ret. congruence.
Qed.

End Rename.

(** ** The manifest *)

Lemma rekey_absent (m : gmap string string) src dst :
  m !! src = None → rekey m src dst = m.
Proof. intros H. unfold rekey. by rewrite H. Qed.

Lemma rekey_size (m : gmap string string) src dst :
  m !! dst = None → size (rekey m src dst) = size m.
Proof.
  intros Hd. unfold rekey. destruct (m !! src) as [v|] eqn:Hs; [|done].
  assert (src ≠ dst) by congruence.
  rewrite map_size_insert_None by (by rewrite lookup_delete_ne).
  rewrite map_size_delete_Some by eauto.
  assert (size m ≠ 0%nat); [|lia].
  intros H0%map_size_empty_inv. by rewrite H0, lookup_empty in Hs.
Qed.

Lemma rekey_values (m : gmap string string) src dst :
  m !! dst = None →
  (map_to_list (rekey m src dst)).*2 ≡ₚ (map_to_list m).*2.
Proof.
  intros Hd. unfold rekey. destruct (m !! src) as [v|] eqn:Hs; [|done].
  assert (src ≠ dst) by congruence.
  rewrite map_to_list_insert by (by rewrite lookup_delete_ne).
  rewrite <- (map_to_list_delete m src v Hs). done.
Qed.

(** C7. The rekey that follows a rename set reported as successful keeps
    the number of manifest entries, and the values they hold, provided the
    manifest has no stale entry under the destination name, that is, a key
    [dst] of the manifest names a file of the root tier. *)
Theorem rekey_after_success_conserves_entries (w : world) st st'
    (manifest : gmap string string) src dst :
  perform_rename_set w src dst st = (st', inr true) →
  (is_Some (manifest !! dst) → is_Some (files st !! (full, dst))) →
  size (rekey manifest src dst) = size manifest
  ∧ (map_to_list (rekey manifest src dst)).*2 ≡ₚ (map_to_list manifest).*2.
Proof.
  intros Hok Hkey. apply perform_rename_set_true in Hok.
  assert (manifest !! dst = None).
  { destruct (manifest !! dst) eqn:E; [|done].
    destruct Hkey as [f Hf]; [eauto|]. congruence. }
  split; [by apply rekey_size | by apply rekey_values].
Qed.

Lemma rekey_after_success_conserves_entries_witness :
  size (rekey {[ "2.webp" := "b.png" ]} "2.webp" "1.webp")
  = size ({[ "2.webp" := "b.png" ]} : gmap string string)
  ∧ (map_to_list (rekey {[ "2.webp" := "b.png" ]} "2.webp" "1.webp")).*2
    ≡ₚ (map_to_list ({[ "2.webp" := "b.png" ]} : gmap string string)).*2.
Proof.
  apply (rekey_after_success_conserves_entries plain_world
           (State stale_key_root 0 [])
           (perform_rename_set plain_world "2.webp" "1.webp"
              (State stale_key_root 0 [])).1).
  - vm_compute. reflexivity.
  - vm_compute. intros [x Hx]. discriminate Hx.
Defined.

(** C7 as stated fails: [2.webp] is renamed to the free name [1.webp] with
    success, and the rekey overwrites the entry the manifest still had under
    [1.webp]: two entries before, one after. The same happens inside the
    renumbering pass. *)
Lemma rekey_after_success_drops_entry :
  (perform_rename_set plain_world "2.webp" "1.webp"
     (State stale_key_root 0 [])).2 = inr true
  ∧ size stale_key_manifest = 2%nat
  ∧ size (rekey stale_key_manifest "2.webp" "1.webp") = 1%nat
  ∧ (standardize_names_and_fill_gaps plain_world stale_key_manifest
       (State stale_key_root 0 [])).2
    = inr (1, {[ "1.webp" := "b.png" ]}).
Proof. vm_compute. repeat split; reflexivity. Qed.

(** ** Facts about names *)

Module StrFacts.
Import Str.

Lemma endswith_unfold (s suf : string) :
  endswith s suf
  = String.eqb s suf
    || match s with
       | EmptyString => false
       | String _ s' => endswith s' suf
       end.
Proof. by destruct s. Qed.

Lemma endswith_app (a b : string) : endswith (a +:+ b) b = true.
Proof.
  induction a as [|c a IH].
  - rewrite endswith_unfold. change ("" +:+ b) with b.
    by rewrite String.eqb_refl.
  - change (endswith (String c a +:+ b) b)
      with (String.eqb (String c (a +:+ b)) b || endswith (a +:+ b) b).
    rewrite IH. apply orb_true_r.
Qed.

Lemma app_nil (b : string) : "" +:+ b = b.
Proof. reflexivity. Qed.

Lemma app_cons c (a b : string) : String c a +:+ b = String c (a +:+ b).
Proof. reflexivity. Qed.

Lemma lower_app (a b : string) : lower (a +:+ b) = lower a +:+ lower b.
Proof.
  induction a as [|c a IH]; [done|].
  rewrite app_cons. cbn [lower]. by rewrite IH.
Qed.

Lemma rfind_app c (a b : string) :
  rfind c (a +:+ b)
  = match rfind c b with
    | Some i => Some (String.length a + i)%nat
    | None => rfind c a
    end.
Proof.
  induction a as [|x a IH].
  - rewrite app_nil. by destruct (rfind c b).
  - rewrite app_cons. cbn [rfind String.length]. rewrite IH.
    by destruct (rfind c b).
Qed.

Lemma substring_all (b : string) :
  String.substring 0 (String.length b) b = b.
Proof. induction b as [|x b IH]; cbn; [done|]. by rewrite IH. Qed.

Lemma substring_app_l (a b : string) :
  String.substring 0 (String.length a) (a +:+ b) = a.
Proof.
  induction a as [|x a IH]; [by destruct b|].
  rewrite app_cons. cbn. by rewrite IH.
Qed.

Lemma substring_app_r (a b : string) :
  String.substring (String.length a) (String.length b) (a +:+ b) = b.
Proof.
  induction a as [|x a IH]; [apply substring_all|].
  rewrite app_cons. done.
Qed.

Lemma length_app (a b : string) :
  String.length (a +:+ b) = (String.length a + String.length b)%nat.
Proof.
  induction a as [|x a IH]; [done|].
  rewrite app_cons. cbn. by rewrite IH.
Qed.

Lemma digit_not_dot c : is_digit c = true → is_dot c = false.
Proof. destruct c as [[] [] [] [] [] [] [] []]; by vm_compute. Qed.

Lemma digits_no_dot (s : string) :
  all_chars is_digit s = true → rfind "." s = None.
Proof.
  induction s as [|c s IH]; cbn; [done|].
  intros [Hc Hs]%andb_true_iff. rewrite (IH Hs).
  apply digit_not_dot in Hc. unfold is_dot in Hc. by rewrite Hc.
Qed.

(** A stem of digits followed by an extension with a single, leading dot. *)
Lemma splitext_digits (s ext : string) :
  isdigit s = true → rfind "." ext = Some 0%nat →
  splitext (s +:+ ext) = (s, ext).
Proof.
  intros Hs Hext. destruct s as [|c s]; [done|].
  cbn [isdigit] in Hs. unfold splitext.
  rewrite rfind_app, Hext, Nat.add_0_r, substring_app_l.
  cbn [all_chars] in *. apply andb_true_iff in Hs as [Hc _].
  rewrite (digit_not_dot _ Hc). cbn [andb].
  rewrite length_app. replace (_ + _ - _)%nat with (String.length ext) by lia.
  by rewrite substring_app_r.
Qed.

Lemma uint_digits (d : uint) :
  all_chars is_digit (NilEmpty.string_of_uint d) = true.
Proof. induction d; cbn; done. Qed.

Lemma str_isdigit (k : Z) : 0 ≤ k → isdigit (str k) = true.
Proof.
  intros Hk. unfold str, isdigit.
  destruct k as [|p|p]; [done| |lia]. cbn.
  pose proof (DecimalPos.Unsigned.to_uint_nonnil p) as Hnil.
  pose proof (uint_digits (Pos.to_uint p)) as Hd.
  destruct (Pos.to_uint p); cbn in *; done.
Qed.

Lemma int_str (k : Z) : 0 ≤ k → int (str k) = Some k.
Proof.
  intros Hk. unfold str, int. destruct k as [|p|p]; [done| |lia].
  cbn [Z.to_int NilZero.string_of_int].
  rewrite NilZero.usu by apply DecimalPos.Unsigned.to_uint_nonnil.
  cbn. unfold Z.of_uint. by rewrite DecimalPos.Unsigned.of_to.
Qed.

Lemma isdigit_int (s : string) : isdigit s = true → is_Some (int s).
Proof.
  intros Hs. unfold int.
  assert (H : ∀ s, all_chars is_digit s = true →
              is_Some (NilEmpty.uint_of_string s)).
  { clear. induction s as [|c s IH]; cbn; [eauto|].
    intros [Hc Hs]%andb_true_iff. destruct (IH Hs) as [d ->].
    destruct c as [[] [] [] [] [] [] [] []]; try discriminate Hc; cbn; eauto. }
  destruct s as [|c s]; [done|]. cbn [isdigit] in Hs.
  destruct (H _ Hs) as [d Hd]. unfold NilZero.uint_of_string.
  rewrite Hd. cbn. eauto.
Qed.

End StrFacts.

Lemma is_webp_final_name fn : is_webp (final_name_of fn) = true.
Proof.
  unfold is_webp, final_name_of. rewrite StrFacts.lower_app.
  apply StrFacts.endswith_app.
Qed.

Lemma is_webp_slot_name k : is_webp (slot_name k) = true.
Proof.
  unfold is_webp, slot_name. rewrite StrFacts.lower_app.
  apply StrFacts.endswith_app.
Qed.

Lemma splitext_slot_name k :
  0 ≤ k → Str.splitext (slot_name k) = (Str.str k, ".webp").
Proof.
  intros Hk. apply StrFacts.splitext_digits; [|done].
  by apply StrFacts.str_isdigit.
Qed.

Lemma slot_name_inj k k' : 0 ≤ k → 0 ≤ k' → slot_name k = slot_name k' → k = k'.
Proof.
  intros Hk Hk' E.
  assert (E' : Str.str k = Str.str k').
  { pose proof (splitext_slot_name k Hk) as H1.
    pose proof (splitext_slot_name k' Hk') as H2.
    rewrite E in H1. congruence. }
  pose proof (StrFacts.int_str k Hk) as H1.
  pose proof (StrFacts.int_str k' Hk') as H2.
  rewrite E' in H1. congruence.
Qed.

Lemma numeric_slot_name k : 0 ≤ k → numeric (slot_name k) = true.
Proof.
  intros Hk. unfold numeric. rewrite splitext_slot_name by done.
  by apply StrFacts.str_isdigit.
Qed.

(** ** The renumbering pass *)

Lemma bind_listdir (w : world) {B} (k : list string → M B) fs tk tr :
  bind (listdir w) k (State fs tk tr)
  = k (listdir_order w fs) (State fs tk (tr ++ [EvList full])).
Proof. reflexivity. Qed.

Lemma listing_filter (w : world) (P : string → Prop)
    `{!∀ x, Decision (P x)} fs :
  listing_ok w → filter P (listdir_order w fs) ≡ₚ filter P (root_names fs).
Proof. intros Hl. by rewrite (Hl fs). Qed.

Lemma plain_world_listing_ok : listing_ok plain_world.
Proof. intros fs. reflexivity. Qed.

Section Renumber.
Context (w : world).
Implicit Types (m : gmap string string).

Lemma fill_gaps_step gap gaps nums hi m st st' src ok :
  0 ≤ hi → nums !! Z.to_nat hi = Some src → gap ≤ src →
  perform_rename_set w (slot_name src) (slot_name gap) st = (st', inr ok) →
  fill_gaps w (gap :: gaps) nums hi m st
  = fill_gaps w gaps (<[Z.to_nat hi := gap]> nums) (hi - 1)
      (if ok then rekey m (slot_name src) (slot_name gap) else m) st'.
Proof.
  intros Hhi Hsrc Hle Hren. cbn [fill_gaps].
  destruct (Z.ltb_spec hi 0); [lia|]. rewrite Hsrc.
  destruct (Z.ltb_spec src gap); [lia|].
  unfold bind at 1. by rewrite Hren.
Qed.

Lemma fill_gaps_stop gap gaps nums hi m st :
  hi < 0 → fill_gaps w (gap :: gaps) nums hi m st = (st, inr (nums, m)).
Proof.
  intros Hhi. cbn [fill_gaps]. by destruct (Z.ltb_spec hi 0); [|lia].
Qed.

Lemma rename_others_step f others k m st st' ok :
  perform_rename_set w f (slot_name k) st = (st', inr ok) →
  rename_others w (f :: others) k m st
  = rename_others w others (k + 1)
      (if ok then rekey m f (slot_name k) else m) st'.
Proof.
  intros Hren. cbn [rename_others]. unfold bind at 1. by rewrite Hren.
Qed.

End Renumber.

(** C1, as the code has it. The gaps are counted from 1, so with [3.webp]
    and [9.webp] as the only [.webp] files of the root (each with its half
    and quarter file) and no rename failing, the pass moves [9.webp] to
    [1.webp] and [3.webp] to [2.webp] in all three trees, returns 2, and
    rekeys the manifest entry of [9.webp] to [1.webp] and then that of
    [3.webp] to [2.webp]. *)
Theorem three_and_nine_become_one_and_two (w : world) fs tk tr
    (manifest : gmap string string) :
  listing_ok w →
  (∀ s t, rename_fails w s t = false) →
  filter (λ f, is_webp f = true) (root_names fs) ≡ₚ ["3.webp"; "9.webp"] →
  (∀ d, is_Some (fs !! (d, "3.webp")) ∧ is_Some (fs !! (d, "9.webp"))) →
  ∃ st' manifest',
    standardize_names_and_fill_gaps w manifest (State fs tk tr)
      = (st', inr (2, manifest'))
    ∧ manifest' = rekey (rekey manifest "9.webp" "1.webp") "3.webp" "2.webp"
    ∧ (∀ d, files st' !! (d, "1.webp") = fs !! (d, "9.webp")
            ∧ files st' !! (d, "2.webp") = fs !! (d, "3.webp")
            ∧ files st' !! (d, "3.webp") = None
            ∧ files st' !! (d, "9.webp") = None).
Proof.
  intros Hlist Hren Hroot Htiers.
  assert (Hfree : ∀ n, is_webp n = true → n ≠ "3.webp" → n ≠ "9.webp" →
                       fs !! (full, n) = None).
  { intros n Hw H3 H9. destruct (fs !! (full, n)) eqn:E; [|done].
    assert (Hn : n ∈ filter (λ f, is_webp f = true) (root_names fs)).
    { apply list_elem_of_filter. split; [done|].
      apply elem_of_root_names. eauto. }
    rewrite Hroot in Hn.
    repeat (apply elem_of_cons in Hn as [?|Hn]; [done|]).
    by apply elem_of_nil in Hn. }
  unfold standardize_names_and_fill_gaps. rewrite bind_listdir.
  pose proof (listing_filter w (λ f, is_webp f = true) fs Hlist) as HL.
  rewrite Hroot in HL. symmetry in HL.
  apply Permutation_length_2_inv in HL.
  assert (Hcl : ∃ nm,
            classify (filter (λ f, is_webp f = true) (listdir_order w fs)) ∅ []
            = ret (nm, []) ∧ sorted_keys nm = [3; 9]).
  { destruct HL as [-> | ->]; eexists; (split; [reflexivity|]);
      by vm_compute. }
  destruct Hcl as (nm & -> & Hkeys). rewrite bind_ret. rewrite Hkeys.
  change (gaps_of [3; 9]) with [1; 2; 4; 5; 6; 7; 8].
  cbn [length]. change (Z.of_nat 2 - 1) with 1.
  destruct (perform_rename_set_ok w "9.webp" "1.webp" fs tk
              (tr ++ [EvList full]) Hren) as [tr1 Hr1]; [by apply Hfree|].
  unfold bind at 1.
  erewrite (fill_gaps_step w 1 _ [3; 9] 1 manifest _ _ 9 true);
    [|lia|reflexivity|lia|exact Hr1].
  change (<[Z.to_nat 1:=1]> [3; 9]) with [3; 1]. change (1 - 1) with 0.
  change (slot_name 9) with "9.webp". change (slot_name 1) with "1.webp".
  destruct (perform_rename_set_ok w "3.webp" "2.webp"
              (renamed fs "9.webp" "1.webp") tk
              ((tr ++ [EvList full]) ++ tr1) Hren) as [tr2 Hr2].
  { rewrite renamed_lookup by done. cbn. by apply Hfree. }
  erewrite (fill_gaps_step w 2 _ [3; 1] 0 _ _ _ 3 true);
    [|lia|reflexivity|lia|exact Hr2].
  rewrite fill_gaps_stop by lia.
  change (sorted_set (<[Z.to_nat 0:=2]> [3; 1])) with [1; 2].
  cbn [last rename_others]. rewrite bind_ret.
  change (slot_name 3) with "3.webp". change (slot_name 2) with "2.webp".
  do 2 eexists. split; [reflexivity|]. split; [reflexivity|].
  intros d. cbn [files]. destruct (Htiers d) as [[f3 H3] [f9 H9]].
  rewrite !renamed_lookup by done. rewrite H3, H9.
  repeat case_decide; done.
Qed.

Lemma three_and_nine_become_one_and_two_witness :
  ∃ st' manifest',
    standardize_names_and_fill_gaps plain_world gap_manifest
      (State gap_root 0 [])
      = (st', inr (2, manifest'))
    ∧ manifest'
      = rekey (rekey gap_manifest "9.webp" "1.webp") "3.webp" "2.webp"
    ∧ (∀ d, files st' !! (d, "1.webp") = gap_root !! (d, "9.webp")
            ∧ files st' !! (d, "2.webp") = gap_root !! (d, "3.webp")
            ∧ files st' !! (d, "3.webp") = None
            ∧ files st' !! (d, "9.webp") = None).
Proof.
  apply (three_and_nine_become_one_and_two plain_world gap_root 0%nat []
           gap_manifest).
  - exact plain_world_listing_ok.
  - intros s t. reflexivity.
  - vm_compute. reflexivity.
  - intros d. destruct d; split; eexists; vm_compute; reflexivity.
Defined.

(** C1 as stated fails: after the pass there is no [3.webp] and no [4.webp]
    in the root, and the manifest has no key [4.webp]; the value that was
    under [9.webp] is under [1.webp]. *)
Lemma three_does_not_stay_nine_does_not_become_four :
  let r := standardize_names_and_fill_gaps plain_world gap_manifest
             (State gap_root 0 []) in
  files r.1 !! (full, "3.webp") = None
  ∧ files r.1 !! (full, "4.webp") = None
  ∧ gap_manifest !! "9.webp" = Some "b.png"
  ∧ r.2 = inr (2, list_to_map [("1.webp", "b.png"); ("2.webp", "a.png")]).
Proof. vm_compute. repeat split; reflexivity. Qed.

(** ** The renumbering pass leaves other names alone *)

Global Instance untouched_preorder : PreOrder untouched.
Proof.
  split.
  - intros st. split; [|done]. exists []. by rewrite app_nil_r.
  - intros a b c [(t1 & E1 & F1) H1] [(t2 & E2 & F2) H2]. split.
    + exists (t1 ++ t2). rewrite E2, E1, app_assoc. split; [done|].
      by apply Forall_app.
    + intros d n Hn. by rewrite H2, H1.
Qed.

Lemma untouched_log st e :
  read_event e →
  untouched st (State (files st) (ticks st) (trace st ++ [e])).
Proof.
  intros He. split; [|done]. exists [e]. split; [done|].
  constructor; [|constructor]. by destruct e.
Qed.

Lemma untouched_rename d src dst st f :
  is_webp src = true → is_webp dst = true →
  untouched st (State (<[(d, dst) := f]> (delete (d, src) (files st)))
                      (ticks st) (trace st ++ [EvRename (d, src) (d, dst)])).
Proof.
  intros Hs Hd. split.
  - eexists. split; [done|]. by repeat constructor.
  - intros d' n Hn. cbn [files].
    rewrite lookup_insert_ne, lookup_delete_ne; [done| |]; congruence.
Qed.

Ltac rsp lem := apply lem; try apply _.

Lemma classify_pure (R : relation state) `{!PreOrder R} fs nm others :
  respects R (classify fs nm others).
Proof.
  revert nm others. induction fs as [|f fs IH]; intros nm others;
    cbn [classify]; [rsp respects_ret|].
  destruct (Str.isdigit _); [|apply IH].
  destruct (Str.int _); [apply IH | rsp respects_raise].
Qed.

Lemma classify_ensures (listing fs : list string) nm others :
  Forall (λ f, f ∈ listing ∧ is_webp f = true) fs →
  classified_from listing (nm, others) →
  ensures (classified_from listing) (classify fs nm others).
Proof.
  revert nm others. induction fs as [|f fs IH]; intros nm others Hfs Hacc st;
    cbn [classify]; [done|].
  apply Forall_cons in Hfs as [[Hf Hw] Hfs].
  destruct Hacc as [Hnm Hoth]; cbn [fst snd] in *.
  destruct (Str.isdigit _).
  - destruct (Str.int _) as [k|] eqn:Hk; [|done].
    apply IH; [done|]. split; cbn [fst snd]; [|done].
    intros k' f' Hl. destruct (decide (k = k')) as [<-|Hne].
    + rewrite lookup_insert_eq in Hl. by simplify_eq.
    + rewrite lookup_insert_ne in Hl by done. by apply Hnm.
  - apply IH; [done|]. split; cbn [fst snd]; [done|].
    apply Forall_app. split; [done|]. by repeat constructor.
Qed.

Section WebpOnly.
Context (w : world).

Lemma untouched_perform_rename_set src dst :
  is_webp src = true → is_webp dst = true →
  respects untouched (perform_rename_set w src dst).
Proof.
  intros Hs Hd. apply respects_perform_rename_set; [apply _|apply untouched_log|].
  intros d st f. by apply untouched_rename.
Qed.

Lemma untouched_fill_gaps gaps nums hi (m : gmap string string) :
  respects untouched (fill_gaps w gaps nums hi m).
Proof.
  revert nums hi m. induction gaps as [|gap gaps IH]; intros nums hi m;
    cbn [fill_gaps]; [rsp respects_ret|].
  destruct (hi <? 0); [rsp respects_ret|].
  destruct (nums !! Z.to_nat hi) as [src|]; [|rsp respects_raise].
  destruct (src <? gap); [rsp respects_ret|].
  apply respects_bind; [apply _| |intros ok; apply IH].
  apply untouched_perform_rename_set; apply is_webp_slot_name.
Qed.

Lemma untouched_rename_others others k (m : gmap string string) :
  Forall (λ f, is_webp f = true) others →
  respects untouched (rename_others w others k m).
Proof.
  revert k m. induction others as [|f others IH]; intros k m Hw;
    cbn [rename_others]; [rsp respects_ret|].
  apply Forall_cons in Hw as [Hf Hw].
  apply respects_bind; [apply _| |intros ok; by apply IH].
  apply untouched_perform_rename_set; [done|apply is_webp_slot_name].
Qed.

Lemma untouched_standardize (manifest : gmap string string) :
  respects untouched (standardize_names_and_fill_gaps w manifest).
Proof.
  unfold standardize_names_and_fill_gaps.
  apply respects_bind; [apply _| |intros listing].
  { apply respects_listdir; [apply _|apply untouched_log]. }
  apply (respects_bind_ensures untouched (classified_from listing)).
  - rsp classify_pure.
  - apply classify_ensures; [|split; [intros k f Hl; cbn in Hl; by rewrite lookup_empty in Hl|done]].
    apply Forall_forall. intros f [? ?]%list_elem_of_filter. done.
  - intros [nm others] [_ Hoth]; cbn [snd] in Hoth.
    apply respects_bind; [apply _| |intros [nums m]].
    { destruct (sorted_keys nm); [rsp respects_ret|].
      destruct (gaps_of _); [rsp respects_ret|].
      apply untouched_fill_gaps. }
    apply respects_bind; [apply _| |intros [k m']; rsp respects_ret].
    apply untouched_rename_others.
    eapply Forall_impl; [exact Hoth|]. by intros f [_ ?].
Qed.

End WebpOnly.


(** An instance: next to [5.png], [config.json] and [manifest.json] the
    only [.webp] file is [a.webp]; it becomes slot 1, the pass returns 1,
    and the other three files stay. *)
Example renumbering_skips_other_names :
  let r := standardize_names_and_fill_gaps plain_world ∅
             (State mixed_root 0 []) in
  r.2 = inr (1, ∅)
  ∧ files r.1 !! (full, "5.png") = mixed_root !! (full, "5.png")
  ∧ files r.1 !! (full, "config.json") = mixed_root !! (full, "config.json")
  ∧ files r.1 !! (full, "manifest.json")
    = mixed_root !! (full, "manifest.json")
  ∧ files r.1 !! (full, "1.webp") = mixed_root !! (full, "a.webp").
Proof. vm_compute. repeat split; reflexivity. Qed.

(** ** The phases of a run *)

Lemma quiet_app a b : quiet a → quiet b → quiet (a ++ b).
Proof. intros. by apply Forall_app. Qed.

Lemma converted_other w fs tk src final i d x :
  x ≠ final → converted w fs tk src final i !! (d, x) = fs !! (d, x).
Proof.
  intros Hne. unfold converted.
  rewrite !lookup_insert_ne by congruence.
  case_decide; [done|]. by rewrite lookup_insert_ne by congruence.
Qed.

Lemma converted_present3 w fs tk src final i :
  is_Some (fs !! src) →
  present3 (converted w fs tk src final i) final = true.
Proof.
  intros [f Hf]. unfold present3, converted.
  rewrite lookup_insert_ne, lookup_insert_ne by congruence.
  rewrite lookup_insert_eq, lookup_insert_ne, lookup_insert_eq by congruence.
  case_decide as E; [subst; by rewrite Hf|]. by rewrite lookup_insert_eq.
Qed.

Lemma clock_mono w a b : clock_ok w → (a ≤ b)%nat → clock w a ≤ clock w b.
Proof.
  intros Hc. induction 1 as [|b _ IH]; [lia|]. specialize (Hc b). lia.
Qed.

Lemma converted_settled w fs tk src final i f :
  clock_ok w → fs !! src = Some f →
  (src = (full, final) → mtime f ≤ clock w tk) →
  settled_at (converted w fs tk src final i) final = true.
Proof.
  intros Hc Hf Ht. unfold settled_at, converted, converted_ticks.
  rewrite lookup_insert_ne, lookup_insert_ne by congruence.
  rewrite lookup_insert_eq, lookup_insert_ne, lookup_insert_eq by congruence.
  case_decide as E.
  - subst. rewrite Hf. cbn [mtime]. apply andb_true_iff.
    split; apply Z.leb_le; [by apply Ht|apply Hc].
  - rewrite lookup_insert_eq. cbn [mtime]. apply andb_true_iff.
    split; apply Z.leb_le; apply Hc.
Qed.

Section Pipeline.
Context (w : world).
Implicit Types (fs : gmap path file) (m : gmap string string).

Lemma load_manifest_spec fs tk tr :
  ∃ evs, load_manifest (State fs tk tr)
         = (State fs tk (tr ++ evs), inr (stored_manifest fs))
         ∧ quiet evs.
Proof.
  unfold load_manifest, stored_manifest.
  destruct (fs !! (full, MANIFEST_FILENAME)) as [[t b]|] eqn:E.
  - rewrite bind_exists_true by eauto.
    unfold try_with, bind, log; cbn [files ticks trace]. rewrite E.
    rewrite <- app_assoc.
    destruct b; (eexists; split; [reflexivity|by repeat constructor]).
  - rewrite bind_exists_false by done. eexists. split; [reflexivity|].
    by repeat constructor.
Qed.

Lemma glob_all_spec es acc fs tk tr :
  ∃ evs, glob_all w es acc (State fs tk tr)
         = (State fs tk (tr ++ evs),
            inr (acc ++ flat_map (λ e,
                   filter (λ n, glob_match e n = true) (listdir_order w fs)
                   ++ filter (λ n, glob_match (Str.upper e) n = true)
                        (listdir_order w fs)) es))
         ∧ quiet evs.
Proof.
  revert acc tr. induction es as [|e es IH]; intros acc tr; cbn [glob_all flat_map].
  - exists []. rewrite !app_nil_r. split; [reflexivity|constructor].
  - unfold glob at 1 2. rewrite !bind_assoc.
    unfold bind at 1, log at 1. cbn [files ticks trace].
    unfold bind at 1. unfold bind at 1, log at 1. cbn [files ticks trace].
    unfold bind at 1. cbn [files ticks trace].
    destruct (IH (acc ++ filter (λ n, glob_match e n = true) (listdir_order w fs)
                   ++ filter (λ n, glob_match (Str.upper e) n = true)
                        (listdir_order w fs))
                 ((tr ++ [EvList full]) ++ [EvList full])) as (evs & -> & Hq).
    exists ([EvList full; EvList full] ++ evs). split.
    + f_equal; [f_equal; by rewrite <- !app_assoc|]. by rewrite <- !app_assoc.
    + apply quiet_app; [by repeat constructor|done].
Qed.

Lemma elem_of_listdir fs n :
  listing_ok w → n ∈ listdir_order w fs ↔ is_Some (fs !! (full, n)).
Proof. intros H. by rewrite (H fs), elem_of_root_names. Qed.

Lemma gather_tasks_spec m fs tk tr :
  listing_ok w →
  ∃ names evs,
    gather_tasks w m (State fs tk tr)
    = (State fs tk (tr ++ evs), inr ((λ f, Task (full, f) f false) <$> names))
    ∧ quiet evs ∧ NoDup names
    ∧ ∀ n, n ∈ names
           ↔ is_Some (fs !! (full, n)) ∧ glob_hit n = true
             ∧ n ∉ (map_img m : gset string).
Proof.
  intros Hl. unfold gather_tasks.
  destruct (glob_all_spec exts [] fs tk tr) as (evs & Hg & Hq).
  unfold bind at 1. rewrite Hg. cbn [app].
  eexists _, evs. split; [reflexivity|]. split; [done|]. split.
  - apply NoDup_filter. rewrite merge_sort_Permutation.
    apply NoDup_remove_dups.
  - intros n. rewrite list_elem_of_filter, merge_sort_Permutation,
      elem_of_remove_dups, list_elem_of_In, in_flat_map.
    unfold glob_hit. rewrite <- (elem_of_listdir fs n Hl). split.
    + intros (Hn & e & He & Hin). apply in_app_or in Hin.
      rewrite <- !list_elem_of_In, !list_elem_of_filter in Hin.
      split; [tauto|]. split; [|done].
      apply existsb_exists. exists e. split; [done|].
      apply orb_true_iff. tauto.
    + intros (Hn & Hhit & Hk). split; [done|].
      apply existsb_exists in Hhit as (e & He & Hm).
      exists e. split; [done|]. apply in_or_app.
      rewrite <- !list_elem_of_In, !list_elem_of_filter.
      apply orb_true_iff in Hm. tauto.
Qed.

Lemma convert_settled fs tk tr n :
  settled_at fs n = true → final_name_of n = n →
  ∃ evs, convert_and_resize w (Task (full, n) n false) (State fs tk tr)
         = (State fs tk (tr ++ evs), inr (Some (n, n)))
         ∧ quiet evs.
Proof.
  intros Hs Hfin. rewrite convert_and_resize_eq, Hfin.
  unfold settled_at in Hs.
  destruct (fs !! (full, n)) as [f|] eqn:Hf; [|done].
  destruct (fs !! (half, n)) as [h|] eqn:Hh; [|done].
  destruct (fs !! (quarter, n)) as [q|] eqn:Hq; [|done].
  apply andb_true_iff in Hs as [H1 H2].
  unfold convert_steps, write_full, write_half, write_quarter, needs_update,
    path_eqb.
  rewrite (bool_decide_eq_true_2 _ eq_refl).
  repeat io_step. rewrite Z.leb_refl. cbn [negb orb]. repeat io_step.
  rewrite H1. cbn [negb]. repeat io_step. rewrite H2. cbn [negb].
  repeat io_step. unfold ret. rewrite <- !app_assoc.
  eexists. split; [reflexivity|]. by repeat constructor.
Qed.

Lemma convert_new fs tk tr n t0 c i :
  fs !! (full, n) = Some (File t0 (Encoded c i)) →
  fs !! (half, final_name_of n) = None →
  fs !! (quarter, final_name_of n) = None →
  (∀ p, save_fails w p = false) →
  ∃ tr', convert_and_resize w (Task (full, n) n false) (State fs tk tr)
         = (State (converted w fs tk (full, n) (final_name_of n) i)
                  (S (S (converted_ticks tk (full, n) (final_name_of n)))) tr',
            inr (Some (final_name_of n, n))).
Proof.
  intros Hs Hh Hq Hsave. rewrite convert_and_resize_eq.
  destruct (convert_steps_new w fs tk tr (full, n) (final_name_of n) t0 c i
              Hs Hh Hq Hsave) as [tr' ->].
  unfold converted, converted_ticks. eauto.
Qed.

End Pipeline.

Lemma settled_at_ext fs fs' n :
  (∀ d, fs' !! (d, n) = fs !! (d, n)) → settled_at fs' n = settled_at fs n.
Proof. intros H. unfold settled_at. by rewrite !H. Qed.

Lemma present3_ext fs fs' n :
  (∀ d, fs' !! (d, n) = fs !! (d, n)) → present3 fs' n = present3 fs n.
Proof. intros H. unfold present3. by rewrite !H. Qed.

Lemma good_ext timed fs fs' n :
  (∀ d, fs' !! (d, n) = fs !! (d, n)) → good timed fs' n = good timed fs n.
Proof.
  intros H. unfold good. destruct timed; [by apply settled_at_ext|by apply present3_ext].
Qed.

Lemma settled_present3 fs n : settled_at fs n = true → present3 fs n = true.
Proof.
  unfold settled_at, present3.
  by destruct (fs !! (full, n)), (fs !! (half, n)), (fs !! (quarter, n)).
Qed.

Lemma good_present3 timed fs n : good timed fs n = true → present3 fs n = true.
Proof. destruct timed; [apply settled_present3|done]. Qed.

Lemma final_name_slot k : 0 ≤ k → final_name_of (slot_name k) = slot_name k.
Proof. intros Hk. unfold final_name_of. by rewrite splitext_slot_name. Qed.

Lemma elem_of_slot_names K n :
  n ∈ slot_names K ↔ ∃ k, n = slot_name k ∧ 1 ≤ k ≤ K.
Proof.
  unfold slot_names. rewrite list_elem_of_fmap. split.
  - intros (k & -> & Hk%elem_of_seqZ). exists k. split; [done|lia].
  - intros (k & -> & Hk). exists k. split; [done|]. apply elem_of_seqZ. lia.
Qed.

Lemma NoDup_fmap_inj {A B} (f : A → B) (l : list A) x y :
  NoDup (f <$> l) → x ∈ l → y ∈ l → f x = f y → x = y.
Proof.
  induction l as [|a l IH]; cbn; [by intros _ ?%elem_of_nil|].
  intros [Ha Hl]%NoDup_cons [->|Hx]%elem_of_cons [->|Hy]%elem_of_cons E;
    [done| | |by apply IH].
  - destruct Ha. rewrite E. by apply list_elem_of_fmap_2.
  - destruct Ha. rewrite <- E. by apply list_elem_of_fmap_2.
Qed.

Lemma prefix_dot_digits (s x : string) :
  Str.isdigit s = true → Str.startswith (s +:+ x) "." = false.
Proof.
  destruct s as [|c s]; [done|]. cbn [Str.isdigit Str.all_chars].
  intros [Hc _]%andb_true_iff. apply StrFacts.digit_not_dot in Hc.
  unfold Str.startswith. rewrite StrFacts.app_cons. cbn [String.prefix].
  destruct (Ascii.ascii_dec "." c) as [<-|]; [done|]. by destruct (s +:+ x).
Qed.

Lemma glob_hit_slot_name k : 0 ≤ k → glob_hit (slot_name k) = true.
Proof.
  intros Hk. unfold glob_hit. apply existsb_exists. exists ".webp".
  split; [cbn; tauto|]. apply orb_true_iff. left.
  unfold glob_match, slot_name. rewrite StrFacts.endswith_app.
  rewrite prefix_dot_digits; [done|]. by apply StrFacts.str_isdigit.
Qed.

Lemma settled_root fs n : settled_at fs n = true → is_Some (fs !! (full, n)).
Proof. unfold settled_at. destruct (fs !! (full, n)); [eauto|done]. Qed.

Section Pool.
Context (w : world) (timed : bool).
Context (fs0 : gmap path file) (tk0 : nat) (K : Z) (news : list string).
Context (Hready : ready fs0 K news).
Context (Hsave : ∀ p, save_fails w p = false).
Context (Hclock : timed = true → clock_ok w).
Context (Htimely : timed = true → ∀ n, n ∈ news → timely (clock w tk0) fs0 n = true).

Lemma news_facts n :
  n ∈ news →
  ∃ t c i,
    fs0 !! (full, n) = Some (File t (Encoded c i))
    ∧ glob_hit n = true
    ∧ (n ∉ (map_img (stored_manifest fs0) : gset string))
    ∧ numeric (final_name_of n) = false
    ∧ (is_webp n = true → final_name_of n = n)
    ∧ fs0 !! (half, final_name_of n) = None
    ∧ fs0 !! (quarter, final_name_of n) = None.
Proof.
  intros Hn. pose proof (ready_news _ _ _ Hready) as H.
  rewrite Forall_forall in H. specialize (H n Hn). unfold new_ok in H.
  destruct (fs0 !! (full, n)) as [[t b]|]; [|done].
  repeat (apply andb_true_iff in H as [H ?]).
  unfold decodable in H. cbn in H. destruct b as [c i| | |]; try done.
  repeat match goal with
         | H : bool_decide _ = true |- _ => apply bool_decide_eq_true in H
         | H : negb _ = true |- _ => apply negb_true_iff in H
         end.
  exists t, c, i. split; [done|]. split; [done|]. split; [done|].
  split; [done|]. split; [|done].
  intros Hw. match goal with H : _ || _ = true |- _ =>
    apply orb_true_iff in H as [H'|H'] end.
  - by rewrite Hw in H'.
  - by apply bool_decide_eq_true in H'.
Qed.

Lemma final_inj n n' :
  n ∈ news → n' ∈ news → final_name_of n = final_name_of n' → n = n'.
Proof. apply NoDup_fmap_inj, Hready. Qed.

Lemma final_not_slot n k : n ∈ news → 0 ≤ k → final_name_of n ≠ slot_name k.
Proof.
  intros Hn Hk E. destruct (news_facts n Hn) as (?&?&?&_&_&_&Hnum&_).
  rewrite E, numeric_slot_name in Hnum by done. done.
Qed.

Lemma news_not_slot n k : n ∈ news → 0 ≤ k → n ≠ slot_name k.
Proof.
  intros Hn Hk E. destruct (news_facts n Hn) as (?&?&?&_&_&_&_&Hself&_).
  apply (final_not_slot n k Hn Hk). rewrite Hself; [done|].
  rewrite E. apply is_webp_slot_name.
Qed.

Lemma slot_settled0 k : 1 ≤ k ≤ K → settled_at fs0 (slot_name k) = true.
Proof.
  intros Hk. pose proof (ready_slots _ _ _ Hready) as H.
  rewrite Forall_forall in H. apply H, elem_of_seqZ. lia.
Qed.

Lemma pool_step_slot r rest fs tk tr m :
  r ∉ rest → r ∈ slot_names K → r ∉ news →
  pool_inv timed fs0 tk0 K news (r :: rest) fs tk m →
  ∃ tr' m',
    (result <- convert_and_resize w (task_of r);; ret (record m result))%io
      (State fs tk tr) = (State fs tk tr', inr m')
    ∧ pool_inv timed fs0 tk0 K news rest fs tk m'.
Proof.
  intros Hr Hslot Hnew Hinv.
  apply elem_of_slot_names in Hslot as (k & -> & Hk).
  assert (Hset : settled_at fs (slot_name k) = true).
  { rewrite (settled_at_ext fs0); [by apply slot_settled0|].
    intros d. by apply (pi_slots _ _ _ _ _ _ _ _ _ Hinv). }
  destruct (convert_settled w fs tk tr (slot_name k) Hset) as (evs & Hc & _);
    [apply final_name_slot; lia|].
  unfold bind at 1, task_of. rewrite Hc. unfold ret.
  do 2 eexists. split; [reflexivity|].
  set (m' := record m (Some (slot_name k, slot_name k))).
  assert (Hm' : m ⊆ m'
                ∧ is_Some (m' !! slot_name k)
                ∧ ∀ key, key ≠ slot_name k → m' !! key = m !! key).
  { subst m'. cbn [record].
    destruct (m !! slot_name k) eqn:E.
    - split; [done|]. split; [by rewrite E|done].
    - split; [by apply insert_subseteq|]. split; [by rewrite lookup_insert_eq|].
      intros key Hne. by rewrite lookup_insert_ne. }
  destruct Hm' as (Hsub & Hkey & Hoth).
  split.
  - apply Hinv.
  - apply Hinv.
  - intros n Hn Hin. apply Hinv; [done|]. by apply elem_of_cons; right.
  - intros n Hn Hin.
    assert (n ∉ slot_name k :: rest) as Hin'.
    { intros [->|?]%elem_of_cons; [|done]. by apply Hnew. }
    destruct (pi_done _ _ _ _ _ _ _ _ _ Hinv n Hn Hin') as [Hg Hmn]. split; [done|].
    rewrite Hoth; [done|]. apply final_not_slot; [done|lia].
  - intros x. rewrite (pi_root _ _ _ _ _ _ _ _ _ Hinv x). split.
    + intros [?|(n & Hn & Hin & ->)]; [by left|]. right. exists n.
      split; [done|]. split; [|done]. intros ?. apply Hin. by apply elem_of_cons; right.
    + intros [?|(n & Hn & Hin & ->)]; [by left|]. right. exists n.
      split; [done|]. split; [|done].
      intros [->|?]%elem_of_cons; [by apply Hnew|done].
  - etrans; [apply Hinv|done].
  - intros key Hsome. destruct (decide (key = slot_name k)) as [->|Hne].
    + left. apply elem_of_slot_names. eauto.
    + rewrite Hoth in Hsome by done.
      destruct (pi_keys _ _ _ _ _ _ _ _ _ Hinv key Hsome) as [?|(n & Hn & Hin & ->)];
        [by left|]. right. exists n. split; [done|]. split; [|done].
      intros ?. apply Hin. by apply elem_of_cons; right.
  - intros k' Hk' Hin. destruct (decide (k' = k)) as [->|Hne]; [by left|].
    assert (slot_name k' ∉ slot_name k :: rest) as Hin'.
    { intros [E|?]%elem_of_cons; [|done]. apply slot_name_inj in E; lia. }
    destruct (pi_tracked _ _ _ _ _ _ _ _ _ Hinv k' Hk' Hin') as [[v Hv]|?]; [|by right].
    left. exists v. rewrite Hoth; [done|].
    intros E. apply slot_name_inj in E; lia.
Qed.

Lemma pool_step_new r rest fs tk tr m :
  r ∉ rest → r ∈ news →
  pool_inv timed fs0 tk0 K news (r :: rest) fs tk m →
  ∃ fs' tk' tr' m',
    (result <- convert_and_resize w (task_of r);; ret (record m result))%io
      (State fs tk tr) = (State fs' tk' tr', inr m')
    ∧ pool_inv timed fs0 tk0 K news rest fs' tk' m'.
Proof.
  intros Hr Hnew Hinv.
  destruct (news_facts r Hnew) as (t & c & i & Hf0 & _ & _ & Hnum & Hself & _).
  destruct (pi_pending _ _ _ _ _ _ _ _ _ Hinv r Hnew) as (Hf & Hh & Hq);
    [by apply elem_of_cons; left|].
  rewrite Hf0 in Hf.
  destruct (convert_new w fs tk tr r t c i Hf Hh Hq Hsave) as [tr' Hc].
  unfold bind at 1, task_of. rewrite Hc. unfold ret. cbn [record].
  assert (Hfree : m !! final_name_of r = None).
  { destruct (m !! final_name_of r) eqn:E; [|done].
    destruct (pi_keys _ _ _ _ _ _ _ _ _ Hinv (final_name_of r)) as [Hs|(n & Hn & Hin & E')];
      [eauto| |].
    - apply elem_of_slot_names in Hs as (k & Hk & ?).
      destruct (final_not_slot r k Hnew); [lia|done].
    - apply final_inj in E'; [|done..]. subst n.
      destruct Hin. by apply elem_of_cons; left. }
  rewrite Hfree. do 4 eexists. split; [reflexivity|].
  assert (Hother : ∀ n, n ∈ news → n ≠ r → n ≠ final_name_of r).
  { intros n Hn Hne E.
    destruct (news_facts n Hn) as (_ & _ & _ & _ & _ & _ & _ & Hself' & _).
    apply Hne, final_inj; [done..|].
    rewrite Hself'; [exact E|]. rewrite E. apply is_webp_final_name. }
  split.
  - pose proof (pi_ticks _ _ _ _ _ _ _ _ _ Hinv). unfold converted_ticks.
    case_decide; lia.
  - intros k d Hk. rewrite converted_other; [by apply Hinv|].
    intros E. symmetry in E. revert E. apply final_not_slot; [done|lia].
  - intros n Hn Hin. assert (n ≠ r) by (by intros ->).
    destruct (pi_pending _ _ _ _ _ _ _ _ _ Hinv n Hn) as (H1 & H2 & H3);
      [by apply elem_of_cons; right|].
    assert (final_name_of n ≠ final_name_of r).
    { intros E. by apply final_inj in E. }
    rewrite !converted_other by eauto. done.
  - intros n Hn Hin. destruct (decide (n = r)) as [->|Hne].
    + split; [|by rewrite lookup_insert_eq].
      unfold good. destruct timed eqn:Ht.
      * eapply converted_settled; [by apply Hclock|exact Hf|].
        intros [= E]. etrans; [|apply clock_mono; [by apply Hclock|apply Hinv]].
        pose proof (Htimely eq_refl r Hnew) as Hty. unfold timely in Hty.
        rewrite Hf0 in Hty. cbn [mtime] in *.
        apply orb_true_iff in Hty as [Hty|Hty]; [|by apply Z.leb_le].
        rewrite E, is_webp_final_name in Hty. done.
      * apply converted_present3. eauto.
    + assert (n ∉ r :: rest) as Hin'.
      { intros [?|?]%elem_of_cons; done. }
      destruct (pi_done _ _ _ _ _ _ _ _ _ Hinv n Hn Hin') as [Hg Hmn].
      assert (final_name_of n ≠ final_name_of r).
      { intros E. by apply final_inj in E. }
      split; [|by rewrite lookup_insert_ne].
      rewrite <- Hg. apply good_ext. intros d. by apply converted_other.
  - intros x. destruct (decide (x = final_name_of r)) as [->|Hne].
    + split; [|intros _].
      * intros _. right. exists r. done.
      * pose proof (converted_present3 w fs tk (full, r) (final_name_of r) i
                      (ltac:(eauto))) as Hp.
        unfold present3 in Hp.
        destruct (converted _ _ _ _ _ _ !! (full, final_name_of r)); [eauto|done].
    + rewrite converted_other by done. rewrite (pi_root _ _ _ _ _ _ _ _ _ Hinv x). split.
      * intros [?|(n & Hn & Hin & ->)]; [by left|]. right. exists n.
        split; [done|]. split; [|done]. intros ?. apply Hin.
        by apply elem_of_cons; right.
      * intros [?|(n & Hn & Hin & ->)]; [by left|]. right. exists n.
        split; [done|]. split; [|done].
        intros [->|?]%elem_of_cons; done.
  - etrans; [apply Hinv|]. by apply insert_subseteq.
  - intros key Hsome. destruct (decide (key = final_name_of r)) as [->|Hne].
    + right. exists r. done.
    + rewrite lookup_insert_ne in Hsome by done.
      destruct (pi_keys _ _ _ _ _ _ _ _ _ Hinv key Hsome) as [?|(n & Hn & Hin & ->)];
        [by left|]. right. exists n. split; [done|]. split; [|done].
      intros ?. apply Hin. by apply elem_of_cons; right.
  - intros k Hk Hin.
    assert (slot_name k ∉ r :: rest) as Hin'.
    { intros [E|?]%elem_of_cons; [|done]. symmetry in E. revert E.
      apply news_not_slot; [done|lia]. }
    destruct (pi_tracked _ _ _ _ _ _ _ _ _ Hinv k Hk Hin') as [[v Hv]|?]; [|by right].
    left. exists v. rewrite lookup_insert_ne; [done|].
    apply final_not_slot; [done|lia].
Qed.

Lemma run_pool_cons t ts m st st' m' :
  (result <- convert_and_resize w t;; ret (record m result))%io st
    = (st', inr m') →
  run_pool w (t :: ts) m st = run_pool w ts m' st'.
Proof.
  cbn [run_pool]. unfold bind, ret.
  destruct (convert_and_resize w t st) as [st1 [e|r]]; [done|].
  by intros [= -> ->].
Qed.

Lemma pool_spec rs fs tk tr m :
  NoDup rs →
  (∀ r, r ∈ rs → r ∈ news ∨ r ∈ slot_names K) →
  pool_inv timed fs0 tk0 K news rs fs tk m →
  ∃ fs' tk' tr' m',
    run_pool w (task_of <$> rs) m (State fs tk tr)
      = (State fs' tk' tr', inr m')
    ∧ pool_inv timed fs0 tk0 K news [] fs' tk' m'.
Proof.
  revert fs tk tr m. induction rs as [|r rs IH]; intros fs tk tr m Hnd Hkind Hinv.
  - do 4 eexists. split; [reflexivity|done].
  - apply NoDup_cons in Hnd as [Hr Hnd].
    assert (Hstep : ∃ fs1 tk1 tr1 m1,
      (result <- convert_and_resize w (task_of r);; ret (record m result))%io
        (State fs tk tr) = (State fs1 tk1 tr1, inr m1)
      ∧ pool_inv timed fs0 tk0 K news rs fs1 tk1 m1).
    { destruct (decide (r ∈ news)) as [Hn|Hn].
      - by apply pool_step_new.
      - destruct (Hkind r) as [?|Hs]; [by apply elem_of_cons; left|done|].
        destruct (pool_step_slot r rs fs tk tr m Hr Hs Hn Hinv)
          as (tr1 & m1 & ? & ?). eauto 10. }
    destruct Hstep as (fs1 & tk1 & tr1 & m1 & Hstep & Hinv1).
    cbn [fmap list_fmap]. rewrite (run_pool_cons _ _ _ _ _ _ Hstep).
    apply IH; [done| |done]. intros r' Hr'. apply Hkind. by apply elem_of_cons; right.
Qed.

Lemma pool_kinds (names : list string) :
  (∀ n, n ∈ names ↔ is_Some (fs0 !! (full, n)) ∧ glob_hit n = true
                     ∧ n ∉ (map_img (stored_manifest fs0) : gset string)) →
  ∀ r, r ∈ names → r ∈ news ∨ r ∈ slot_names K.
Proof.
  intros Hnames r (Hroot & Hhit & Hknown)%Hnames.
  pose proof (ready_root _ _ _ Hready) as H. rewrite Forall_forall in H.
  destruct (H r) as [?|[?|Hp]]; [by apply elem_of_root_names|by left|by right|].
  unfold passive in Hp. apply andb_true_iff in Hp as [_ Hp].
  rewrite Hhit in Hp. cbn in Hp. by apply bool_decide_eq_true in Hp.
Qed.

Lemma pool_inv_init (names : list string) :
  (∀ n, n ∈ names ↔ is_Some (fs0 !! (full, n)) ∧ glob_hit n = true
                     ∧ n ∉ (map_img (stored_manifest fs0) : gset string)) →
  pool_inv timed fs0 tk0 K news names fs0 tk0 (stored_manifest fs0).
Proof.
  intros Hnames.
  assert (Hin : ∀ n, n ∈ news → n ∈ names).
  { intros n Hn. destruct (news_facts n Hn) as (?&?&?&Hf&?&?&_).
    apply Hnames. rewrite Hf. eauto. }
  split.
  - done.
  - done.
  - intros n Hn _. destruct (news_facts n Hn) as (?&?&?&_&_&_&_&_&?&?). done.
  - intros n Hn Hnot. destruct Hnot. by apply Hin.
  - intros x. split; [by left|]. intros [?|(n & Hn & Hnot & _)]; [done|].
    destruct Hnot. by apply Hin.
  - done.
  - intros key Hsome. left. destruct Hsome as [v Hv].
    by apply (ready_keys _ _ _ Hready key v).
  - intros k Hk Hnot.
    destruct (decide (slot_name k ∈ (map_img (stored_manifest fs0) : gset string)));
      [by right|].
    destruct Hnot. apply Hnames. split; [|split; [|done]].
    + by apply settled_root, slot_settled0.
    + apply glob_hit_slot_name. lia.
Qed.

End Pool.

Lemma classify_run (fs : list string) nm others st :
  ∃ nm', classify fs nm others st
         = (st, inr (nm', others ++ filter (λ f, numeric f = false) fs))
         ∧ ∀ k, k ∈ dom nm' ↔
                k ∈ dom nm
                ∨ ∃ f, f ∈ fs ∧ numeric f = true
                       ∧ Str.int (Str.splitext f).1 = Some k.
Proof.
  revert nm others. induction fs as [|f fs IH]; intros nm others.
  - exists nm. cbn [classify]. rewrite filter_nil, app_nil_r. split; [done|].
    intros k. split; [by left|]. intros [?|(f & []%elem_of_nil & _)]. done.
  - cbn [classify]. fold (numeric f). destruct (numeric f) eqn:Hnum.
    + destruct (StrFacts.isdigit_int _ Hnum) as [n Hn]. rewrite Hn.
      destruct (IH (<[n := f]> nm) others) as (nm' & -> & Hdom).
      exists nm'. rewrite filter_cons_False by (by rewrite Hnum).
      split; [done|]. intros k. rewrite Hdom, dom_insert, elem_of_union,
        elem_of_singleton. split.
      * intros [[->|?]|(f' & ? & ? & ?)].
        -- right. exists f. split; [by left|done].
        -- by left.
        -- right. exists f'. split; [by right|done].
      * intros [?|(f' & [->|?]%elem_of_cons & ? & ?)].
        -- left. by right.
        -- left. left. congruence.
        -- right. eauto.
    + destruct (IH nm (others ++ [f])) as (nm' & -> & Hdom).
      exists nm'. rewrite filter_cons_True by done.
      rewrite <- app_assoc. split; [done|]. intros k. rewrite Hdom. split.
      * intros [?|(f' & ? & ? & ?)]; [by left|]. right. exists f'.
        split; [by right|done].
      * intros [?|(f' & [->|?]%elem_of_cons & ? & ?)]; [by left|congruence|].
        right. eauto.
Qed.

Lemma StronglySorted_seqZ m n : StronglySorted Z.le (seqZ m n).
Proof.
  destruct (Z.le_gt_cases n 0) as [Hn|Hn].
  { rewrite seqZ_nil by done. constructor. }
  rewrite <- (Z2Nat.id n) by lia. generalize (Z.to_nat n) as i. clear.
  intros i. revert m. induction i as [|i IH]; intros m; [constructor|].
  rewrite seqZ_cons by lia. rewrite Nat2Z.inj_succ, Z.pred_succ.
  constructor; [apply IH|]. apply Forall_forall.
  intros x Hx%elem_of_seqZ. lia.
Qed.

Lemma sort_is_seqZ (l : list Z) K :
  NoDup l → (∀ k, k ∈ l ↔ 1 ≤ k ≤ K) → merge_sort Z.le l = seqZ 1 K.
Proof.
  intros Hnd Hl. apply (StronglySorted_unique Z.le).
  - apply StronglySorted_merge_sort; apply _.
  - apply StronglySorted_seqZ.
  - rewrite merge_sort_Permutation. apply NoDup_Permutation;
      [done|apply NoDup_seqZ|].
    intros k. rewrite Hl, elem_of_seqZ. lia.
Qed.

Lemma sorted_keys_seqZ (nm : gmap Z string) K :
  (∀ k, k ∈ dom nm ↔ 1 ≤ k ≤ K) → sorted_keys nm = seqZ 1 K.
Proof.
  intros H. apply sort_is_seqZ; [apply NoDup_elements|].
  intros k. by rewrite elem_of_elements.
Qed.

Lemma sorted_set_seqZ K : sorted_set (seqZ 1 K) = seqZ 1 K.
Proof.
  apply sort_is_seqZ; [apply NoDup_elements|].
  intros k. rewrite elem_of_elements, elem_of_list_to_set, elem_of_seqZ. lia.
Qed.

Lemma last_seqZ K : 1 ≤ K → last (seqZ 1 K) = Some K.
Proof.
  intros HK. rewrite <- (Z2Nat.id K) by lia.
  destruct (Z.to_nat K) as [|i] eqn:E; [lia|].
  rewrite seqZ_S, last_snoc. f_equal. lia.
Qed.

Lemma filter_none {A} (P : A → Prop) `{!∀ x, Decision (P x)} (l : list A) :
  Forall (λ x, ¬ P x) l → filter P l = [].
Proof.
  induction 1 as [|x l Hx _ IH]; [done|]. by rewrite filter_cons_False.
Qed.

Lemma gaps_of_seqZ K : gaps_of (seqZ 1 K) = [].
Proof.
  unfold gaps_of. destruct (Z.le_gt_cases K 0) as [HK|HK].
  { by rewrite seqZ_nil. }
  rewrite last_seqZ by lia. apply filter_none, Forall_forall.
  intros i Hi%elem_of_seqZ Hnot. apply Hnot.
  apply elem_of_list_to_set, elem_of_seqZ. lia.
Qed.

Lemma good_moved timed fs fs' n n' :
  (∀ d, fs' !! (d, n') = fs !! (d, n)) → good timed fs' n' = good timed fs n.
Proof.
  intros H. unfold good, settled_at, present3. by rewrite !H.
Qed.

Lemma present3_all fs n d : present3 fs n = true → is_Some (fs !! (d, n)).
Proof.
  unfold present3.
  destruct (fs !! (full, n)) eqn:E1, (fs !! (half, n)) eqn:E2,
    (fs !! (quarter, n)) eqn:E3; try done.
  intros _. destruct d; rewrite ?E1, ?E2, ?E3; eauto.
Qed.

Lemma known_rekey (m : gmap string string) src dst :
  m !! dst = None → known (rekey m src dst) = known m.
Proof.
  intros Hd. unfold rekey. destruct (m !! src) as [v|] eqn:Hs; [|done].
  assert (src ≠ dst) by congruence.
  apply set_eq. intros x. unfold known. rewrite !elem_of_map_img. split.
  - intros [key Hk]. destruct (decide (key = dst)) as [->|Hne].
    + rewrite lookup_insert_eq in Hk. exists src. congruence.
    + rewrite lookup_insert_ne in Hk by done.
      apply lookup_delete_Some in Hk as [_ Hk]. eauto.
  - intros [key Hk]. destruct (decide (key = src)) as [->|Hne].
    + exists dst. rewrite lookup_insert_eq. congruence.
    + exists key. rewrite lookup_insert_ne by congruence.
      by rewrite lookup_delete_ne.
Qed.

Section Standardize.
Context (w : world) (timed : bool).
Context (Hlist : listing_ok w).
Context (Hren : ∀ s t, rename_fails w s t = false).

(** With slots [1..K] and otherwise only non-numeric [.webp] names in the
    root, the pass has no gap to fill and goes straight to numbering the
    others from [K + 1]. *)
Lemma standardize_reduce fs tk tr (m : gmap string string) K :
  0 ≤ K →
  (∀ k, 1 ≤ k ≤ K → is_Some (fs !! (full, slot_name k))) →
  (∀ f, is_Some (fs !! (full, f)) → is_webp f = true → numeric f = true →
        f ∈ slot_names K) →
  ∃ others,
    standardize_names_and_fill_gaps w m (State fs tk tr)
    = (r <- rename_others w others (K + 1) m;; ret (r.1 - 1, r.2))%io
        (State fs tk (tr ++ [EvList full]))
    ∧ NoDup others
    ∧ ∀ f, f ∈ others ↔ is_Some (fs !! (full, f)) ∧ is_webp f = true
                         ∧ numeric f = false.
Proof.
  intros HK Hslots Hnum. unfold standardize_names_and_fill_gaps.
  rewrite bind_listdir.
  set (L := filter (λ f, is_webp f = true) (listdir_order w fs)).
  assert (HL : ∀ f, f ∈ L ↔ is_Some (fs !! (full, f)) ∧ is_webp f = true).
  { intros f. subst L.
    rewrite list_elem_of_filter, (elem_of_listdir w _ _ Hlist). tauto. }
  destruct (classify_run L ∅ [] (State fs tk (tr ++ [EvList full])))
    as (nm & Hc & Hdom).
  unfold bind at 1. rewrite Hc. cbn [app].
  assert (Hkeys : sorted_keys nm = seqZ 1 K).
  { apply sorted_keys_seqZ. intros k. rewrite Hdom, dom_empty. split.
    - intros [[]%elem_of_empty|(f & [Hf Hw]%HL & Hn & Hint)].
      apply Hnum in Hf; [|done..].
      apply elem_of_slot_names in Hf as (k' & -> & Hk').
      rewrite splitext_slot_name in Hint by lia. cbn [fst] in Hint.
      rewrite StrFacts.int_str in Hint by lia. by simplify_eq.
    - intros Hk. right. exists (slot_name k). split; [|split].
      + apply HL. split; [by apply Hslots|apply is_webp_slot_name].
      + apply numeric_slot_name. lia.
      + rewrite splitext_slot_name by lia. apply StrFacts.int_str. lia. }
  rewrite Hkeys, gaps_of_seqZ.
  assert (Hmatch : ∀ (l : list Z),
            (match l, ([] : list Z) with
             | _ :: _, gap :: gaps =>
                 fill_gaps w (gap :: gaps) l (Z.of_nat (length l) - 1) m
             | _, _ => ret (l, m)
             end) = ret (l, m)) by (by intros []).
  rewrite Hmatch, bind_ret. rewrite sorted_set_seqZ.
  assert (Hnext : match last (seqZ 1 K) with Some x => x + 1 | None => 1 end
                  = K + 1).
  { destruct (decide (K = 0)) as [->|]; [done|]. by rewrite last_seqZ by lia. }
  rewrite Hnext.
  exists (filter (λ f, numeric f = false) L). split; [|split].
  - unfold bind. by destruct (rename_others _ _ _ _ _) as [? [?|[??]]].
  - apply NoDup_filter. subst L. apply NoDup_filter.
    rewrite (Hlist fs). apply NoDup_root_names.
  - intros f. rewrite list_elem_of_filter, HL. tauto.
Qed.

(** Numbering the non-numeric names [others] from [k] on, when the slots
    from [k] on are free in the root and in the manifest. *)
Lemma rename_others_spec others : ∀ k fs (m : gmap string string) tk tr,
  NoDup others →
  (∀ t, t ∈ others →
        numeric t = false ∧ good timed fs t = true ∧ is_Some (m !! t)) →
  (∀ j, k ≤ j → fs !! (full, slot_name j) = None) →
  (∀ j, k ≤ j → m !! slot_name j = None) →
  0 ≤ k →
  ∃ fs' m' tr',
    rename_others w others k m (State fs tk tr)
    = (State fs' tk tr', inr (k + Z.of_nat (length others), m'))
    ∧ (∀ j, k ≤ j < k + Z.of_nat (length others) →
            good timed fs' (slot_name j) = true ∧ is_Some (m' !! slot_name j))
    ∧ (∀ d x, x ∉ others →
              (∀ j, k ≤ j < k + Z.of_nat (length others) → x ≠ slot_name j) →
              fs' !! (d, x) = fs !! (d, x))
    ∧ (∀ d t, t ∈ others → fs' !! (d, t) = None)
    ∧ (∀ key, key ∉ others →
              (∀ j, k ≤ j < k + Z.of_nat (length others) → key ≠ slot_name j) →
              m' !! key = m !! key)
    ∧ (∀ t, t ∈ others → m' !! t = None)
    ∧ known m' = known m.
Proof.
  induction others as [|t ts IH]; intros k fs m tk tr Hnd Hoth Hfree Hmfree Hk.
  - exists fs, m, tr. cbn [rename_others length]. rewrite Z.add_0_r.
    split; [done|]. split; [intros; lia|]. split; [done|].
    split; [by intros ?? ?%elem_of_nil|]. split; [done|].
    split; [by intros ? ?%elem_of_nil|done].
  - apply NoDup_cons in Hnd as [Ht Hnd].
    destruct (Hoth t) as (Hnum & Hgood & [v Hv]); [by left|].
    assert (Hslot : ∀ j, 0 ≤ j → t ≠ slot_name j).
    { intros j Hj E. by rewrite E, numeric_slot_name in Hnum. }
    assert (Hts : ∀ t' j, t' ∈ ts → 0 ≤ j → t' ≠ slot_name j).
    { intros t' j Ht' Hj E. destruct (Hoth t') as (Hn' & _); [by right|].
      by rewrite E, numeric_slot_name in Hn'. }
    destruct (perform_rename_set_ok w t (slot_name k) fs tk tr Hren)
      as [tr1 Hr]; [apply Hfree; lia|].
    rewrite (rename_others_step w _ _ _ _ _ _ _ Hr).
    set (fs1 := renamed fs t (slot_name k)).
    set (m1 := rekey m t (slot_name k)).
    assert (Hm1 : ∀ key, key ≠ t → key ≠ slot_name k → m1 !! key = m !! key).
    { intros key H1 H2. subst m1. unfold rekey. rewrite Hv.
      by rewrite lookup_insert_ne, lookup_delete_ne. }
    assert (Hm1t : m1 !! t = None).
    { subst m1. unfold rekey. rewrite Hv.
      rewrite lookup_insert_ne by (symmetry; apply Hslot; lia).
      apply lookup_delete_eq. }
    assert (Hm1k : m1 !! slot_name k = Some v).
    { subst m1. unfold rekey. rewrite Hv. apply lookup_insert_eq. }
    assert (Hfs1 : ∀ d x, x ≠ t → x ≠ slot_name k → fs1 !! (d, x) = fs !! (d, x)).
    { intros d x H1 H2. subst fs1. rewrite renamed_lookup by (apply Hslot; lia).
      by rewrite !decide_False. }
    assert (Hfs1k : ∀ d, fs1 !! (d, slot_name k) = fs !! (d, t)).
    { intros d. subst fs1. rewrite renamed_lookup by (apply Hslot; lia).
      rewrite decide_False by (symmetry; apply Hslot; lia).
      rewrite decide_True by done.
      destruct (present3_all fs t d (good_present3 _ _ _ Hgood)) as [f ->]. done. }
    assert (Hfs1t : ∀ d, fs1 !! (d, t) = None).
    { intros d. subst fs1. rewrite renamed_lookup by (apply Hslot; lia).
      by rewrite decide_True. }
    destruct (IH (k + 1) fs1 m1 tk (tr ++ tr1) Hnd)
      as (fs' & m' & tr' & Hrun & Hnew & Hframe & Hgone & Hmframe & Hmgone & Hknown).
    { intros t' Ht'. destruct (Hoth t') as (Hn' & Hg' & Hs'); [by right|].
      assert (t' ≠ t) by (by intros ->).
      split; [done|]. split.
      - rewrite <- Hg'. apply good_ext. intros d.
        apply Hfs1; [done|]. apply Hts; [done|lia].
      - rewrite Hm1; [done..|]. apply Hts; [done|lia]. }
    { intros j Hj. rewrite Hfs1; [apply Hfree; lia|symmetry; apply Hslot; lia|].
      intros E%slot_name_inj; lia. }
    { intros j Hj. rewrite Hm1; [apply Hmfree; lia|symmetry; apply Hslot; lia|].
      intros E%slot_name_inj; lia. }
    { lia. }
    exists fs', m', tr'. cbn [length]. rewrite Nat2Z.inj_succ.
    split; [rewrite Hrun; do 3 f_equal; lia|].
    assert (Hk_ts : slot_name k ∉ ts).
    { intros Hin. by apply (Hts _ k Hin). }
    assert (Hk_new : ∀ j, k + 1 ≤ j < k + 1 + Z.of_nat (length ts) →
                          slot_name k ≠ slot_name j).
    { intros j Hj E%slot_name_inj; lia. }
    split; [|split; [|split; [|split; [|split]]]].
    + intros j Hj. destruct (decide (j = k)) as [->|Hne].
      * split.
        -- rewrite <- Hgood. apply good_moved. intros d.
           rewrite Hframe by done. apply Hfs1k.
        -- rewrite Hmframe by done. rewrite Hm1k. eauto.
      * apply Hnew. lia.
    + intros d x Hx Hxs.
      rewrite Hframe.
      * apply Hfs1; [intros ->; apply Hx; by left|apply Hxs; lia].
      * intros ?. apply Hx. by right.
      * intros j Hj. apply Hxs. lia.
    + intros d t' [->|Ht']%elem_of_cons; [|by apply Hgone].
      rewrite Hframe; [apply Hfs1t|done|]. intros j Hj. apply Hslot. lia.
    + intros key Hkey Hks.
      rewrite Hmframe.
      * apply Hm1; [intros ->; apply Hkey; by left|apply Hks; lia].
      * intros ?. apply Hkey. by right.
      * intros j Hj. apply Hks. lia.
    + intros t' [->|Ht']%elem_of_cons; [|by apply Hmgone].
      rewrite Hmframe; [apply Hm1t|done|]. intros j Hj. apply Hslot. lia.
    + rewrite Hknown. apply known_rekey. apply Hmfree. lia.
Qed.

Lemma update_config_spec total (m : gmap string string) fs tk tr :
  (∀ p, save_fails w p = false) →
  update_config_and_manifest w total m (State fs tk tr)
  = (State (<[(full, MANIFEST_FILENAME) := File (clock w (S tk)) (Manifest m)]>
              (<[(full, CONFIG_FILENAME) :=
                   File (clock w tk) (Config total (clock w tk))]> fs))
           (S (S tk))
           (tr ++ [EvDump (full, CONFIG_FILENAME);
                   EvDump (full, MANIFEST_FILENAME)]), inr tt).
Proof.
  intros Hsave. unfold update_config_and_manifest. cbn [DRY_RUN].
  unfold bind, time_now, write_file. cbn [files ticks trace].
  rewrite !Hsave. cbn [files ticks trace]. by rewrite <- app_assoc.
Qed.

End Standardize.

Lemma known_mono (m m' : gmap string string) v :
  m ⊆ m' → v ∈ known m → v ∈ known m'.
Proof.
  intros Hsub. unfold known. rewrite !elem_of_map_img.
  intros [k Hk]. exists k. by eapply lookup_weaken.
Qed.

Lemma settled_good timed fs n : settled_at fs n = true → good timed fs n = true.
Proof. destruct timed; [done|apply settled_present3]. Qed.

Lemma passive_mono (m m' : gmap string string) n :
  (∀ v, v ∈ known m → v ∈ known m') → passive m n = true → passive m' n = true.
Proof.
  intros Hsub. unfold passive. intros [H1 H2]%andb_true_iff.
  apply andb_true_iff. split; [done|].
  apply orb_true_iff in H2 as [H2|H2]; apply orb_true_iff; [by left|right].
  apply bool_decide_eq_true. apply bool_decide_eq_true in H2. by apply Hsub.
Qed.

Lemma passive_not_webp m n : passive m n = true → is_webp n = false.
Proof. unfold passive. intros [H _]%andb_true_iff. by apply negb_true_iff. Qed.

Section Run.
Context (w : world) (timed : bool).
Context (Hlist : listing_ok w) (Hpool : pool_ok w).
Context (Hsave : ∀ p, save_fails w p = false).
Context (Hren : ∀ s t, rename_fails w s t = false).

Lemma conversion_phase_spec fs0 tk0 tr0 K news :
  ready fs0 K news →
  (timed = true → clock_ok w) →
  (timed = true → ∀ n, n ∈ news → timely (clock w tk0) fs0 n = true) →
  ∃ fs1 tk1 tr1 m1,
    conversion_phase w (State fs0 tk0 tr0) = (State fs1 tk1 tr1, inr m1)
    ∧ pool_inv timed fs0 tk0 K news [] fs1 tk1 m1.
Proof.
  intros Hready Hclock Htimely. unfold conversion_phase.
  destruct (load_manifest_spec fs0 tk0 tr0) as (ev1 & Hload & _).
  unfold bind at 1. rewrite Hload.
  destruct (gather_tasks_spec w (stored_manifest fs0) fs0 tk0 (tr0 ++ ev1) Hlist)
    as (names & ev2 & Hgather & _ & Hnd & Hnames).
  unfold bind at 1. rewrite Hgather.
  destruct (Permutation_map_inv _ _ (Hpool (task_of <$> names)))
    as (rs & Hrs & Hperm).
  change ((λ f, Task (full, f) f false) <$> names) with (task_of <$> names).
  change (@fmap list _ _ _ task_of names) with (map task_of names) in *.
  rewrite Hrs. change (map task_of rs) with (task_of <$> rs).
  assert (Hrs_names : ∀ n, n ∈ rs ↔ is_Some (fs0 !! (full, n))
                       ∧ glob_hit n = true ∧ n ∉ known (stored_manifest fs0)).
  { intros n. rewrite <- Hnames. by rewrite Hperm. }
  apply (pool_spec w timed fs0 tk0 K news Hready Hsave Hclock Htimely).
  - by rewrite <- Hperm.
  - by eapply pool_kinds.
  - by eapply pool_inv_init.
Qed.

Lemma standardize_phase_spec fs0 tk0 K news fs1 tk1 tr1 m1 :
  ready fs0 K news →
  pool_inv timed fs0 tk0 K news [] fs1 tk1 m1 →
  ∃ fs2 tr2 m2,
    standardize_names_and_fill_gaps w m1 (State fs1 tk1 tr1)
    = (State fs2 tk1 tr2, inr (K + Z.of_nat (length news), m2))
    ∧ run_post timed fs2 (stored_manifest fs0) m2 news
        (K + Z.of_nat (length news)).
Proof.
  intros Hready Hinv.
  pose proof (ready_K _ _ _ Hready) as HK.
  assert (Hkind0 : ∀ x, is_Some (fs0 !! (full, x)) →
            x ∈ news ∨ x ∈ slot_names K
            ∨ passive (stored_manifest fs0) x = true).
  { intros x Hx. pose proof (ready_root _ _ _ Hready) as H.
    rewrite Forall_forall in H. by apply H, elem_of_root_names. }
  assert (Hroot1 : ∀ x, is_Some (fs1 !! (full, x)) →
            is_Some (fs0 !! (full, x))
            ∨ ∃ n, n ∈ news ∧ x = final_name_of n).
  { intros x Hx. apply (pi_root _ _ _ _ _ _ _ _ _ Hinv) in Hx
      as [?|(n & ? & _ & ?)]; eauto. }
  assert (Hdone : ∀ n, n ∈ news →
            good timed fs1 (final_name_of n) = true
            ∧ m1 !! final_name_of n = Some n).
  { intros n Hn. apply (pi_done _ _ _ _ _ _ _ _ _ Hinv n Hn), not_elem_of_nil. }
  assert (Hslot1 : ∀ k d, 1 ≤ k ≤ K →
            fs1 !! (d, slot_name k) = fs0 !! (d, slot_name k)).
  { apply Hinv. }
  assert (Hnumeric : ∀ x, is_Some (fs1 !! (full, x)) → is_webp x = true →
            numeric x = true → x ∈ slot_names K).
  { intros x Hx Hw Hn. destruct (Hroot1 x Hx) as [H0|(n & Hin & ->)].
    - destruct (Hkind0 x H0) as [Hin|[?|Hp]]; [|done|].
      + destruct (news_facts fs0 K news Hready x Hin)
          as (_&_&_&_&_&_&Hnn&Hself&_).
        rewrite Hself in Hnn by done. congruence.
      + apply passive_not_webp in Hp. congruence.
    - destruct (news_facts fs0 K news Hready n Hin) as (_&_&_&_&_&_&Hnn&_).
      congruence. }
  assert (Htarget : ∀ x, is_Some (fs1 !! (full, x)) → is_webp x = true →
            numeric x = false → ∃ n, n ∈ news ∧ x = final_name_of n).
  { intros x Hx Hw Hn. destruct (Hroot1 x Hx) as [H0|?]; [|done].
    destruct (Hkind0 x H0) as [Hin|[Hs|Hp]].
    - destruct (news_facts fs0 K news Hready x Hin)
        as (_&_&_&_&_&_&_&Hself&_). exists x. split; [done|].
      symmetry. by apply Hself.
    - apply elem_of_slot_names in Hs as (k & -> & Hk).
      rewrite numeric_slot_name in Hn by lia. done.
    - apply passive_not_webp in Hp. congruence. }
  destruct (standardize_reduce w Hlist fs1 tk1 tr1 m1 K HK) as
    (others & Hred & Hnd & Hothers).
  { intros k Hk. rewrite Hslot1 by done.
    by apply settled_root, (slot_settled0 fs0 K news Hready). }
  { done. }
  assert (Hoth_news : ∀ t, t ∈ others ↔ ∃ n, n ∈ news ∧ t = final_name_of n).
  { intros t. rewrite Hothers. split.
    - intros (Hx & Hw & Hn). by apply Htarget.
    - intros (n & Hn & ->). destruct (Hdone n Hn) as [Hg _].
      destruct (news_facts fs0 K news Hready n Hn) as (_&_&_&_&_&_&Hnn&_).
      split; [|split; [apply is_webp_final_name|done]].
      by apply present3_all, good_present3 with timed. }
  assert (Hlen : length others = length news).
  { rewrite <- (length_fmap final_name_of news).
    apply Permutation_length, NoDup_Permutation;
      [done|apply Hready|].
    intros t. rewrite Hoth_news, list_elem_of_fmap.
    split; intros (n & ? & ?); eauto. }
  destruct (rename_others_spec w timed Hren others (K + 1) fs1 m1 tk1
              (tr1 ++ [EvList full]) Hnd)
    as (fs2 & m2 & tr2 & Hrun & Hnew & Hframe & Hgone & Hmframe & Hmgone & Hknown).
  { intros t (n & Hn & ->)%Hoth_news. destruct (Hdone n Hn) as [Hg Hm].
    destruct (news_facts fs0 K news Hready n Hn) as (_&_&_&_&_&_&Hnn&_).
    rewrite Hm. eauto. }
  { intros j Hj. destruct (fs1 !! (full, slot_name j)) eqn:E; [|done].
    assert (Hs : slot_name j ∈ slot_names K).
    { apply Hnumeric; [eauto|apply is_webp_slot_name|].
      apply numeric_slot_name. lia. }
    apply elem_of_slot_names in Hs as (k & Ek & Hk).
    apply slot_name_inj in Ek; lia. }
  { intros j Hj. destruct (m1 !! slot_name j) eqn:E; [|done].
    destruct (pi_keys _ _ _ _ _ _ _ _ _ Hinv (slot_name j))
      as [Hs|(n & Hn & _ & En)]; [eauto| |].
    - apply elem_of_slot_names in Hs as (k & Ek & Hk).
      apply slot_name_inj in Ek; lia.
    - exfalso. symmetry in En. revert En.
      apply (final_not_slot fs0 K news Hready); [done|lia]. }
  { lia. }
  rewrite Hlen in *.
  set (N := Z.of_nat (length news)) in *.
  assert (Hold_slot : ∀ k d, 1 ≤ k ≤ K →
            fs2 !! (d, slot_name k) = fs0 !! (d, slot_name k)).
  { intros k d Hk. rewrite Hframe; [by apply Hslot1| |].
    - intros (n & Hn & En)%Hoth_news. symmetry in En. revert En.
      apply (final_not_slot fs0 K news Hready); [done|lia].
    - intros j Hj E%slot_name_inj; lia. }
  assert (Hnot_oth : ∀ x, is_webp x = false → x ∉ others).
  { intros x Hx (n & _ & ->)%Hoth_news. by rewrite is_webp_final_name in Hx. }
  assert (Hnot_new : ∀ x j, is_webp x = false → x ≠ slot_name j).
  { intros x j Hx ->. by rewrite is_webp_slot_name in Hx. }
  assert (Hnames : ∀ x, is_Some (fs2 !! (full, x)) → is_webp x = true →
            x ∈ slot_names (K + N)).
  { intros x Hx Hw.
    destruct (decide (x ∈ others)) as [Hin|Hin].
    { rewrite (Hgone full x Hin) in Hx. by destruct Hx. }
    destruct (decide (x ∈ slot_names (K + N))) as [?|Hns]; [done|].
    rewrite Hframe in Hx; [|done|].
    - destruct (numeric x) eqn:Hn.
      + apply Hnumeric in Hx; [|done..].
        apply elem_of_slot_names in Hx as (k & -> & Hk).
        apply elem_of_slot_names. exists k. split; [done|lia].
      + destruct Hin. apply Hothers. done.
    - intros j Hj ->. apply Hns, elem_of_slot_names. exists j.
      split; [done|lia]. }
  exists fs2, tr2, m2. split.
  { rewrite Hred. unfold bind. rewrite Hrun. unfold ret. cbn [fst snd].
    do 3 f_equal. lia. }
  split.
  - intros x. split; [by intros [??]; apply Hnames|].
    intros (k & -> & Hk)%elem_of_slot_names.
    split; [|apply is_webp_slot_name].
    destruct (decide (k ≤ K)).
    + rewrite Hold_slot by lia.
      apply settled_root, (slot_settled0 fs0 K news Hready). lia.
    + destruct (Hnew k) as [Hg _]; [lia|].
      by apply present3_all, good_present3 with timed.
  - intros k Hk. destruct (decide (k ≤ K)).
    + rewrite (good_ext timed fs0); [|intros d; apply Hold_slot; lia].
      apply settled_good, (slot_settled0 fs0 K news Hready). lia.
    + apply Hnew. lia.
  - intros key Hsome.
    destruct (decide (key ∈ others)) as [Hin|Hin].
    { rewrite (Hmgone key Hin) in Hsome. by destruct Hsome. }
    destruct (decide (key ∈ slot_names (K + N))) as [?|Hns]; [done|].
    rewrite Hmframe in Hsome; [|done|].
    + destruct (pi_keys _ _ _ _ _ _ _ _ _ Hinv key Hsome)
        as [Hs|(n & Hn & _ & ->)].
      * apply elem_of_slot_names in Hs as (k & -> & Hk).
        apply elem_of_slot_names. exists k. split; [done|lia].
      * destruct Hin. apply Hoth_news. eauto.
    + intros j Hj ->. apply Hns, elem_of_slot_names. exists j.
      split; [done|lia].
  - unfold tracked. apply Forall_forall. intros k Hk%elem_of_seqZ.
    destruct (decide (k ≤ K)).
    + destruct (pi_tracked _ _ _ _ _ _ _ _ _ Hinv k) as [Hs|Hv];
        [lia|apply not_elem_of_nil| |].
      * left. rewrite Hmframe; [done| |].
        -- intros (n & Hn & En)%Hoth_news. symmetry in En. revert En.
           apply (final_not_slot fs0 K news Hready); [done|lia].
        -- intros j Hj E%slot_name_inj; lia.
      * right. rewrite Hknown.
        eapply known_mono; [apply Hinv|done].
    + left. apply Hnew. lia.
  - intros v Hv. rewrite Hknown. eapply known_mono; [apply Hinv|done].
  - intros x Hx. destruct (is_webp x) eqn:Hw; [left; by apply Hnames|].
    right. rewrite Hframe in Hx; [|by apply Hnot_oth|intros; by apply Hnot_new].
    destruct (Hroot1 x Hx) as [H0|(n & _ & ->)];
      [|by rewrite is_webp_final_name in Hw].
    destruct (Hkind0 x H0) as [Hin|[Hs|Hp]].
    + unfold passive. rewrite Hw. cbn [negb andb].
      apply orb_true_iff. right. apply bool_decide_eq_true.
      rewrite Hknown. unfold known. apply elem_of_map_img.
      exists (final_name_of x). by apply Hdone.
    + apply elem_of_slot_names in Hs as (k & -> & _).
      by rewrite is_webp_slot_name in Hw.
    + eapply passive_mono; [|done]. intros v Hv. rewrite Hknown.
      eapply known_mono; [apply Hinv|done].
Qed.

End Run.

Lemma wrote_json_other w tk total m fs d x :
  is_webp x = true → wrote_json w tk total m fs !! (d, x) = fs !! (d, x).
Proof.
  intros Hx. unfold wrote_json.
  rewrite !lookup_insert_ne; [done| |]; intros [= _ <-]; done.
Qed.

Lemma wrote_json_root w tk total m fs x :
  is_Some (wrote_json w tk total m fs !! (full, x)) →
  x = MANIFEST_FILENAME ∨ x = CONFIG_FILENAME ∨ is_Some (fs !! (full, x)).
Proof.
  unfold wrote_json. intros H.
  destruct (decide (x = MANIFEST_FILENAME)) as [|H1]; [by left|].
  destruct (decide (x = CONFIG_FILENAME)) as [|H2]; [by right; left|].
  rewrite !lookup_insert_ne in H by congruence. by right; right.
Qed.

Lemma stored_manifest_wrote_json w tk total m fs :
  stored_manifest (wrote_json w tk total m fs) = m.
Proof. unfold stored_manifest, wrote_json. by rewrite lookup_insert_eq. Qed.

Lemma stored_total_wrote_json w tk total m fs :
  stored_total (wrote_json w tk total m fs) = Some total.
Proof.
  unfold stored_total, wrote_json.
  rewrite lookup_insert_ne by done. by rewrite lookup_insert_eq.
Qed.

Lemma ready_after w tk total fs2 m0 m2 news T :
  0 ≤ T → run_post true fs2 m0 m2 news T →
  ready (wrote_json w tk total m2 fs2) T [] ∧ tracked m2 T.
Proof.
  intros HT Hp. split; [|apply Hp]. split.
  - done.
  - apply Forall_forall. intros k Hk%elem_of_seqZ.
    rewrite (settled_at_ext fs2).
    + apply (rp_good _ _ _ _ _ _ Hp k). lia.
    + intros d. apply wrote_json_other, is_webp_slot_name.
  - constructor.
  - constructor.
  - apply Forall_forall. intros x Hx%elem_of_root_names. right.
    rewrite stored_manifest_wrote_json.
    apply wrote_json_root in Hx as [->|[->|Hx]]; [by right|by right|].
    destruct (rp_root _ _ _ _ _ _ Hp x Hx) as [?|?]; [by left|by right].
  - rewrite stored_manifest_wrote_json. intros key v Hv.
    apply (rp_keys _ _ _ _ _ _ Hp). eauto.
Qed.

Section TwoRuns.
Context (w : world).
Context (Hlist : listing_ok w) (Hpool : pool_ok w).
Context (Hsave : ∀ p, save_fails w p = false).
Context (Hren : ∀ s t, rename_fails w s t = false).

Lemma process_directory_eq st st1 m1 st2 total m2 :
  conversion_phase w st = (st1, inr m1) →
  standardize_names_and_fill_gaps w m1 st1 = (st2, inr (total, m2)) →
  process_directory w st = update_config_and_manifest w total m2 st2.
Proof.
  intros H1 H2. unfold process_directory, bind. by rewrite H1, H2.
Qed.

(** One run on a ready root. *)
Lemma run_spec timed fs0 tk0 tr0 K news :
  ready fs0 K news →
  (timed = true → clock_ok w) →
  (timed = true → ∀ n, n ∈ news → timely (clock w tk0) fs0 n = true) →
  let T := K + Z.of_nat (length news) in
  ∃ fs1 tk1 tr1 m1 fs2 tr2 m2 tr3,
    conversion_phase w (State fs0 tk0 tr0) = (State fs1 tk1 tr1, inr m1)
    ∧ standardize_names_and_fill_gaps w m1 (State fs1 tk1 tr1)
      = (State fs2 tk1 tr2, inr (T, m2))
    ∧ process_directory w (State fs0 tk0 tr0)
      = (State (wrote_json w tk1 T m2 fs2) (S (S tk1)) tr3, inr tt)
    ∧ run_post timed fs2 (stored_manifest fs0) m2 news T.
Proof.
  intros Hready Hclock Htimely T.
  destruct (conversion_phase_spec w timed Hlist Hpool Hsave fs0 tk0 tr0 K news
              Hready Hclock Htimely) as (fs1 & tk1 & tr1 & m1 & Hconv & Hinv).
  destruct (standardize_phase_spec w timed Hlist Hren fs0 tk0 K news fs1 tk1 tr1
              m1 Hready Hinv) as (fs2 & tr2 & m2 & Hstd & Hpost).
  exists fs1, tk1, tr1, m1, fs2, tr2, m2. eexists.
  split; [done|]. split; [done|]. split; [|done].
  rewrite (process_directory_eq _ _ _ _ _ _ Hconv Hstd).
  by apply update_config_spec.
Qed.

Lemma pool_quiet rs : ∀ fs tk tr (m : gmap string string),
  (∀ r, r ∈ rs → settled_at fs r = true ∧ final_name_of r = r
                 ∧ is_Some (m !! r)) →
  ∃ evs, run_pool w (task_of <$> rs) m (State fs tk tr)
         = (State fs tk (tr ++ evs), inr m)
         ∧ quiet evs.
Proof.
  induction rs as [|r rs IH]; intros fs tk tr m Hrs.
  - exists []. rewrite app_nil_r. split; [done|constructor].
  - destruct (Hrs r) as (Hs & Hf & [v Hv]); [by left|].
    destruct (convert_settled w fs tk tr r Hs Hf) as (ev1 & Hc & Hq1).
    rewrite fmap_cons. cbn [run_pool]. unfold bind at 1.
    unfold task_of at 1. rewrite Hc.
    cbn [record]. rewrite Hv.
    destruct (IH fs tk (tr ++ ev1) m) as (ev2 & -> & Hq2).
    { intros r' Hr'. apply Hrs. by right. }
    exists (ev1 ++ ev2). rewrite app_assoc. split; [done|by apply quiet_app].
Qed.

(** A run on a root of settled, tracked slots and passive entries: nothing
    is converted and nothing renamed; only the two JSON files are written. *)
Lemma quiet_run fs tk tr K :
  ready fs K [] → tracked (stored_manifest fs) K →
  ∃ evs,
    process_directory w (State fs tk tr)
    = (State (wrote_json w tk K (stored_manifest fs) fs) (S (S tk))
             (tr ++ evs), inr tt)
    ∧ quiet evs.
Proof.
  intros Hready Htracked. set (m := stored_manifest fs) in *.
  pose proof (ready_K _ _ _ Hready) as HK.
  assert (Hkind : ∀ x, is_Some (fs !! (full, x)) →
            x ∈ slot_names K ∨ passive m x = true).
  { intros x Hx. pose proof (ready_root _ _ _ Hready) as H.
    rewrite Forall_forall in H.
    destruct (H x) as [[]%elem_of_nil|?]; [by apply elem_of_root_names|done]. }
  destruct (load_manifest_spec fs tk tr) as (ev1 & Hload & Hq1).
  fold m in Hload.
  destruct (gather_tasks_spec w m fs tk (tr ++ ev1) Hlist)
    as (names & ev2 & Hgather & Hq2 & Hnd & Hnames).
  destruct (Permutation_map_inv _ _ (Hpool (task_of <$> names)))
    as (rs & Hrs & Hperm).
  destruct (pool_quiet rs fs tk ((tr ++ ev1) ++ ev2) m) as (ev3 & Hrun & Hq3).
  { intros r Hr. rewrite <- Hperm in Hr.
    apply Hnames in Hr as (Hroot & Hhit & Hknown).
    destruct (Hkind r Hroot) as [Hs|Hp].
    - apply elem_of_slot_names in Hs as (k & -> & Hk).
      split; [|split].
      + apply (slot_settled0 fs K [] Hready). lia.
      + apply final_name_slot. lia.
      + unfold tracked in Htracked. rewrite Forall_forall in Htracked.
        destruct (Htracked k) as [?|?]; [apply elem_of_seqZ; lia|done|done].
    - unfold passive in Hp. apply andb_true_iff in Hp as [_ Hp].
      rewrite Hhit in Hp. cbn in Hp. by apply bool_decide_eq_true in Hp. }
  assert (Hconv : conversion_phase w (State fs tk tr)
                  = (State fs tk (((tr ++ ev1) ++ ev2) ++ ev3), inr m)).
  { unfold conversion_phase. unfold bind at 1. rewrite Hload.
    unfold bind at 1. rewrite Hgather.
    change ((λ f, Task (full, f) f false) <$> names) with (task_of <$> names).
    change (@fmap list _ _ _ task_of names) with (map task_of names) in *.
    rewrite Hrs. exact Hrun. }
  destruct (standardize_reduce w Hlist fs tk (((tr ++ ev1) ++ ev2) ++ ev3) m K HK)
    as (others & Hred & _ & Hothers).
  { intros k Hk. apply settled_root, (slot_settled0 fs K [] Hready). lia. }
  { intros f Hf Hw Hn. destruct (Hkind f Hf) as [?|Hp]; [done|].
    apply passive_not_webp in Hp. congruence. }
  assert (others = []) as ->.
  { destruct others as [|t ts]; [done|].
    destruct (Hothers t) as [(Hf & Hw & Hn) _]; [by left|].
    destruct (Hkind t Hf) as [Hs|Hp].
    - apply elem_of_slot_names in Hs as (k & -> & Hk).
      rewrite numeric_slot_name in Hn by lia. done.
    - apply passive_not_webp in Hp. congruence. }
  assert (Hstd : standardize_names_and_fill_gaps w m
                   (State fs tk (((tr ++ ev1) ++ ev2) ++ ev3))
                 = (State fs tk ((((tr ++ ev1) ++ ev2) ++ ev3) ++ [EvList full]),
                    inr (K, m))).
  { rewrite Hred. cbn [rename_others]. rewrite bind_ret. unfold ret.
    cbn [fst snd]. do 3 f_equal. lia. }
  rewrite (process_directory_eq _ _ _ _ _ _ Hconv Hstd).
  rewrite update_config_spec by done.
  exists (ev1 ++ ev2 ++ ev3 ++ [EvList full]
          ++ [EvDump (full, CONFIG_FILENAME); EvDump (full, MANIFEST_FILENAME)]).
  split; [by rewrite <- !app_assoc|].
  repeat apply quiet_app; try done; by repeat constructor.
Qed.

End TwoRuns.

(** The example world is a valid one. *)
Lemma plain_world_pool_ok : pool_ok plain_world.
Proof. intros ts. reflexivity. Qed.

Lemma plain_world_clock_ok : clock_ok plain_world.
Proof. intros n. cbn. lia. Qed.

Lemma plain_world_no_faults : no_faults plain_world.
Proof. split; intros; reflexivity. Qed.

Lemma two_sources_ready : ready two_sources 0 ["a.png"; "b.webp"].
Proof.
  split.
  - lia.
  - constructor.
  - repeat constructor; vm_compute; reflexivity.
  - apply (bool_decide_unpack _). vm_compute. reflexivity.
  - apply (bool_decide_unpack _). vm_compute. reflexivity.
  - intros key v Hv. vm_compute in Hv. discriminate Hv.
Qed.







(** * Further properties *)

(** ** What the worker touches *)

Global Instance worker_effect_preorder final : PreOrder (worker_effect final).
Proof.
  split.
  - intros st. split; [|done]. exists []. by rewrite app_nil_r.
  - intros a b c [(t1 & E1 & F1) [H1 G1]] [(t2 & E2 & F2) [H2 G2]].
    split; [|split].
    + exists (t1 ++ t2). rewrite E2, E1, app_assoc. split; [done|].
      by apply Forall_app.
    + intros d n Hn. by rewrite H2, H1.
    + intros p Hp. by apply G2, G1.
Qed.

Lemma worker_effect_log final st e :
  read_event e →
  worker_effect final st (State (files st) (ticks st) (trace st ++ [e])).
Proof.
  intros He. split; [|done]. exists [e]. split; [done|].
  constructor; [|constructor]. by destruct e.
Qed.

Lemma worker_effect_save final d st f tk :
  worker_effect final st
    (State (<[(d, final) := f]> (files st)) tk
           (trace st ++ [EvSave (d, final)])).
Proof.
  split; [|split].
  - eexists. split; [done|]. by repeat constructor.
  - intros d' n Hn. cbn [files]. rewrite lookup_insert_ne; [done|congruence].
  - intros p Hp. cbn [files]. destruct (decide (p = (d, final))) as [->|Hne].
    + rewrite lookup_insert_eq. eauto.
    + by rewrite lookup_insert_ne.
Qed.

(** Step 1 writes to the full tier only. *)
Lemma respects_write_full (w : world) (R : relation state) `{!PreOrder R}
    src final :
  (∀ st e, read_event e →
           R st (State (files st) (ticks st) (trace st ++ [e]))) →
  (∀ st f, R st (State (<[(full, final) := f]> (files st)) (S (ticks st))
                       (trace st ++ [EvSave (full, final)]))) →
  respects R (write_full w src final).
Proof.
  intros Hlog Hsave. unfold write_full.
  apply respects_bind; [done|by apply respects_getmtime|]. intros src_mtime.
  apply respects_bind; [done|by apply respects_path_exists|]. intros e.
  apply respects_bind; [done| |intros needs_process].
  { destruct e; [|by apply respects_ret].
    apply respects_bind; [done|by apply respects_getmtime|]. intros dst_mtime.
    by apply respects_ret. }
  destruct (needs_process || _); [|by apply respects_ret].
  apply respects_bind; [done|by apply respects_image_open|]. intros img.
  destruct (negb _); [|by apply respects_ret].
  by apply respects_write_file.
Qed.

Lemma effect_write_full (w : world) src final :
  respects (worker_effect final) (write_full w src final).
Proof.
  apply respects_write_full; [apply _|apply worker_effect_log|].
  intros. apply worker_effect_save.
Qed.

Lemma effect_write_half (w : world) final :
  respects (worker_effect final) (write_half w final).
Proof.
  apply respects_write_half; [apply _|apply worker_effect_log|].
  intros. apply worker_effect_save.
Qed.

Lemma effect_write_quarter (w : world) final :
  respects (worker_effect final) (write_quarter w final).
Proof.
  apply respects_write_quarter; [apply _|apply worker_effect_log|].
  intros. apply worker_effect_save.
Qed.

Lemma effect_convert_steps (w : world) src final :
  respects (worker_effect final) (convert_steps w src final).
Proof.
  unfold convert_steps.
  apply respects_bind; [apply _|apply effect_write_full|intros _].
  apply respects_bind; [apply _|apply effect_write_half|intros _].
  apply effect_write_quarter.
Qed.

Lemma effect_convert_and_resize (w : world) t :
  respects (worker_effect (final_name_of (filename t)))
    (convert_and_resize w t).
Proof.
  unfold convert_and_resize, convert_body.
  apply respects_try_with; [apply _| |intros _; rsp respects_ret].
  apply respects_bind; [apply _| |intros r; rsp respects_ret].
  destruct (is_dry_run t); [rsp respects_ret|].
  apply respects_bind; [apply _|apply effect_convert_steps|].
  intros _. rsp respects_ret.
Qed.

(** The result of the worker is the failure value or the pair of names. *)
Lemma convert_and_resize_result (w : world) t st :
  ∃ st' r, convert_and_resize w t st = (st', inr r)
           ∧ (r = None ∨ r = Some (final_name_of (filename t), filename t)).
Proof.
  unfold convert_and_resize, try_with, convert_body, bind, ret.
  destruct (is_dry_run t); [eauto 6|].
  destruct (convert_steps w _ _ st) as [st' [e|[]]]; eauto 6.
Qed.

Ltac run_io :=
  unfold needs_update, path_exists, getmtime, image_open, image_save,
    write_file in *;
  unfold bind, ret, log in *;
  cbn [files ticks trace] in *.

Ltac close_io :=
  repeat case_match; simplify_eq; cbn [files ticks trace];
  rewrite ?lookup_insert_eq; eauto.

Lemma write_full_ok (w : world) src final st st' :
  write_full w src final st = (st', inr tt) →
  is_Some (files st' !! (full, final)).
Proof.
  unfold write_full, path_eqb. run_io. intros H.
  destruct (files st !! src) as [fsrc|] eqn:Hsrc;
    cbn [files ticks trace] in H; [|done].
  destruct (files st !! (full, final)) as [g|] eqn:Hg.
  - rewrite bool_decide_eq_true_2 in H by eauto.
    cbn [files ticks trace] in H. rewrite Hg, ?Hsrc in H.
    destruct (_ || _); cbn [files ticks trace] in H;
      rewrite ?Hsrc in H; close_io.
  - rewrite bool_decide_eq_false_2 in H by (by intros [? ?]).
    cbn [files ticks trace orb] in H. rewrite Hsrc in H.
    rewrite bool_decide_eq_false_2 in H by congruence.
    cbn [negb] in H. close_io.
Qed.

Lemma write_half_ok (w : world) final st st' :
  write_half w final st = (st', inr tt) →
  is_Some (files st' !! (half, final)).
Proof.
  unfold write_half. run_io. intros H.
  destruct (files st !! (half, final)) as [h|] eqn:Hh.
  - rewrite bool_decide_eq_true_2 in H by eauto.
    cbn [files ticks trace] in H.
    destruct (files st !! (full, final)) as [f|] eqn:Hf;
      cbn [files ticks trace] in H; [|done].
    rewrite Hh in H. cbn [files ticks trace] in H.
    destruct (negb _); cbn [files ticks trace] in H; rewrite ?Hf in H;
      close_io.
  - rewrite bool_decide_eq_false_2 in H by (by intros [? ?]).
    cbn [files ticks trace] in H. close_io.
Qed.

Lemma write_quarter_ok (w : world) final st st' :
  write_quarter w final st = (st', inr tt) →
  is_Some (files st !! (half, final)) →
  is_Some (files st' !! (quarter, final)).
Proof.
  unfold write_quarter. run_io. intros H [h Hh].
  destruct (files st !! (quarter, final)) as [q|] eqn:Hq.
  - rewrite bool_decide_eq_true_2 in H by eauto.
    cbn [files ticks trace] in H. rewrite Hh in H.
    cbn [files ticks trace] in H. rewrite Hq in H.
    cbn [files ticks trace] in H.
    destruct (negb _); cbn [files ticks trace] in H.
    + rewrite bool_decide_eq_true_2 in H by eauto.
      cbn [files ticks trace] in H. rewrite Hh in H. close_io.
    + close_io.
  - rewrite bool_decide_eq_false_2 in H by (by intros [? ?]).
    cbn [files ticks trace] in H.
    rewrite bool_decide_eq_true_2 in H by eauto.
    cbn [files ticks trace] in H. rewrite Hh in H. close_io.
Qed.

(** X1. A worker that reports success has left all three tiers behind: its
    result is the pair [(final_name, filename)], and the full, half and
    quarter files of [final_name] exist. *)
Theorem worker_success_leaves_three_tiers (w : world) src fn st st' r :
  convert_and_resize w (Task src fn false) st = (st', inr (Some r)) →
  r = (final_name_of fn, fn)
  ∧ present3 (files st') (final_name_of fn) = true.
Proof.
  rewrite convert_and_resize_eq. set (final := final_name_of fn).
  unfold convert_steps, bind.
  destruct (write_full w src final st) as [st1 [e|[]]] eqn:H1; [done|].
  destruct (write_half w final st1) as [st2 [e|[]]] eqn:H2; [done|].
  destruct (write_quarter w final st2) as [st3 [e|[]]] eqn:H3; [done|].
  intros [= <- <-]. split; [done|].
  pose proof (write_full_ok _ _ _ _ _ H1) as F1.
  pose proof (write_half_ok _ _ _ _ H2) as F2.
  pose proof (write_quarter_ok _ _ _ _ H3 F2) as F3.
  assert (E2 : worker_effect final st1 st2).
  { pose proof (effect_write_half w final st1) as H. by rewrite H2 in H. }
  assert (E3 : worker_effect final st2 st3).
  { pose proof (effect_write_quarter w final st2) as H. by rewrite H3 in H. }
  destruct E2 as (_ & _ & G2). destruct E3 as (_ & _ & G3).
  apply G2, G3 in F1. apply G3 in F2.
  unfold present3.
  destruct F1 as [? ->], F2 as [? ->], F3 as [? ->]. done.
Qed.

Lemma worker_success_leaves_three_tiers_witness :
  present3 (files (convert_and_resize plain_world photo_task
                     (State cached_root 10 [])).1) "photo.webp" = true.
Proof.
  refine (proj2 (worker_success_leaves_three_tiers plain_world
                   (full, "photo.png") "photo.png" (State cached_root 10 [])
                   (convert_and_resize plain_world photo_task
                      (State cached_root 10 [])).1
                   ("photo.webp", "photo.png") _)).
  vm_compute. reflexivity.
Defined.

(** X2. Whatever the task and the state, and whether it succeeds or fails,
    the worker only looks at files and saves files named [final_name]: it
    issues no rename and no JSON write, every file with another name keeps
    its content in all three trees, and no file disappears. *)
Theorem worker_writes_only_its_three_targets (w : world) (t : task)
    (st : state) :
  worker_effect (final_name_of (filename t)) st (convert_and_resize w t st).1.
Proof. apply effect_convert_and_resize. Qed.

(** ** Names *)

Lemma endswith_inv (s suf : string) :
  Str.endswith s suf = true → ∃ a, s = a +:+ suf.
Proof.
  induction s as [|c s IH]; rewrite StrFacts.endswith_unfold.
  - rewrite orb_false_r. intros ->%String.eqb_eq. by exists "".
  - intros [->%String.eqb_eq|H]%orb_true_iff; [by exists ""|].
    destruct (IH H) as [a ->]. by exists (String c a).
Qed.

(** A stem that does not start with a dot, followed by an extension with a
    single, leading dot. *)
Lemma splitext_stem (a ext : string) :
  a ≠ "" → Str.startswith a "." = false → Str.rfind "." ext = Some 0%nat →
  Str.splitext (a +:+ ext) = (a, ext).
Proof.
  intros Ha Hdot Hext. destruct a as [|c a]; [done|].
  assert (Hc : Str.is_dot c = false).
  { unfold Str.startswith in Hdot. cbn [String.prefix] in Hdot.
    unfold Str.is_dot. destruct (Ascii.ascii_dec "." c) as [<-|Hne].
    - by destruct a.
    - apply Ascii.eqb_neq. congruence. }
  unfold Str.splitext.
  rewrite StrFacts.rfind_app, Hext, Nat.add_0_r, StrFacts.substring_app_l.
  cbn [Str.all_chars]. rewrite Hc. cbn [andb].
  rewrite StrFacts.length_app.
  replace (_ + _ - _)%nat with (String.length ext) by lia.
  by rewrite StrFacts.substring_app_r.
Qed.

Lemma startswith_app (a b : string) :
  a ≠ "" → Str.startswith (a +:+ b) "." = Str.startswith a ".".
Proof.
  destruct a as [|c a]; [done|]. intros _. unfold Str.startswith.
  rewrite StrFacts.app_cons. cbn [String.prefix].
  destruct (Ascii.ascii_dec "." c); [|done].
  generalize (a +:+ b). intros s. by destruct s, a.
Qed.

Lemma patterns_shape (e : string) :
  e ∈ patterns →
  Str.rfind "." e = Some 0%nat ∧ Str.startswith e "." = true.
Proof.
  unfold patterns. cbn [flat_map exts app]. intros H.
  repeat (apply elem_of_cons in H as [->|H]; [by vm_compute|]).
  by apply elem_of_nil in H.
Qed.

Lemma final_name_of_glob (ext n : string) :
  ext ∈ patterns → glob_match ext n = true →
  ∃ a, n = a +:+ ext ∧ final_name_of n = a +:+ ".webp".
Proof.
  intros [Hr Hs]%patterns_shape [Hend Hdot%negb_true_iff]%andb_true_iff.
  destruct (endswith_inv _ _ Hend) as [a ->]. exists a. split; [done|].
  assert (Ha : a ≠ "").
  { intros ->. rewrite StrFacts.app_nil in Hdot. congruence. }
  rewrite startswith_app in Hdot by done.
  unfold final_name_of. by rewrite splitext_stem.
Qed.

(** X3. A name matched by one of the eight discovery patterns is a stem
    followed by the extension of the pattern, and its target is that stem
    followed by [.webp]; a name matched by [*.webp] is its own target. *)
Theorem discovered_name_keeps_its_stem (ext n : string) :
  ext ∈ patterns → glob_match ext n = true →
  (∃ a, n = a +:+ ext ∧ final_name_of n = a +:+ ".webp")
  ∧ (ext = ".webp" → final_name_of n = n).
Proof.
  intros Hext Hm. destruct (final_name_of_glob ext n Hext Hm) as (a & -> & E).
  split; [eauto|]. intros ->. done.
Qed.

Lemma discovered_name_keeps_its_stem_witness :
  (∃ a, "a.PNG" = a +:+ ".PNG" ∧ final_name_of "a.PNG" = a +:+ ".webp")
  ∧ (".PNG" = ".webp" → final_name_of "a.PNG" = "a.PNG").
Proof.
  apply (discovered_name_keeps_its_stem ".PNG" "a.PNG").
  - unfold patterns. cbn. do 1 right. by left.
  - vm_compute. reflexivity.
Defined.

(** X4. A source discovered by the [*.webp] pattern whose three tier files
    are in timestamp order (full <= half <= quarter) is left alone: the
    worker succeeds with [(n, n)], issues only reads and changes no file. *)
Theorem settled_webp_source_is_left_alone (w : world) fs tk tr n :
  glob_match ".webp" n = true → settled_at fs n = true →
  ∃ evs, convert_and_resize w (Task (full, n) n false) (State fs tk tr)
         = (State fs tk (tr ++ evs), inr (Some (n, n)))
         ∧ Forall read_event evs.
Proof.
  intros Hm Hs.
  destruct (final_name_of_glob ".webp" n) as (a & -> & E);
    [unfold patterns; cbn; set_solver|done|].
  destruct (convert_settled w fs tk tr _ Hs E) as (evs & Hrun & Hq).
  pose proof (effect_convert_and_resize w
                (Task (full, a +:+ ".webp") (a +:+ ".webp") false)
                (State fs tk tr)) as [(tr' & Htr & Hev) _].
  rewrite Hrun in Htr. cbn [fst trace filename] in Htr, Hev.
  apply app_inv_head in Htr. subst tr'.
  exists evs. split; [done|].
  apply Forall_forall. intros e He.
  pose proof (proj1 (Forall_forall _ _) Hq e He) as Hq'.
  pose proof (proj1 (Forall_forall _ _) Hev e He) as Hev'.
  destruct e; done.
Qed.

Lemma settled_webp_source_is_left_alone_witness :
  ∃ evs,
    convert_and_resize plain_world (Task (full, "photo.webp") "photo.webp" false)
      (State cached_root 10 [])
    = (State cached_root 10 ([] ++ evs), inr (Some ("photo.webp", "photo.webp")))
    ∧ Forall read_event evs.
Proof.
  apply (settled_webp_source_is_left_alone plain_world cached_root 10%nat []
           "photo.webp"); vm_compute; reflexivity.
Defined.

(** ** The staleness test at the two derived tiers *)

Lemma bind_image_open_fails {B} p (k : image → M B) fs tk tr f :
  fs !! p = Some f → decodable f = false →
  bind (image_open p) k (State fs tk tr)
  = (State fs tk (tr ++ [EvOpen p]), inl (UnidentifiedImageError p)).
Proof.
  intros Hp Hd. unfold image_open, bind, log; cbn [files ticks trace].
  rewrite Hp. destruct f as [t []]; done.
Qed.

Lemma bind_image_save_fails (w : world) {B} i p c (k : unit → M B) st :
  save_fails w p = true →
  bind (image_save w i p c) k st = (st, inl (OSError p)).
Proof. intros H. unfold image_save, write_file, bind. by rewrite H. Qed.

(** X5. Steps 2 and 3 regenerate a derived tier exactly when it is missing
    or strictly older than its upstream. With a decodable full tier, the half
    tier is rewritten from it (quality 85) in that case and left as it is
    otherwise; likewise the quarter tier from a decodable half tier
    (quality 80). *)
Theorem derived_tiers_are_rewritten_exactly_when_stale (w : world)
    fs tk tr final :
  (∀ tf cf i,
     fs !! (full, final) = Some (File tf (Encoded cf i)) →
     save_fails w (half, final) = false →
     ∃ tr',
       write_half w final (State fs tk tr)
       = (if match fs !! (half, final) with
             | Some h => negb (tf <=? mtime h)
             | None => true
             end
          then State (<[(half, final) :=
                          File (clock w tk)
                               (Encoded (WebpLossy 85) (half_image i))]> fs)
                     (S tk) tr'
          else State fs tk tr', inr tt))
  ∧ (∀ th ch j,
       fs !! (half, final) = Some (File th (Encoded ch j)) →
       save_fails w (quarter, final) = false →
       ∃ tr',
         write_quarter w final (State fs tk tr)
         = (if match fs !! (quarter, final) with
               | Some q => negb (th <=? mtime q)
               | None => true
               end
            then State (<[(quarter, final) :=
                            File (clock w tk)
                                 (Encoded (WebpLossy 80) (half_image j))]> fs)
                       (S tk) tr'
            else State fs tk tr', inr tt)).
Proof.
  split.
  - intros tf cf i Hf Hsave. unfold write_half.
    destruct (needs_update_spec (full, final) (half, final) fs tk tr _ Hf)
      as [tr1 Hn].
    unfold bind at 1. rewrite Hn. cbn [mtime].
    destruct (match fs !! (half, final) with
              | Some h => negb (tf <=? mtime h)
              | None => true
              end).
    + repeat io_step. eauto.
    + unfold ret. eauto.
  - intros th ch j Hh Hsave. unfold write_quarter.
    destruct (needs_update_spec (half, final) (quarter, final) fs tk tr _ Hh)
      as [tr1 Hn].
    unfold bind at 1. rewrite Hn. cbn [mtime].
    destruct (match fs !! (quarter, final) with
              | Some q => negb (th <=? mtime q)
              | None => true
              end).
    + repeat io_step. eauto.
    + unfold ret. eauto.
Qed.

Lemma derived_tiers_are_rewritten_exactly_when_stale_witness :
  (∃ tr', write_half plain_world "photo.webp" (State cached_root 10 [])
          = (State cached_root 10 tr', inr tt))
  ∧ (∃ tr', write_quarter plain_world "photo.webp" (State cached_root 10 [])
            = (State cached_root 10 tr', inr tt)).
Proof.
  pose proof (derived_tiers_are_rewritten_exactly_when_stale plain_world
                cached_root 10%nat [] "photo.webp") as [H1 H2].
  split.
  - exact (H1 5 WebpLossless (Picture 1 8 6) eq_refl eq_refl).
  - exact (H2 6 (WebpLossy 85) (half_image (Picture 1 8 6)) eq_refl eq_refl).
Defined.

(** X6. A source that exists but does not decode, and is not its own
    target, makes the worker return the failure value without writing any
    file. *)
Theorem undecodable_source_writes_nothing (w : world) fs tk tr src fn f :
  fs !! src = Some f → decodable f = false →
  src ≠ (full, final_name_of fn) →
  ∃ tr', convert_and_resize w (Task src fn false) (State fs tk tr)
         = (State fs tk tr', inr None).
Proof.
  intros Hs Hd Hne. rewrite convert_and_resize_eq.
  unfold convert_steps, write_full, path_eqb.
  rewrite (bool_decide_eq_false_2 _ Hne). cbn [negb].
  destruct (fs !! (full, final_name_of fn)) as [g|] eqn:Hg.
  - repeat io_step. rewrite orb_true_r.
    rewrite ?bind_assoc.
    erewrite bind_image_open_fails by eauto. eauto.
  - repeat io_step. rewrite ?bind_assoc.
    erewrite bind_image_open_fails by eauto. eauto.
Qed.

Lemma undecodable_source_writes_nothing_witness :
  ∃ tr', convert_and_resize plain_world (Task (full, "notes.png") "notes.png" false)
           (State broken_root 0 [])
         = (State broken_root 0 tr', inr None).
Proof.
  apply (undecodable_source_writes_nothing plain_world broken_root 0%nat []
           (full, "notes.png") "notes.png" (File 1 Noise));
    [reflexivity | reflexivity | discriminate].
Defined.

(** X7. There is no rollback: when the half tier is missing and cannot be
    saved, the worker returns the failure value, and the full tier that
    step 1 wrote stays. *)
Theorem failed_half_save_leaves_the_full_tier_behind (w : world)
    fs tk tr src fn t0 c i :
  src ≠ (full, final_name_of fn) →
  fs !! src = Some (File t0 (Encoded c i)) →
  fs !! (half, final_name_of fn) = None →
  save_fails w (full, final_name_of fn) = false →
  save_fails w (half, final_name_of fn) = true →
  ∃ tr',
    convert_and_resize w (Task src fn false) (State fs tk tr)
    = (State (<[(full, final_name_of fn) :=
                  File (clock w tk) (Encoded WebpLossless i)]> fs)
             (S tk) tr', inr None).
Proof.
  set (final := final_name_of fn). intros Hne Hs Hh Hfull Hhalf.
  rewrite convert_and_resize_eq. fold final.
  unfold convert_steps, write_full, write_half, needs_update, path_eqb.
  rewrite (bool_decide_eq_false_2 _ Hne). cbn [negb].
  assert (src ≠ (half, final)) by congruence.
  destruct (fs !! (full, final)) as [g|] eqn:Hg.
  - repeat io_step. rewrite orb_true_r. repeat io_step.
    rewrite ?bind_assoc, bind_image_save_fails by done. eauto.
  - repeat io_step.
    rewrite ?bind_assoc, bind_image_save_fails by done. eauto.
Qed.

Lemma failed_half_save_leaves_the_full_tier_behind_witness :
  ∃ tr',
    convert_and_resize
      (faulty_world (λ p, bool_decide (p.1 = half)) (λ _ _, false))
      (Task (full, "a.png") "a.png" false) (State same_stem_root 0 [])
    = (State (<[(full, final_name_of "a.png") :=
                  File 0 (Encoded WebpLossless (Picture 2 4 4))]> same_stem_root)
             1 tr', inr None).
Proof.
  apply (failed_half_save_leaves_the_full_tier_behind
           (faulty_world (λ p, bool_decide (p.1 = half)) (λ _ _, false))
           same_stem_root 0%nat [] (full, "a.png") "a.png" 2 Foreign
           (Picture 2 4 4));
    first [ reflexivity | discriminate | (vm_compute; reflexivity) ].
Defined.

(** ** Rename sets *)

(** One directory of the loop in [perform_rename_set]: a failing rename
    leaves the directory as it is and turns the result to [False]. *)
Lemma rename_in_dirs_step (w : world) d dirs src dst b fs tk tr :
  ∃ tr',
    rename_in_dirs w (d :: dirs) src dst b (State fs tk tr)
    = rename_in_dirs w dirs src dst
        (if rename_fails w (d, src) (d, dst)
         then b && negb (bool_decide (is_Some (fs !! (d, src)))) else b)
        (State (if rename_fails w (d, src) (d, dst) then fs
                else move d src dst fs) tk (tr ++ tr')).
Proof.
  cbn [rename_in_dirs]. unfold move.
  destruct (fs !! (d, src)) as [f|] eqn:Hs.
  - rewrite bind_exists_true by eauto. cbn [DRY_RUN negb].
    rewrite bool_decide_eq_true_2 by eauto. cbn [negb]. rewrite andb_false_r.
    unfold bind at 1, try_with, bind at 1, os_rename.
    cbn [files ticks trace]. rewrite Hs.
    destruct (rename_fails w (d, src) (d, dst)).
    + cbn [ret]. exists [EvStat (d, src)]. reflexivity.
    + cbn [ret]. exists [EvStat (d, src); EvRename (d, src) (d, dst)].
      by rewrite <- app_assoc.
  - rewrite bind_exists_false by done. rewrite bind_ret.
    rewrite bool_decide_eq_false_2 by (by intros [? ?]).
    cbn [negb]. rewrite andb_true_r.
    destruct (rename_fails _ _ _); eauto.
Qed.

Lemma rename_in_dirs_returns (w : world) dirs src dst :
  ∀ b st, ∃ st' b', rename_in_dirs w dirs src dst b st = (st', inr b').
Proof.
  induction dirs as [|d dirs IH]; intros b [fs tk tr].
  - cbn. unfold ret. eauto.
  - destruct (rename_in_dirs_step w d dirs src dst b fs tk tr) as [tr' ->].
    apply IH.
Qed.

Lemma perform_rename_set_returns (w : world) src dst st :
  ∃ st' ok, perform_rename_set w src dst st = (st', inr ok).
Proof.
  destruct st as [fs tk tr]. unfold perform_rename_set.
  destruct (fs !! (full, dst)) as [f|] eqn:Hd.
  - rewrite bind_exists_true by eauto. unfold ret. eauto.
  - rewrite bind_exists_false by done. apply rename_in_dirs_returns.
Qed.

(** X8. A rename set never raises: every [OSError] is caught and turned
    into the result. With the destination name taken in the root it reports
    failure after a single [exists] test and renames nothing. *)
Theorem rename_set_never_raises_nor_overwrites_root (w : world) src dst st :
  (∃ st' ok, perform_rename_set w src dst st = (st', inr ok))
  ∧ (is_Some (files st !! (full, dst)) →
     ∃ st', perform_rename_set w src dst st = (st', inr false)
            ∧ files st' = files st
            ∧ trace st' = trace st ++ [EvStat (full, dst)]).
Proof.
  split; [apply perform_rename_set_returns|].
  intros Hd. destruct st as [fs tk tr]. cbn [files] in Hd.
  rewrite (perform_rename_set_blocked w src dst fs tk tr Hd). eauto.
Qed.

Lemma rename_set_never_raises_nor_overwrites_root_witness :
  ∃ st',
    perform_rename_set plain_world "1.webp" "2.webp" (State stale_key_root 0 [])
    = (st', inr false)
    ∧ files st' = stale_key_root
    ∧ trace st' = [] ++ [EvStat (full, "2.webp")].
Proof.
  apply (proj2 (rename_set_never_raises_nor_overwrites_root plain_world
                  "1.webp" "2.webp" (State stale_key_root 0 []))).
  eexists. vm_compute. reflexivity.
Defined.

(** X9. With no rename failing and the destination free in the root, a
    rename set reports success; in each tree the file under the source name,
    if there is one, is afterwards under the destination name, replacing what
    was there, and a tree without the source keeps what it has under the
    destination. A source that exists in no tree still gives success, with
    nothing renamed. *)
Theorem rename_set_moves_what_is_there (w : world) src dst fs tk tr :
  (∀ s t, rename_fails w s t = false) →
  fs !! (full, dst) = None → src ≠ dst →
  ∃ st', perform_rename_set w src dst (State fs tk tr) = (st', inr true)
    ∧ (∀ d n, files st' !! (d, n)
              = if decide (n = src) then None
                else if decide (n = dst) then
                       match fs !! (d, src) with
                       | Some f => Some f
                       | None => fs !! (d, dst)
                       end
                     else fs !! (d, n))
    ∧ ((∀ d, fs !! (d, src) = None) → files st' = fs).
Proof.
  intros Hok Hfree Hne.
  destruct (perform_rename_set_ok w src dst fs tk tr Hok Hfree) as [tr' ->].
  eexists. split; [reflexivity|]. cbn [files]. split.
  - intros d n. by apply renamed_lookup.
  - intros Hnone. unfold renamed, move. by rewrite !Hnone.
Qed.

Lemma rename_set_moves_what_is_there_witness :
  ∃ st',
    perform_rename_set plain_world "2.webp" "1.webp" (State stale_key_root 0 [])
    = (st', inr true)
    ∧ (∀ d n, files st' !! (d, n)
              = if decide (n = "2.webp") then None
                else if decide (n = "1.webp") then
                       match stale_key_root !! (d, "2.webp") with
                       | Some f => Some f
                       | None => stale_key_root !! (d, "1.webp")
                       end
                     else stale_key_root !! (d, n))
    ∧ ((∀ d, stale_key_root !! (d, "2.webp") = None) →
       files st' = stale_key_root).
Proof.
  apply (rename_set_moves_what_is_there plain_world "2.webp" "1.webp"
           stale_key_root 0%nat []).
  - intros s t. reflexivity.
  - vm_compute. reflexivity.
  - discriminate.
Defined.

(** X10. The three directories are renamed independently: when the rename
    in the root fails the result is [False] and the root keeps the source,
    and the half and quarter files are renamed all the same. *)
Theorem failed_root_rename_still_moves_derived_tiers (w : world)
    src dst fs tk tr :
  fs !! (full, dst) = None → is_Some (fs !! (full, src)) →
  rename_fails w (full, src) (full, dst) = true →
  rename_fails w (half, src) (half, dst) = false →
  rename_fails w (quarter, src) (quarter, dst) = false →
  ∃ tr', perform_rename_set w src dst (State fs tk tr)
         = (State (move quarter src dst (move half src dst fs)) tk (tr ++ tr'),
            inr false).
Proof.
  intros Hfree Hsrc Hf Hh Hq. unfold perform_rename_set.
  rewrite bind_exists_false by done.
  destruct (rename_in_dirs_step w full [half; quarter] src dst true fs tk
              (tr ++ [EvStat (full, dst)])) as [tr1 ->].
  rewrite Hf, bool_decide_eq_true_2 by done. cbn [negb andb].
  destruct (rename_in_dirs_step w half [quarter] src dst false fs tk
              ((tr ++ [EvStat (full, dst)]) ++ tr1)) as [tr2 ->].
  rewrite Hh.
  destruct (rename_in_dirs_step w quarter [] src dst false
              (move half src dst fs) tk
              (((tr ++ [EvStat (full, dst)]) ++ tr1) ++ tr2)) as [tr3 ->].
  rewrite Hq. cbn [rename_in_dirs]. unfold ret.
  rewrite <- !app_assoc. eauto.
Qed.

Lemma failed_root_rename_still_moves_derived_tiers_witness :
  ∃ tr',
    perform_rename_set
      (faulty_world (λ _, false) (λ s _, bool_decide (s.1 = full)))
      "2.webp" "1.webp" (State stale_key_root 0 [])
    = (State (move quarter "2.webp" "1.webp"
                (move half "2.webp" "1.webp" stale_key_root)) 0 ([] ++ tr'),
       inr false).
Proof.
  apply (failed_root_rename_still_moves_derived_tiers
           (faulty_world (λ _, false) (λ s _, bool_decide (s.1 = full)))
           "2.webp" "1.webp" stale_key_root 0%nat []).
  - vm_compute. reflexivity.
  - eexists. vm_compute. reflexivity.
  - reflexivity.
  - reflexivity.
  - reflexivity.
Defined.

(** ** The renumbering pass always returns *)

Lemma fill_gaps_returns (w : world) gaps :
  ∀ nums hi (m : gmap string string) st,
    hi < Z.of_nat (length nums) →
    ∃ st' nums' m', fill_gaps w gaps nums hi m st = (st', inr (nums', m')).
Proof.
  induction gaps as [|gap gaps IH]; intros nums hi m st Hhi;
    cbn [fill_gaps]; [unfold ret; eauto|].
  destruct (Z.ltb_spec hi 0); [unfold ret; eauto|].
  destruct (lookup_lt_is_Some_2 nums (Z.to_nat hi)) as [src ->]; [lia|].
  destruct (src <? gap); [unfold ret; eauto|].
  destruct (perform_rename_set_returns w (slot_name src) (slot_name gap) st)
    as (st1 & ok & Hren).
  unfold bind at 1. rewrite Hren. apply IH. rewrite length_insert. lia.
Qed.

Lemma rename_others_returns (w : world) others :
  ∀ k (m : gmap string string) st,
    ∃ st' m', rename_others w others k m st
              = (st', inr (k + Z.of_nat (length others), m')).
Proof.
  induction others as [|f others IH]; intros k m st; cbn [rename_others].
  - unfold ret. cbn [length]. rewrite Z.add_0_r. eauto.
  - destruct (perform_rename_set_returns w f (slot_name k) st)
      as (st1 & ok & Hren).
    unfold bind at 1. rewrite Hren.
    destruct (IH (k + 1) (if ok then rekey m f (slot_name k) else m) st1)
      as (st' & m' & ->).
    exists st', m'. do 2 f_equal. f_equal. cbn [length]. lia.
Qed.

Lemma standardize_returns (w : world) (manifest : gmap string string)
    (st : state) :
  ∃ st' total manifest',
    standardize_names_and_fill_gaps w manifest st
    = (st', inr (total, manifest')).
Proof.
  destruct st as [fs tk tr].
  unfold standardize_names_and_fill_gaps. rewrite bind_listdir.
  destruct (classify_run (filter (λ f, is_webp f = true) (listdir_order w fs))
              ∅ [] (State fs tk (tr ++ [EvList full]))) as (nm & Hc & _).
  unfold bind at 1. rewrite Hc. cbn [app].
  set (nums := sorted_keys nm).
  assert (Hfill : ∃ st1 nums1 m1,
    (match nums, gaps_of nums with
     | _ :: _, _ :: _ =>
         fill_gaps w (gaps_of nums) nums (Z.of_nat (length nums) - 1) manifest
     | _, _ => ret (nums, manifest)
     end) (State fs tk (tr ++ [EvList full])) = (st1, inr (nums1, m1))).
  { destruct nums as [|x nums']; [unfold ret; eauto|].
    destruct (gaps_of (x :: nums')) as [|g gs] eqn:Hg; [unfold ret; eauto|].
    apply fill_gaps_returns. lia. }
  destruct Hfill as (st1 & nums1 & m1 & Hfill).
  unfold bind at 1. rewrite Hfill.
  match goal with
  | |- context [rename_others w ?o ?k ?m] =>
      destruct (rename_others_returns w o k m st1) as (st2 & m2 & Hoth)
  end.
  unfold bind at 1. rewrite Hoth. unfold ret. eauto.
Qed.


(** With the [.webp] names of the root being the slots [1..K] there is
    nothing to classify as other, no gap, and nothing to rename. *)
Lemma standardize_fixed (w : world) fs tk tr
    (manifest : gmap string string) (K : Z) :
  listing_ok w → 0 ≤ K →
  (∀ x, is_Some (fs !! (full, x)) ∧ is_webp x = true ↔ x ∈ slot_names K) →
  standardize_names_and_fill_gaps w manifest (State fs tk tr)
  = (State fs tk (tr ++ [EvList full]), inr (K, manifest)).
Proof.
  intros Hlist HK Hroot.
  destruct (standardize_reduce w Hlist fs tk tr manifest K HK)
    as (others & -> & _ & Hoth).
  - intros k Hk. destruct (proj2 (Hroot (slot_name k))) as [H _]; [|done].
    apply elem_of_slot_names. eauto.
  - intros f Hf Hw _. by apply Hroot.
  - assert (others = []) as ->.
    { apply elem_of_nil_inv. intros f (Hf & Hw & Hn)%Hoth.
      assert (Hs : f ∈ slot_names K) by (by apply Hroot).
      apply elem_of_slot_names in Hs as (k & -> & Hk).
      rewrite numeric_slot_name in Hn by lia. done. }
    cbn [rename_others]. rewrite bind_ret. unfold ret. cbn [fst snd].
    do 3 f_equal. lia.
Qed.

(** X12. On a root whose [.webp] names are exactly [1.webp] .. [K.webp] the
    pass changes nothing: one listing, no rename, the count [K], and the
    manifest as it was given. *)
Theorem renumbering_leaves_dense_root_alone (w : world) fs tk tr
    (manifest : gmap string string) (K : Z) :
  listing_ok w → 0 ≤ K →
  (∀ x, is_Some (fs !! (full, x)) ∧ is_webp x = true ↔ x ∈ slot_names K) →
  standardize_names_and_fill_gaps w manifest (State fs tk tr)
  = (State fs tk (tr ++ [EvList full]), inr (K, manifest)).
Proof. apply standardize_fixed. Qed.

(** X13. The name written for slot [k] is read back as slot [k]: it ends in
    [.webp], its stem is numeric and [int] of the stem is [k], it is its own
    conversion target, the classification loop files it under [k], and
    different slots have different names. *)
Theorem slot_name_reads_back (k : Z) :
  0 ≤ k →
  is_webp (slot_name k) = true
  ∧ numeric (slot_name k) = true
  ∧ Str.int (Str.splitext (slot_name k)).1 = Some k
  ∧ final_name_of (slot_name k) = slot_name k
  ∧ (∀ st, classify [slot_name k] ∅ [] st
           = (st, inr ({[ k := slot_name k ]}, [])))
  ∧ (∀ k', 0 ≤ k' → slot_name k = slot_name k' → k = k').
Proof.
  intros Hk. split; [apply is_webp_slot_name|].
  split; [by apply numeric_slot_name|].
  assert (Hint : Str.int (Str.splitext (slot_name k)).1 = Some k).
  { rewrite splitext_slot_name by done. by apply StrFacts.int_str. }
  split; [done|]. split; [by apply final_name_slot|]. split.
  - intros st. cbn [classify].
    pose proof (numeric_slot_name k Hk) as Hn. unfold numeric in Hn.
    rewrite Hn, Hint. by rewrite insert_empty.
  - intros k' Hk'. by apply slot_name_inj.
Qed.

Lemma slot_name_reads_back_witness :
  is_webp (slot_name 7) = true
  ∧ numeric (slot_name 7) = true
  ∧ Str.int (Str.splitext (slot_name 7)).1 = Some 7
  ∧ final_name_of (slot_name 7) = slot_name 7
  ∧ (∀ st, classify [slot_name 7] ∅ [] st
           = (st, inr ({[ 7 := slot_name 7 ]}, [])))
  ∧ (∀ k', 0 ≤ k' → slot_name 7 = slot_name k' → 7 = k').
Proof. apply (slot_name_reads_back 7). lia. Defined.

Lemma renumbering_leaves_dense_root_alone_witness :
  standardize_names_and_fill_gaps plain_world {[ "1.webp" := "a.png" ]}
    (State {[ (full, "1.webp") := File 1 (Encoded WebpLossless (Picture 1 8 6)) ]}
           0 [])
  = (State {[ (full, "1.webp") := File 1 (Encoded WebpLossless (Picture 1 8 6)) ]}
           0 ([] ++ [EvList full]),
     inr (1, {[ "1.webp" := "a.png" ]})).
Proof.
  apply (renumbering_leaves_dense_root_alone plain_world _ 0%nat []
           {[ "1.webp" := "a.png" ]} 1).
  - exact plain_world_listing_ok.
  - lia.
  - intros x. rewrite elem_of_slot_names. split.
    + intros [[f Hf] _]. apply lookup_singleton_Some in Hf as [[= <-] _].
      exists 1. split; [reflexivity|lia].
    + intros (k & -> & Hk). assert (k = 1) as -> by lia.
      split; [|reflexivity]. eexists. apply lookup_singleton_eq.
Defined.

(** ** Filling gaps *)

Ltac list_mem :=
  repeat first
    [ rewrite elem_of_app | rewrite elem_of_cons | rewrite elem_of_nil ];
  first [ tauto | intuition congruence ].

Lemma compacting_step M lo s dn g gs rm :
  compacting M (lo ++ [s]) dn (g :: gs) rm → g ≤ s →
  compacting M lo (g :: dn) gs (s :: rm).
Proof.
  intros [Hcov Hrng Hnd Hlo Hgs H1 H2 H3] Hle.
  apply StronglySorted_cons in Hgs as [Hg Hgs].
  assert (Hs : ∀ x, x ∈ lo → x ≤ s).
  { intros x Hx. eapply (StronglySorted_app_1_elem_of Z.le); [exact Hlo|done|].
    by apply list_elem_of_singleton. }
  apply StronglySorted_app_1_l in Hlo.
  rewrite Forall_forall in Hg.
  split; try done.
  - intros y Hy. destruct (Hcov y Hy) as [Hin|[Hin|[Hin|Hin]]].
    + apply elem_of_app in Hin as [?| ->%list_elem_of_singleton]; [by left|].
      right; right; right. by left.
    + right; left. by right.
    + apply elem_of_cons in Hin as [->|?]; [right; left; by left|].
      by right; right; left.
    + right; right; right. by right.
  - intros y Hy. apply Hrng. revert Hy. list_mem.
  - assert (Hp : (lo ++ [s]) ++ dn ++ g :: gs ≡ₚ s :: lo ++ (g :: dn) ++ gs).
    { rewrite <- app_assoc. cbn [app].
      rewrite <- !Permutation_middle. done. }
    rewrite Hp in Hnd. by apply NoDup_cons in Hnd as [_ ?].
  - intros x y Hx [->|Hy]%elem_of_cons; [by apply Hs|].
    apply H1; [apply elem_of_app; by left|done].
  - intros x y [->|Hx]%elem_of_cons [->|Hy]%elem_of_cons.
    + done.
    + etrans; [exact Hle|]. apply H1; [|done].
      apply elem_of_app. right. by apply list_elem_of_singleton.
    + etrans; [|exact Hle]. apply H3; [done|by left].
    + by apply H2.
  - intros x y [->|Hx]%elem_of_cons Hy.
    + by apply Hg.
    + apply H3; [done|by right].
Qed.

Lemma list_max_exists (F : list Z) :
  F ≠ [] → ∃ x, x ∈ F ∧ ∀ y, y ∈ F → y ≤ x.
Proof.
  induction F as [|a F IH]; [done|]. intros _.
  destruct F as [|b F'].
  - exists a. split; [by left|]. intros y ->%list_elem_of_singleton. lia.
  - destruct IH as (x & Hx & Hmax); [done|].
    destruct (Z.le_gt_cases a x).
    + exists x. split; [by right|].
      intros y [->|Hy]%elem_of_cons; [done|by apply Hmax].
    + exists a. split; [by left|].
      intros y [->|Hy]%elem_of_cons; [lia|]. specialize (Hmax y Hy). lia.
Qed.

(** A list of integers without repetition that is closed downwards within
    [1..M] is an arrangement of [1..n], [n] its length. *)
Lemma downward_closed_is_prefix M (F : list Z) :
  NoDup F → (∀ x, x ∈ F → 1 ≤ x ≤ M) →
  (∀ x y, x ∈ F → 1 ≤ y ≤ M → y ∉ F → x ≤ y) →
  ∀ k, k ∈ F ↔ 1 ≤ k ≤ Z.of_nat (length F).
Proof.
  intros Hnd Hrng Hdown.
  destruct (decide (F = [])) as [->|HF].
  { intros k. cbn. split; [by intros ?%elem_of_nil|lia]. }
  destruct (list_max_exists F HF) as (x & Hx & Hmax).
  assert (Hiff : ∀ k, k ∈ F ↔ 1 ≤ k ≤ x).
  { intros k. split.
    - intros Hk. specialize (Hrng k Hk). specialize (Hmax k Hk). lia.
    - intros Hk. destruct (decide (k ∈ F)) as [|Hn]; [done|].
      assert (x ≤ k) by (apply Hdown; [done| |done]; specialize (Hrng x Hx); lia).
      by replace k with x by lia. }
  assert (Hperm : F ≡ₚ seqZ 1 x).
  { apply NoDup_Permutation; [done|apply NoDup_seqZ|].
    intros k. rewrite Hiff, elem_of_seqZ. lia. }
  assert (Hlen : Z.of_nat (length F) = x).
  { rewrite Hperm, length_seqZ. specialize (Hrng x Hx). lia. }
  intros k. by rewrite Hlen.
Qed.

(** When the loop stops, the slots are [1..n]. *)
Lemma compacting_done M lo dn gs rm :
  compacting M lo dn gs rm →
  gs = [] ∨ lo = []
  ∨ (∃ lo' s g gs', lo = lo' ++ [s] ∧ gs = g :: gs' ∧ s < g) →
  ∀ k, k ∈ lo ++ dn ↔ 1 ≤ k ≤ Z.of_nat (length (lo ++ dn)).
Proof.
  intros [Hcov Hrng Hnd Hlo Hgs H1 H2 H3] Hstop.
  apply (downward_closed_is_prefix M).
  - rewrite app_assoc in Hnd. by apply NoDup_app in Hnd as [? _].
  - intros x Hx. apply Hrng. rewrite app_assoc. apply elem_of_app. by left.
  - intros x y Hx Hy Hny.
    destruct (Hcov y Hy) as [Hin|[Hin|[Hin|Hin]]].
    { destruct Hny. apply elem_of_app. by left. }
    { destruct Hny. apply elem_of_app. by right. }
    + apply elem_of_app in Hx as [Hx|Hx]; [|by apply H3].
      destruct Hstop as [->|[->|(lo' & s & g & gs' & -> & -> & Hlt)]].
      * by apply elem_of_nil in Hin.
      * by apply elem_of_nil in Hx.
      * assert (x ≤ s).
        { apply elem_of_app in Hx as [Hx| ->%list_elem_of_singleton]; [|lia].
          eapply (StronglySorted_app_1_elem_of Z.le); [exact Hlo|done|].
          by apply list_elem_of_singleton. }
        assert (g ≤ y).
        { apply StronglySorted_cons in Hgs as [Hg _].
          rewrite Forall_forall in Hg.
          apply elem_of_cons in Hin as [->|Hin]; [lia|by apply Hg]. }
        lia.
    + apply elem_of_app in Hx as [Hx|Hx]; [by apply H1|by apply H2].
Qed.

Lemma StronglySorted_filter {A} (R : relation A) (P : A → Prop)
    `{!∀ x, Decision (P x)} (l : list A) :
  StronglySorted R l → StronglySorted R (filter P l).
Proof.
  induction 1 as [|x l Hl IH Hx]; [constructor|].
  rewrite filter_cons. case_decide; [|done]. constructor; [done|].
  rewrite Forall_forall in Hx. apply Forall_forall.
  intros y [_ Hy]%list_elem_of_filter. by apply Hx.
Qed.

(** The slots [S], in ascending order and with greatest element [M], and
    the gaps computed from them start the loop. *)
Lemma compacting_init (S : list Z) (M : Z) :
  StronglySorted Z.le S → NoDup S → (∀ k, k ∈ S → 1 ≤ k) →
  last S = Some M →
  compacting M S [] (gaps_of S) [].
Proof.
  intros Hsort Hnd Hpos Hlast.
  assert (Hgaps : ∀ y, y ∈ gaps_of S ↔ 1 ≤ y ≤ M - 1 ∧ y ∉ S).
  { intros y. unfold gaps_of. rewrite Hlast, list_elem_of_filter, elem_of_seqZ.
    rewrite elem_of_list_to_set. split; intros [? ?]; split; (done || lia). }
  pose proof Hlast as [S' ->]%last_Some.
  assert (HM : ∀ y, y ∈ S' ++ [M] → y ≤ M).
  { intros y [Hy| ->%list_elem_of_singleton]%elem_of_app; [|lia].
    eapply (StronglySorted_app_1_elem_of Z.le); [exact Hsort|done|].
    by apply list_elem_of_singleton. }
  split.
  - intros y Hy. destruct (decide (y ∈ S' ++ [M])) as [|Hn]; [by left|].
    right; right; left. apply Hgaps. split; [|done].
    assert (y ≠ M); [|lia]. intros ->. apply Hn, elem_of_app. right.
    by apply list_elem_of_singleton.
  - intros y. rewrite app_nil_l. intros [Hy|Hy]%elem_of_app.
    + specialize (Hpos y Hy). specialize (HM y Hy). lia.
    + apply Hgaps in Hy. lia.
  - rewrite app_nil_l. apply NoDup_app. split; [done|]. split.
    + intros y Hy Hg. apply Hgaps in Hg. tauto.
    + unfold gaps_of. rewrite Hlast. apply NoDup_filter, NoDup_seqZ.
  - done.
  - unfold gaps_of. rewrite Hlast. apply StronglySorted_filter.
    apply StronglySorted_seqZ.
  - intros x y _ []%elem_of_nil.
  - intros x y []%elem_of_nil.
  - intros x y []%elem_of_nil.
Qed.

(** ** Filling gaps, in the root *)

Lemma lookup_rekey (m : gmap string string) src dst key :
  src ≠ dst → m !! dst = None →
  rekey m src dst !! key
  = if decide (key = dst) then m !! src
    else if decide (key = src) then None else m !! key.
Proof.
  intros Hne Hd. unfold rekey. destruct (m !! src) as [v|] eqn:Hs.
  - repeat case_decide; simplify_eq.
    + by rewrite lookup_insert_eq.
    + rewrite lookup_insert_ne by done. by rewrite lookup_delete_eq.
    + rewrite lookup_insert_ne by done. by rewrite lookup_delete_ne.
  - repeat case_decide; simplify_eq; done.
Qed.

Lemma carried_renamed fs0 m0 fs (m : gmap string string) src dst :
  carried fs0 m0 fs m →
  is_Some (fs !! (full, src)) → is_webp src = true →
  fs !! (full, dst) = None → is_webp dst = true →
  carried fs0 m0 (renamed fs src dst) (rekey m src dst).
Proof.
  intros [Hkeys Hfrom Hsize Hknown] [f Hsrc] Hws Hfree Hwd.
  assert (Hne : src ≠ dst) by congruence.
  assert (Hmd : m !! dst = None).
  { destruct (m !! dst) eqn:E; [|done].
    destruct (Hkeys dst) as [[g Hg] _]; [eauto|congruence]. }
  split.
  - intros key. rewrite lookup_rekey, renamed_lookup by done. rewrite Hsrc.
    destruct (decide (key = dst)) as [->|Hkd].
    { rewrite decide_False by congruence. eauto. }
    destruct (decide (key = src)) as [->|Hks]; [by intros [? ?]|].
    apply Hkeys.
  - intros y. rewrite lookup_rekey, renamed_lookup by done. rewrite Hsrc.
    destruct (decide (y = dst)) as [->|Hyd].
    { rewrite decide_False by congruence. intros _ _.
      destruct (Hfrom src) as (x & Hx & Hm); [eauto|done|].
      exists x. split; [by rewrite <- Hx|done]. }
    destruct (decide (y = src)) as [->|Hys]; [by intros [? ?]|].
    apply Hfrom.
  - by rewrite rekey_size.
  - by rewrite known_rekey.
Qed.

Lemma webp_names_ext tiers fs (P Q : string → Prop) :
  (∀ x, P x ↔ Q x) → webp_names tiers fs P → webp_names tiers fs Q.
Proof.
  intros H [HP HT]. split.
  - intros x. by rewrite <- H.
  - intros Ht x Hx. apply HT; [done|]. by apply H.
Qed.

Lemma webp_names_renamed tiers fs (P : string → Prop) src dst :
  webp_names tiers fs P → P src → ¬ P dst → is_webp dst = true →
  fs !! (full, dst) = None
  ∧ webp_names tiers (renamed fs src dst) (λ x, (P x ∧ x ≠ src) ∨ x = dst).
Proof.
  intros [HP HT] Hs Hd Hw.
  assert (Hne : src ≠ dst) by (by intros ->).
  assert (Hfree : fs !! (full, dst) = None).
  { destruct (fs !! (full, dst)) eqn:E; [|done]. destruct Hd. apply HP. eauto. }
  split; [done|]. split.
  - intros x. rewrite renamed_lookup by done.
    destruct (decide (x = src)) as [->|H1].
    + split; [by intros [[? ?] _]|]. intros [[_ ?]|?]; [done|congruence].
    + destruct (decide (x = dst)) as [->|H2].
      * destruct (proj2 (HP src) Hs) as [[f ->] _].
        split; [by right|eauto].
      * rewrite (HP x). split; [by left|]. by intros [[? _]|?].
  - intros Ht x [[Hx Hxs]| ->].
    + assert (x ≠ dst) by (by intros ->).
      rewrite (present3_ext fs); [by apply HT|].
      intros d. rewrite renamed_lookup by done.
      repeat case_decide; congruence.
    + pose proof (HT Ht src Hs) as H3.
      rewrite <- H3. apply (good_moved false). intros d.
      rewrite renamed_lookup by done.
      destruct (present3_all fs src d H3) as [f ->].
      repeat case_decide; congruence.
Qed.

Section Compaction.
Context (w : world) (Hren : ∀ s t, rename_fails w s t = false).
Context (others : list string) (tiers : bool).
Context (Hoth : ∀ o, o ∈ others → numeric o = false).

Lemma slot_not_other k : 0 ≤ k → slot_name k ∉ others.
Proof.
  intros Hk Hin. apply Hoth in Hin. by rewrite numeric_slot_name in Hin.
Qed.

Lemma fill_gaps_compacts M tk gs :
  ∀ lo dn rm fs tr (m : gmap string string),
    compacting M lo dn gs rm →
    webp_names tiers fs (slots_and (lo ++ dn) others) →
    ∃ F fs' tr' m',
      fill_gaps w gs (lo ++ dn) (Z.of_nat (length lo) - 1) m (State fs tk tr)
      = (State fs' tk tr', inr (F, m'))
      ∧ (∀ k, k ∈ F ↔ 1 ≤ k ≤ Z.of_nat (length (lo ++ dn)))
      ∧ webp_names tiers fs' (slots_and F others)
      ∧ (∀ fs0 m0, carried fs0 m0 fs m → carried fs0 m0 fs' m').
Proof.
  induction gs as [|g gs IH]; intros lo dn rm fs tr m Hcp Hnames.
  { cbn [fill_gaps]. unfold ret. exists (lo ++ dn), fs, tr, m.
    split; [done|]. split; [|done].
    apply (compacting_done M lo dn [] rm Hcp). by left. }
  destruct lo as [|s lo _] using rev_ind.
  { rewrite fill_gaps_stop by (cbn; lia). exists dn, fs, tr, m.
    split; [done|]. split; [|done].
    apply (compacting_done M [] dn (g :: gs) rm Hcp). right. by left. }
  assert (Hhi : Z.of_nat (length (lo ++ [s])) - 1 = Z.of_nat (length lo)).
  { rewrite length_app. cbn. lia. }
  assert (Hlook : ((lo ++ [s]) ++ dn) !! Z.to_nat (Z.of_nat (length lo))
                  = Some s).
  { rewrite Nat2Z.id, <- app_assoc. by apply list_lookup_middle. }
  rewrite Hhi.
  destruct (Z.lt_ge_cases s g) as [Hlt|Hge].
  { cbn [fill_gaps]. destruct (Z.ltb_spec (Z.of_nat (length lo)) 0); [lia|].
    rewrite Hlook. destruct (Z.ltb_spec s g); [|lia]. unfold ret.
    exists ((lo ++ [s]) ++ dn), fs, tr, m. split; [done|]. split; [|done].
    apply (compacting_done M _ dn (g :: gs) rm Hcp). right. right.
    by exists lo, s, g, gs. }
  pose proof (cp_range _ _ _ _ _ Hcp) as Hrng.
  pose proof (cp_nodup _ _ _ _ _ Hcp) as Hnd.
  assert (Hs1 : 1 ≤ s) by (apply Hrng; list_mem).
  assert (Hg1 : 1 ≤ g) by (apply Hrng; list_mem).
  assert (Hgnew : g ∉ (lo ++ [s]) ++ dn).
  { rewrite app_assoc in Hnd. apply NoDup_app in Hnd as (_ & Hdis & _).
    intros Hin. apply (Hdis g Hin). by left. }
  assert (Hsonce : s ∉ lo ++ dn).
  { rewrite <- !app_assoc in Hnd. apply NoDup_app in Hnd as (_ & Hdis & Hnd).
    cbn [app] in Hnd, Hdis. apply NoDup_cons in Hnd as [Hs _].
    intros [Hin|Hin]%elem_of_app.
    - apply (Hdis s Hin). by left.
    - apply Hs. apply elem_of_app. by left. }
  destruct (webp_names_renamed tiers fs _ (slot_name s) (slot_name g) Hnames)
    as [Hfree Hnames'].
  { left. exists s. split; [|done]. list_mem. }
  { intros [(k & Hk & E)|Hin].
    - apply slot_name_inj in E; [|lia|].
      + by subst k.
      + assert (1 ≤ k); [|lia]. apply Hrng. revert Hk. list_mem.
    - by apply (slot_not_other g); [lia|]. }
  { apply is_webp_slot_name. }
  destruct (perform_rename_set_ok w (slot_name s) (slot_name g) fs tk tr
              Hren Hfree) as [tr1 Hrun].
  erewrite (fill_gaps_step w g gs _ _ m _ _ s true);
    [|lia|exact Hlook|lia|exact Hrun].
  rewrite Nat2Z.id.
  assert (Hins : <[length lo := g]> ((lo ++ [s]) ++ dn) = lo ++ g :: dn).
  { rewrite <- app_assoc. cbn [app].
    rewrite insert_app_r_alt by lia. by rewrite Nat.sub_diag. }
  rewrite Hins.
  destruct (IH lo (g :: dn) (s :: rm) (renamed fs (slot_name s) (slot_name g))
              (tr ++ tr1) (rekey m (slot_name s) (slot_name g)))
    as (F & fs' & tr' & m' & Hrun' & HF & Hn' & Hca).
  - by apply compacting_step.
  - eapply webp_names_ext; [|exact Hnames']. intros x. unfold slots_and. split.
    + intros [[[(k & Hk & ->)|Hin] Hx]| ->].
      * left. exists k. split; [|done].
        assert (k ≠ s) by congruence.
        revert Hk. list_mem.
      * by right.
      * left. exists g. split; [|done]. list_mem.
    + intros [(k & Hk & ->)|Hin].
      * destruct (decide (k = g)) as [->|Hkg]; [by right|]. left.
        assert (Hk' : k ∈ lo ++ dn).
        { revert Hk. list_mem. }
        split.
        -- left. exists k. split; [|done]. revert Hk'. list_mem.
        -- intros E. apply slot_name_inj in E; [by subst k| |lia].
           assert (1 ≤ k); [|lia]. apply Hrng. revert Hk'. list_mem.
      * left. split; [by right|]. intros ->.
        by apply (slot_not_other s); [lia|].
  - exists F, fs', tr', m'. split; [exact Hrun'|]. split; [|split; [done|]].
    + intros k. rewrite HF. rewrite !length_app. cbn [length]. lia.
    + intros fs0 m0 Hc. apply Hca.
      apply carried_renamed; [done| |apply is_webp_slot_name|done
                             |apply is_webp_slot_name].
      apply (proj1 Hnames). left. exists s. split; [|done]. list_mem.
Qed.

Lemma rename_others_dense tk os :
  ∀ k fs tr (m : gmap string string),
    NoDup os → (∀ o, o ∈ os → o ∈ others) → 0 ≤ k →
    webp_names tiers fs (slots_and (seqZ 1 k) os) →
    ∃ fs' tr' m',
      rename_others w os (k + 1) m (State fs tk tr)
      = (State fs' tk tr', inr (k + 1 + Z.of_nat (length os), m'))
      ∧ webp_names tiers fs' (slots_and (seqZ 1 (k + Z.of_nat (length os))) [])
      ∧ (∀ fs0 m0, carried fs0 m0 fs m → carried fs0 m0 fs' m').
Proof.
  induction os as [|o os IH]; intros k fs tr m Hnd Hsub Hk Hnames.
  { cbn [rename_others length]. unfold ret. exists fs, tr, m.
    rewrite !Z.add_0_r. done. }
  apply NoDup_cons in Hnd as [Ho Hnd].
  assert (Hon : numeric o = false) by (apply Hoth, Hsub; by left).
  destruct (webp_names_renamed tiers fs _ o (slot_name (k + 1)) Hnames)
    as [Hfree Hnames'].
  { right. by left. }
  { intros [(j & Hj%elem_of_seqZ & E)|Hin].
    - apply slot_name_inj in E; lia.
    - apply (slot_not_other (k + 1)); [lia|]. by apply Hsub. }
  { apply is_webp_slot_name. }
  destruct (perform_rename_set_ok w o (slot_name (k + 1)) fs tk tr Hren Hfree)
    as [tr1 Hrun].
  rewrite (rename_others_step w o os (k + 1) m _ _ true Hrun).
  destruct (IH (k + 1) (renamed fs o (slot_name (k + 1))) (tr ++ tr1)
              (rekey m o (slot_name (k + 1))))
    as (fs' & tr' & m' & Hrun' & Hn' & Hca); [done| |lia| |].
  - intros o' Ho'. apply Hsub. by right.
  - eapply webp_names_ext; [|exact Hnames']. intros x. unfold slots_and. split.
    + intros [[[(j & Hj%elem_of_seqZ & ->)|Hin] Hx]| ->].
      * left. exists j. split; [|done]. apply elem_of_seqZ. lia.
      * right. by apply elem_of_cons in Hin as [?|?].
      * left. exists (k + 1). split; [|done]. apply elem_of_seqZ. lia.
    + intros [(j & Hj%elem_of_seqZ & ->)|Hin].
      * destruct (decide (j = k + 1)) as [->|Hne]; [by right|]. left. split.
        -- left. exists j. split; [|done]. apply elem_of_seqZ. lia.
        -- intros E. rewrite <- E in Hon.
           rewrite numeric_slot_name in Hon by lia. done.
      * left. split; [right; by right|]. by intros ->.
  - exists fs', tr', m'. split; [|split].
    + rewrite Hrun'. do 3 f_equal. cbn [length]. lia.
    + replace (k + Z.of_nat (length (o :: os)))
        with (k + 1 + Z.of_nat (length os)) by (cbn [length]; lia).
      done.
    + intros fs0 m0 Hc. apply Hca.
      apply carried_renamed; [done| | |done|apply is_webp_slot_name].
      * apply (proj1 Hnames). right. by left.
      * apply (proj1 Hnames). right. by left.
Qed.

End Compaction.

Lemma filter_split_length {A} (P : A → bool) (l : list A) :
  length l
  = (length (filter (λ x, P x = true) l)
     + length (filter (λ x, P x = false) l))%nat.
Proof.
  induction l as [|a l IH]; [done|]. rewrite !filter_cons.
  destruct (P a) eqn:E; repeat case_decide; try congruence; cbn [length]; lia.
Qed.

Lemma fill_match {A} (S G : list Z) (a b : A) :
  (G = [] → a = b) → S ≠ [] →
  match S, G with
  | _ :: _, _ :: _ => a
  | _, _ => b
  end = a.
Proof.
  intros HG HS. destruct S as [|z S]; [done|].
  destruct G as [|g G]; [|done]. symmetry. by apply HG.
Qed.

(** With every numeric [.webp] name of the root in the form the pass itself
    writes, the pass leaves the [.webp] files of the root named [1..N] and
    returns [N], the number of [.webp] files. *)
Lemma standardize_dense (w : world) (tiers : bool) fs tk tr
    (manifest : gmap string string) :
  listing_ok w → (∀ s t, rename_fails w s t = false) →
  (∀ f, is_Some (fs !! (full, f)) → is_webp f = true → numeric f = true →
        ∃ k, 1 ≤ k ∧ f = slot_name k) →
  (tiers = true →
   ∀ x, is_Some (fs !! (full, x)) → is_webp x = true → present3 fs x = true) →
  ∃ fs' tr' manifest',
    standardize_names_and_fill_gaps w manifest (State fs tk tr)
    = (State fs' tk tr',
       inr (Z.of_nat (length (filter (λ f, is_webp f = true) (root_names fs))),
            manifest'))
    ∧ (∀ x, is_Some (fs' !! (full, x)) ∧ is_webp x = true
            ↔ x ∈ slot_names
                  (Z.of_nat (length (filter (λ f, is_webp f = true)
                                       (root_names fs)))))
    ∧ (tiers = true →
       ∀ k, 1 ≤ k ≤ Z.of_nat (length (filter (λ f, is_webp f = true)
                                         (root_names fs))) →
            present3 fs' (slot_name k) = true)
    ∧ (∀ fs0 m0, carried fs0 m0 fs manifest → carried fs0 m0 fs' manifest').
Proof.
  intros Hlist Hren Hcanon Htiers.
  set (L := filter (λ f, is_webp f = true) (listdir_order w fs)).
  assert (HL : L ≡ₚ filter (λ f, is_webp f = true) (root_names fs))
    by (by apply listing_filter).
  assert (HLin : ∀ x, x ∈ L ↔ is_Some (fs !! (full, x)) ∧ is_webp x = true).
  { intros x. rewrite HL, list_elem_of_filter, elem_of_root_names. tauto. }
  assert (HLnd : NoDup L).
  { rewrite HL. apply NoDup_filter, NoDup_root_names. }
  rewrite <- (Permutation_length HL).
  unfold standardize_names_and_fill_gaps. rewrite bind_listdir. fold L.
  destruct (classify_run L ∅ [] (State fs tk (tr ++ [EvList full])))
    as (nm & Hc & Hdom).
  unfold bind at 1. rewrite Hc. cbn [app].
  set (others := filter (λ f, numeric f = false) L).
  set (S := sorted_keys nm).
  assert (HS : ∀ k, k ∈ S ↔ 1 ≤ k ∧ slot_name k ∈ L).
  { intros k. unfold S, sorted_keys.
    rewrite merge_sort_Permutation, elem_of_elements, Hdom, dom_empty. split.
    - intros [[]%elem_of_empty|(f & Hf & Hn & Hint)].
      destruct (Hcanon f) as (k' & Hk' & ->); [by apply HLin..|done|].
      rewrite splitext_slot_name in Hint by lia. cbn [fst] in Hint.
      rewrite StrFacts.int_str in Hint by lia. by simplify_eq.
    - intros [Hk Hin]. right. exists (slot_name k). split; [done|]. split.
      + apply numeric_slot_name. lia.
      + rewrite splitext_slot_name by lia. apply StrFacts.int_str. lia. }
  assert (HSsort : StronglySorted Z.le S).
  { apply StronglySorted_merge_sort; apply _. }
  assert (HSnd : NoDup S).
  { unfold S, sorted_keys. rewrite merge_sort_Permutation.
    apply NoDup_elements. }
  assert (Hothers : ∀ o, o ∈ others → numeric o = false).
  { by intros o [? _]%list_elem_of_filter. }
  assert (Hnames0 : webp_names tiers fs (slots_and S others)).
  { assert (Hiff : ∀ x, x ∈ L ↔ slots_and S others x).
    { intros x. unfold slots_and. split.
      - intros Hx. destruct (numeric x) eqn:Hn.
        + left. destruct (Hcanon x) as (k & Hk & ->); [by apply HLin..|done|].
          exists k. split; [by apply HS|done].
        + right. by apply list_elem_of_filter.
      - intros [(k & Hk%HS & ->)|Hin%list_elem_of_filter]; tauto. }
    split.
    - intros x. by rewrite <- HLin.
    - intros Ht x Hx%Hiff%HLin. apply Htiers; tauto. }
  pose (n := Z.of_nat (length S)).
  assert (Hfill : ∃ F fs1 tr1 m1,
    (match S, gaps_of S with
     | _ :: _, _ :: _ =>
         fill_gaps w (gaps_of S) S (Z.of_nat (length S) - 1) manifest
     | _, _ => ret (S, manifest)
     end) (State fs tk (tr ++ [EvList full]))
    = (State fs1 tk tr1, inr (F, m1))
    ∧ (∀ k, k ∈ F ↔ 1 ≤ k ≤ n)
    ∧ webp_names tiers fs1 (slots_and F others)
    ∧ (∀ fs0 m0, carried fs0 m0 fs manifest → carried fs0 m0 fs1 m1)).
  { destruct (decide (S = [])) as [E|Hne].
    - assert (n = 0) as -> by (subst n; by rewrite E).
      rewrite E in Hnames0. rewrite E.
      exists [], fs, (tr ++ [EvList full]), manifest.
      split; [done|]. split; [|done]. intros k.
      split; [by intros ?%elem_of_nil|lia].
    - rewrite (fill_match S (gaps_of S)
                 (fill_gaps w (gaps_of S) S (Z.of_nat (length S) - 1) manifest)
                 (ret (S, manifest))); [|by intros ->|done].
      destruct (last S) as [M|] eqn:Hlast.
      2:{ by destruct S as [|? ?] using rev_ind; [|rewrite last_snoc in Hlast]. }
      assert (Hcp : compacting M S [] (gaps_of S) []).
      { apply compacting_init; [done..| |done]. intros k Hk%HS. tauto. }
      destruct (fill_gaps_compacts w Hren others tiers Hothers M tk (gaps_of S)
                  S []
                  [] fs (tr ++ [EvList full]) manifest Hcp)
        as (F & fs1 & tr1 & m1 & Hrun & HF & Hn1 & Hca1).
      { by rewrite app_nil_r. }
      rewrite app_nil_r in Hrun, HF. exists F, fs1, tr1, m1. done. }
  destruct Hfill as (F & fs1 & tr1 & m1 & Hfill & HF & Hn1 & Hca1).
  unfold bind at 1. rewrite Hfill.
  assert (Hsorted : sorted_set F = seqZ 1 n).
  { apply sort_is_seqZ; [apply NoDup_elements|].
    intros k. by rewrite elem_of_elements, elem_of_list_to_set. }
  rewrite Hsorted.
  assert (Hn0 : 0 ≤ n) by (subst n; lia).
  assert (Hnext : match last (seqZ 1 n) with Some x => x + 1 | None => 1 end
                  = n + 1).
  { destruct (decide (n = 0)) as [->|]; [done|]. by rewrite last_seqZ by lia. }
  rewrite Hnext.
  destruct (rename_others_dense w Hren others tiers Hothers tk others n fs1 tr1
              m1)
    as (fs2 & tr2 & m2 & Hrun2 & [Hn2 Ht2] & Hca2);
    [by apply NoDup_filter|done|done| |].
  { eapply webp_names_ext; [|exact Hn1]. intros x. unfold slots_and.
    split; (intros [(k & Hk & ->)|?]; [left|by right]); exists k;
      (split; [|done]).
    - apply elem_of_seqZ. apply HF in Hk. lia.
    - apply HF. apply elem_of_seqZ in Hk. lia. }
  unfold bind at 1. rewrite Hrun2. unfold ret.
  assert (Hcount : Z.of_nat (length L) = n + Z.of_nat (length others)).
  { rewrite (filter_split_length numeric L). fold others.
    assert (Hnum : filter (λ f, numeric f = true) L ≡ₚ slot_name <$> S).
    { apply NoDup_Permutation.
      - by apply NoDup_filter.
      - apply NoDup_fmap_2_strong; [|done].
        intros a b Ha%HS Hb%HS. apply slot_name_inj; lia.
      - intros x. rewrite list_elem_of_filter, list_elem_of_fmap. split.
        + intros [Hn Hx].
          destruct (Hcanon x) as (k & Hk & ->); [by apply HLin..|done|].
          exists k. split; [done|]. by apply HS.
        + intros (k & -> & Hk%HS). split; [|tauto].
          apply numeric_slot_name. lia. }
    rewrite Hnum, length_fmap. subst n. lia. }
  rewrite Hcount. exists fs2, tr2, m2. split; [|split; [|split]].
  - do 3 f_equal. lia.
  - intros x. rewrite (Hn2 x), elem_of_slot_names. unfold slots_and. split.
    + intros [(k & Hk%elem_of_seqZ & ->)|[]%elem_of_nil].
      exists k. split; [done|lia].
    + intros (k & -> & Hk). left. exists k. split; [|done].
      apply elem_of_seqZ. lia.
  - intros Ht k Hk. apply Ht2; [done|]. left. exists k. split; [|done].
    apply elem_of_seqZ. lia.
  - intros fs0 m0 Hcar. by apply Hca2, Hca1.
Qed.



Lemma carried_refl fs (m : gmap string string) :
  (∀ key, is_Some (m !! key) →
          is_Some (fs !! (full, key)) ∧ is_webp key = true) →
  carried fs m fs m.
Proof. intros Hkeys. split; [done| |done|done]. intros y _ _. by exists y. Qed.





(** ** The two JSON files *)

Lemma load_manifest_reads fs tk tr :
  ∃ evs, load_manifest (State fs tk tr)
         = (State fs tk (tr ++ evs), inr (stored_manifest fs))
         ∧ Forall read_event evs.
Proof.
  unfold load_manifest, stored_manifest.
  destruct (fs !! (full, MANIFEST_FILENAME)) as [[t b]|] eqn:E.
  - rewrite bind_exists_true by eauto.
    unfold try_with, bind, log; cbn [files ticks trace]. rewrite E.
    rewrite <- app_assoc.
    destruct b; (eexists; split; [reflexivity|by repeat constructor]).
  - rewrite bind_exists_false by done. eexists. split; [reflexivity|].
    by repeat constructor.
Qed.

(** What [update_config_and_manifest] does, by the write that fails. *)
Lemma update_config_cases (w : world) total (m : gmap string string) fs tk tr :
  update_config_and_manifest w total m (State fs tk tr)
  = if save_fails w (full, CONFIG_FILENAME)
    then (State fs tk tr, inl (OSError (full, CONFIG_FILENAME)))
    else
      let fs1 := <[(full, CONFIG_FILENAME) :=
                     File (clock w tk) (Config total (clock w tk))]> fs in
      let tr1 := tr ++ [EvDump (full, CONFIG_FILENAME)] in
      if save_fails w (full, MANIFEST_FILENAME)
      then (State fs1 (S tk) tr1, inl (OSError (full, MANIFEST_FILENAME)))
      else (State (<[(full, MANIFEST_FILENAME) :=
                       File (clock w (S tk)) (Manifest m)]> fs1)
                  (S (S tk)) (tr1 ++ [EvDump (full, MANIFEST_FILENAME)]),
            inr tt).
Proof.
  unfold update_config_and_manifest. cbn [DRY_RUN].
  unfold bind, time_now, write_file. cbn [files ticks trace].
  destruct (save_fails w (full, CONFIG_FILENAME)); [done|].
  cbn [files ticks trace]. by destruct (save_fails w (full, MANIFEST_FILENAME)).
Qed.

(** X17. Round trip of the manifest: after [update_config_and_manifest] has
    returned, [load_manifest] reads back the manifest that was written,
    [config.json] holds the count, and no other file has changed. *)
Theorem written_manifest_is_read_back (w : world) total
    (m : gmap string string) st st' :
  update_config_and_manifest w total m st = (st', inr tt) →
  (load_manifest st').2 = inr m
  ∧ stored_total (files st') = Some total
  ∧ (∀ d n, n ≠ CONFIG_FILENAME → n ≠ MANIFEST_FILENAME →
            files st' !! (d, n) = files st !! (d, n)).
Proof.
  destruct st as [fs tk tr]. rewrite update_config_cases.
  destruct (save_fails w (full, CONFIG_FILENAME)); [done|].
  cbn zeta. destruct (save_fails w (full, MANIFEST_FILENAME)); [done|].
  intros [= <-]. split; [|split].
  - match goal with
    | |- context [load_manifest (State ?f ?t ?r)] =>
        destruct (load_manifest_reads f t r) as (evs & -> & _)
    end.
    cbn [snd]. f_equal. unfold stored_manifest. by rewrite lookup_insert_eq.
  - cbn [files]. unfold stored_total.
    rewrite lookup_insert_ne by done. by rewrite lookup_insert_eq.
  - intros d n H1 H2. cbn [files].
    rewrite !lookup_insert_ne; [done| |]; congruence.
Qed.

Lemma written_manifest_is_read_back_witness :
  let st' := (update_config_and_manifest plain_world 2
                {[ "1.webp" := "a.png" ]} (State ∅ 0 [])).1 in
  (load_manifest st').2 = inr {[ "1.webp" := "a.png" ]}
  ∧ stored_total (files st') = Some 2
  ∧ (∀ d n, n ≠ CONFIG_FILENAME → n ≠ MANIFEST_FILENAME →
            files st' !! (d, n) = (∅ : gmap path file) !! (d, n)).
Proof.
  apply (written_manifest_is_read_back plain_world 2 {[ "1.webp" := "a.png" ]}
           (State ∅ 0 [])).
  vm_compute. reflexivity.
Defined.

(** X18. The two JSON files are not written atomically: when
    [manifest.json] cannot be written the call raises, [config.json] already
    holds the new count and the stored manifest is the old one. *)
Theorem failed_manifest_write_leaves_new_config (w : world) total
    (m : gmap string string) st :
  save_fails w (full, CONFIG_FILENAME) = false →
  save_fails w (full, MANIFEST_FILENAME) = true →
  ∃ st', update_config_and_manifest w total m st
         = (st', inl (OSError (full, MANIFEST_FILENAME)))
    ∧ stored_total (files st') = Some total
    ∧ stored_manifest (files st') = stored_manifest (files st).
Proof.
  intros Hc Hm. destruct st as [fs tk tr].
  rewrite update_config_cases, Hc. cbn zeta. rewrite Hm.
  eexists. split; [reflexivity|]. cbn [files]. split.
  - unfold stored_total. by rewrite lookup_insert_eq.
  - unfold stored_manifest. by rewrite lookup_insert_ne.
Qed.

Lemma failed_manifest_write_leaves_new_config_witness :
  ∃ st',
    update_config_and_manifest
      (faulty_world (λ p, bool_decide (p = (full, MANIFEST_FILENAME)))
                    (λ _ _, false))
      2 {[ "1.webp" := "a.png" ]} (State ∅ 0 [])
    = (st', inl (OSError (full, MANIFEST_FILENAME)))
    ∧ stored_total (files st') = Some 2
    ∧ stored_manifest (files st') = stored_manifest ∅.
Proof.
  apply (failed_manifest_write_leaves_new_config
           (faulty_world (λ p, bool_decide (p = (full, MANIFEST_FILENAME)))
                         (λ _ _, false))
           2 {[ "1.webp" := "a.png" ]} (State ∅ 0 []));
    reflexivity.
Defined.

(** X19. A [manifest.json] that is missing or is not JSON makes the run
    start from the empty manifest, without an exception and without touching
    a file. *)
Theorem unreadable_manifest_starts_fresh fs tk tr :
  (∀ f, fs !! (full, MANIFEST_FILENAME) = Some f →
        unparsable (body f) = true) →
  ∃ evs, load_manifest (State fs tk tr) = (State fs tk (tr ++ evs), inr ∅)
         ∧ Forall read_event evs.
Proof.
  intros Hno. destruct (load_manifest_reads fs tk tr) as (evs & -> & Hev).
  exists evs. split; [|done]. do 2 f_equal. unfold stored_manifest.
  destruct (fs !! (full, MANIFEST_FILENAME)) as [[t []]|] eqn:E; try done.
  by specialize (Hno _ eq_refl).
Qed.

Lemma unreadable_manifest_starts_fresh_witness :
  ∃ evs, load_manifest (State broken_root 0 [])
         = (State broken_root 0 ([] ++ evs), inr ∅)
         ∧ Forall read_event evs.
Proof.
  apply (unreadable_manifest_starts_fresh broken_root 0%nat []).
  intros f Hf. vm_compute in Hf. by injection Hf as <-.
Defined.

(** ** Discovery and the pool *)

Lemma glob_hit_patterns (n : string) :
  glob_hit n = true ↔ ∃ ext, ext ∈ patterns ∧ glob_match ext n = true.
Proof.
  unfold glob_hit, patterns. rewrite existsb_exists. split.
  - intros (e & He & [H|H]%orb_true_iff).
    + exists e. split; [|done]. apply list_elem_of_In, in_flat_map.
      exists e. split; [done|]. cbn. tauto.
    + exists (Str.upper e). split; [|done]. apply list_elem_of_In, in_flat_map.
      exists e. split; [done|]. cbn. tauto.
  - intros (ext & (e & He & Hin)%list_elem_of_In%in_flat_map & Hm).
    exists e. split; [done|]. apply orb_true_iff.
    cbn in Hin. destruct Hin as [<-|[<-|[]]]; tauto.
Qed.

(** X20. The pending tasks are exactly the root entries that match a
    discovery pattern and are not a value of the manifest, each of them once,
    as the task [(path, name, paths, DRY_RUN)]; gathering them only lists the
    directory. *)
Theorem pending_tasks_are_the_unrecorded_sources (w : world)
    (m : gmap string string) fs tk tr :
  listing_ok w →
  ∃ names evs,
    gather_tasks w m (State fs tk tr)
    = (State fs tk (tr ++ evs), inr (task_of <$> names))
    ∧ quiet evs ∧ NoDup names
    ∧ ∀ n, n ∈ names
           ↔ is_Some (fs !! (full, n))
             ∧ (∃ ext, ext ∈ patterns ∧ glob_match ext n = true)
             ∧ n ∉ known m.
Proof.
  intros Hl.
  destruct (gather_tasks_spec w m fs tk tr Hl)
    as (names & evs & Hrun & Hq & Hnd & Hn).
  exists names, evs. split; [exact Hrun|]. split; [done|]. split; [done|].
  intros n. rewrite Hn, glob_hit_patterns. done.
Qed.

Lemma pending_tasks_are_the_unrecorded_sources_witness :
  ∃ names evs,
    gather_tasks plain_world ∅ (State two_sources 0 [])
    = (State two_sources 0 ([] ++ evs), inr (task_of <$> names))
    ∧ quiet evs ∧ NoDup names
    ∧ ∀ n, n ∈ names
           ↔ is_Some (two_sources !! (full, n))
             ∧ (∃ ext, ext ∈ patterns ∧ glob_match ext n = true)
             ∧ n ∉ known ∅.
Proof.
  apply (pending_tasks_are_the_unrecorded_sources plain_world ∅ two_sources
           0%nat []).
  exact plain_world_listing_ok.
Defined.

Lemma gather_tasks_returns (w : world) (m : gmap string string) fs tk tr :
  ∃ tr' ts, gather_tasks w m (State fs tk tr) = (State fs tk tr', inr ts).
Proof.
  unfold gather_tasks.
  destruct (glob_all_spec w exts [] fs tk tr) as (evs & Hg & _).
  unfold bind at 1. rewrite Hg. unfold ret. eauto.
Qed.

Lemma record_grows (m : gmap string string) r :
  m ⊆ record m r
  ∧ ∀ k v, record m r !! k = Some v → m !! k = Some v ∨ r = Some (k, v).
Proof.
  destruct r as [[final fn]|]; cbn [record]; [|by eauto].
  destruct (m !! final) eqn:E; [by eauto|]. split.
  - by apply insert_subseteq.
  - intros k v Hk. destruct (decide (k = final)) as [->|Hne].
    + rewrite lookup_insert_eq in Hk. right. congruence.
    + rewrite lookup_insert_ne in Hk by done. by left.
Qed.

Lemma run_pool_grows (w : world) ts :
  ∀ (m : gmap string string) st,
    ∃ st' m', run_pool w ts m st = (st', inr m')
      ∧ m ⊆ m'
      ∧ ∀ k v, m' !! k = Some v →
               m !! k = Some v
               ∨ ∃ t, t ∈ ts ∧ k = final_name_of (filename t) ∧ v = filename t.
Proof.
  induction ts as [|t ts IH]; intros m st; cbn [run_pool].
  - unfold ret. exists st, m. split; [done|]. split; [done|]. eauto.
  - destruct (convert_and_resize_result w t st) as (st1 & r & Hr & Hshape).
    unfold bind at 1. rewrite Hr.
    destruct (IH (record m r) st1) as (st' & m' & -> & Hsub & Hnew).
    destruct (record_grows m r) as [Hsub1 Hnew1].
    exists st', m'. split; [done|]. split; [by etrans|].
    intros k v Hk. destruct (Hnew k v Hk) as [Hk1|(t' & Ht' & E1 & E2)].
    + destruct (Hnew1 k v Hk1) as [?|E]; [by left|]. subst r.
      destruct Hshape as [?|Hs]; [done|]. injection Hs as -> ->.
      right. exists t. split; [by left|done].
    + right. exists t'. split; [by right|done].
Qed.

(** X21. The conversion loop never raises and only adds to the manifest:
    every entry present before is still there with its value, and a new
    entry maps the target name of one of the tasks to the file name of that
    task. *)
Theorem pool_only_adds_manifest_entries (w : world) (ts : list task)
    (manifest : gmap string string) (st : state) :
  ∃ st' manifest',
    run_pool w ts manifest st = (st', inr manifest')
    ∧ manifest ⊆ manifest'
    ∧ ∀ k v, manifest' !! k = Some v →
             manifest !! k = Some v
             ∨ ∃ t, t ∈ ts ∧ k = final_name_of (filename t) ∧ v = filename t.
Proof. apply run_pool_grows. Qed.

Lemma conversion_phase_returns (w : world) st :
  ∃ st1 m1, conversion_phase w st = (st1, inr m1)
            ∧ stored_manifest (files st) ⊆ m1.
Proof.
  destruct st as [fs tk tr]. unfold conversion_phase.
  destruct (load_manifest_reads fs tk tr) as (ev1 & Hload & _).
  unfold bind at 1. rewrite Hload.
  destruct (gather_tasks_returns w (stored_manifest fs) fs tk (tr ++ ev1))
    as (tr' & ts & Hg).
  unfold bind at 1. rewrite Hg.
  destruct (run_pool_grows w (pool_order w ts) (stored_manifest fs)
              (State fs tk tr')) as (st1 & m1 & -> & Hsub & _).
  eauto.
Qed.



(** A source that is not its own target and decodes: whatever becomes of
    the two derived tiers, the full tier holds the image of the source. *)
Lemma convert_differing_paths (w : world) fs tk tr src fn t0 c i :
  src ≠ (full, final_name_of fn) →
  fs !! src = Some (File t0 (Encoded c i)) →
  save_fails w (full, final_name_of fn) = false →
  ∃ st' r,
    convert_and_resize w (Task src fn false) (State fs tk tr) = (st', inr r)
    ∧ (r = None ∨ r = Some (final_name_of fn, fn))
    ∧ files st' !! (full, final_name_of fn)
      = Some (File (clock w tk) (Encoded WebpLossless i)).
Proof.
  set (final := final_name_of fn). intros Hne Hs Hsave.
  pose (rest := (write_half w final;;; write_quarter w final)%io).
  assert (Hrest : respects (keeps (full, final)) rest).
  { subst rest. apply respects_bind; [apply _| |intros _].
    - apply (respects_write_half w _ (keeps_log _)).
      intros. by apply keeps_insert.
    - apply (respects_write_quarter w _ (keeps_log _)).
      intros. by apply keeps_insert. }
  assert (Hfull : ∃ tr1, write_full w src final (State fs tk tr)
     = (State (<[(full, final) := File (clock w tk) (Encoded WebpLossless i)]> fs)
              (S tk) tr1, inr tt)).
  { unfold write_full, path_eqb. rewrite (bool_decide_eq_false_2 _ Hne).
    destruct (fs !! (full, final)) as [f|] eqn:Hf.
    - repeat io_step. rewrite orb_true_r. repeat io_step. eauto.
    - repeat io_step. eauto. }
  destruct Hfull as [tr1 Hfull].
  rewrite convert_and_resize_eq. fold final.
  unfold convert_steps. unfold bind at 1. rewrite Hfull. fold rest.
  match goal with |- context [rest ?s] =>
    pose proof (Hrest s) as [_ Hkeep] end.
  destruct (rest _) as [st' [e|[]]] eqn:Hr; cbn [fst files] in Hkeep.
  - exists st', None. split; [done|]. split; [by left|].
    etrans; [exact Hkeep|apply lookup_insert_eq].
  - exists st', (Some (final, fn)). split; [done|]. split; [by right|].
    etrans; [exact Hkeep|apply lookup_insert_eq].
Qed.



(** ** The count in [config.json] *)



(** ** Creating the directories *)

Lemma make_missing_grows mk keys :
  ∀ dirs, dirs ⊆ (make_missing mk keys dirs).1.
Proof.
  induction keys as [|key keys IH]; intros dirs; cbn [make_missing]; [done|].
  case_bool_decide; [apply IH|]. destruct (mk key); [done|].
  etrans; [|apply IH]. apply union_subseteq_r.
Qed.

Lemma make_missing_ok mk keys :
  ∀ dirs dirs', make_missing mk keys dirs = (dirs', inr tt) →
                ∀ key, key ∈ keys → key ∈ dirs'.
Proof.
  induction keys as [|k keys IH]; intros dirs dirs' H key Hin;
    [by apply elem_of_nil in Hin|].
  cbn [make_missing] in H.
  assert (Hk : ∀ ds, make_missing mk keys ds = (dirs', inr ()) → k ∈ ds →
                     k ∈ dirs').
  { intros ds Hds Hkd. pose proof (make_missing_grows mk keys ds) as Hsub.
    rewrite Hds in Hsub. by apply Hsub. }
  case_bool_decide as Hd.
  - apply elem_of_cons in Hin as [->|Hin]; [by eapply Hk|by eapply IH].
  - destruct (mk k); [done|].
    apply elem_of_cons in Hin as [->|Hin]; [|by eapply IH].
    eapply Hk; [done|]. apply elem_of_union. left. by apply elem_of_singleton.
Qed.

Lemma make_missing_done mk keys dirs :
  (∀ key, key ∈ keys → key ∈ dirs) →
  make_missing mk keys dirs = (dirs, inr tt).
Proof.
  induction keys as [|k keys IH]; intros H; cbn [make_missing]; [done|].
  rewrite bool_decide_eq_true_2 by (apply H; by left).
  apply IH. intros key Hk. apply H. by right.
Qed.

(** X25. [ensure_dirs] never removes a path; it answers [False] exactly
    when the base directory is missing; and when it answers [True] all three
    directories exist, so that a second call creates nothing and answers
    [True] again, even if no directory could be created any more. *)
Theorem ensure_dirs_creates_the_missing_trees (mkdir_fails : tier → bool)
    (dirs : gset tier) :
  dirs ⊆ (ensure_dirs mkdir_fails dirs).1
  ∧ ((ensure_dirs mkdir_fails dirs).2 = inr false ↔ full ∉ dirs)
  ∧ (∀ dirs', ensure_dirs mkdir_fails dirs = (dirs', inr true) →
       (∀ d, d ∈ dirs')
       ∧ ∀ mkdir_fails', ensure_dirs mkdir_fails' dirs' = (dirs', inr true)).
Proof.
  unfold ensure_dirs.
  pose proof (make_missing_grows mkdir_fails [half; quarter] dirs) as Hsub.
  case_bool_decide as Hfull.
  - destruct (make_missing mkdir_fails [half; quarter] dirs)
      as [ds [e|[]]] eqn:Hm; cbn [fst snd] in *.
    + split; [done|]. split; [split; [done|tauto]|]. done.
    + split; [done|]. split; [split; [done|tauto]|].
      intros dirs' [= <-].
      assert (Hall : ∀ d, d ∈ ds).
      { intros [].
        - by apply Hsub.
        - eapply make_missing_ok; [exact Hm|]. by left.
        - eapply make_missing_ok; [exact Hm|]. right. by left. }
      split; [done|]. intros mk'.
      rewrite bool_decide_eq_true_2 by done.
      by rewrite make_missing_done.
  - cbn [fst snd]. split; [done|]. split; [done|]. done.
Qed.

Lemma ensure_dirs_creates_the_missing_trees_witness :
  (∀ d, d ∈ ({[ half; quarter; full ]} : gset tier))
  ∧ ∀ mkdir_fails',
      ensure_dirs mkdir_fails' {[ half; quarter; full ]}
      = ({[ half; quarter; full ]}, inr true).
Proof.
  apply (proj2 (proj2 (ensure_dirs_creates_the_missing_trees (λ _, false)
                         {[ full ]}))).
  vm_compute. reflexivity.
Defined.
